(** * OptraScan backend of OpenSlide: a shallow embedding and its properties

    Source: [src/openslide-vendor-optra.c].  The C code is stateful: it
    allocates levels, grids and a TIFF handle cache, fills the hash tables
    that hang off the slide handle, and unwinds through a [FAIL] label.  The
    embedding threads one explicit [state] (slide handle, allocation heap,
    fingerprint accumulator, drawing context, decode log) through a small
    state-and-error monad whose third outcome, [Undefined], stands for
    undefined behaviour and aborts.

    Embedded from the source: [destroy], [read_tile], [paint_region],
    [get_initial_root_xml], [parse_initial_xml], [optra_detect],
    [width_compare] and [optra_open]; and, from [src/make-tables.c], the
    table generator ([fail], [make_ycbcr_tables], [main]), in double
    arithmetic.
    What these call in libtiff, libxml2, GLib, cairo and the OpenSlide core
    is either written out (GLib arrays and slices, [xmlGetNoNsProp],
    [strstr]) or taken from an [environment] record (which files open, which
    packets parse, which codecs exist, what a tile decodes to).  C strings
    are values: their allocation and release is not tracked. *)

From stdpp Require Import gmap strings list fin_maps sorting.
From Stdlib Require Import ZArith Lia Floats DecimalString.

Open Scope string_scope.
Open Scope Z_scope.

(** ** Constants of the source file *)

Definition MIN_THUMBNAIL_DIM : Z := 500.
Definition XML_ROOT_TAG : string := "ScanInfo".

(** Constants of [tiff.h] and [openslide.h] used by the file. *)
Definition TIFFTAG_XMLPACKET : Z := 700.
Definition FILETYPE_REDUCEDIMAGE : Z := 1.
Definition OPENSLIDE_PROPERTY_NAME_OBJECTIVE_POWER : string :=
  "openslide.objective-power".
Definition OPENSLIDE_PROPERTY_NAME_MPP_X : string := "openslide.mpp-x".
Definition OPENSLIDE_PROPERTY_NAME_MPP_Y : string := "openslide.mpp-y".

(** ** Data model *)

(** Addresses of heap allocations. *)
Definition loc := positive.

(** [tdir_t]: a TIFF directory index.  libtiff refuses to read past 65535
    directories, so the unsigned 16-bit index never wraps. *)
Definition tdir_t := nat.

(** What libtiff reports for one directory of the file: [TIFFIsTiled] and
    the fields fetched with [TIFFGetField] ([None]: the call returns 0). *)
Record directory := {
  dir_tiled : bool;
  dir_subfiletype : option Z;      (* TIFFTAG_SUBFILETYPE, uint32_t *)
  dir_image_desc : option string;  (* TIFFTAG_IMAGEDESCRIPTION *)
  dir_imwidth : option Z;          (* TIFFTAG_IMAGEWIDTH, uint32_t *)
  dir_imheight : option Z;         (* TIFFTAG_IMAGELENGTH, uint32_t *)
  dir_compression : option Z;      (* TIFFTAG_COMPRESSION, uint16_t *)
}.

(** An open TIFF always has a first directory; [TIFFReadDirectory] steps
    through the following ones. *)
Record TIFF := {
  tiff_first : directory;
  tiff_next : list directory;
}.

Definition tiff_dirs (t : TIFF) : list directory := tiff_first t :: tiff_next t.

(** The generic container description ([struct _openslide_tifflike]). *)
Record tifflike_dir := {
  tld_tiled : bool;
  tld_buffers : gmap Z string;     (* tag -> buffer contents *)
}.

Definition _openslide_tifflike := list tifflike_dir.

(** libxml2 trees, as far as the file looks at them. *)
Record xmlAttr := {
  attr_name : string;
  attr_ns : option string;         (* attr->ns, NULL for a plain attribute *)
  attr_value : string;             (* text of the attribute's children *)
}.

Record xmlNode := {
  node_name : string;
  node_properties : list xmlAttr;
}.

Record xmlDoc := {
  doc_ptr : loc;
  doc_root : xmlNode;
}.

Record _openslide_level := {
  w : Z;
  h : Z;
  base_tile_w : Z;
  base_tile_h : Z;
}.

Record _openslide_tiff_level := {
  dir : tdir_t;
  image_w : Z;                     (* int64_t *)
  image_h : Z;
  tile_w : Z;
  tile_h : Z;
  tiles_across : Z;
  tiles_down : Z;
}.

(** [struct level], together with the address it was allocated at. *)
Record level := {
  level_ptr : loc;
  base : _openslide_level;
  tiffl : _openslide_tiff_level;
  grid : loc;
}.

(** [struct optra_ops_data]. *)
Record optra_ops_data := {
  data_ptr : loc;
  tc : loc;
}.

Inductive _openslide_ops := optra_ops.

Record associated_image := {
  ai_dir : tdir_t;
}.

(** A cache entry: the pixel buffer, its cost, and the references handed
    out to callers that have not been released yet. *)
Record _openslide_cache_entry := {
  ce_ptr : loc;                    (* the buffer *)
  ce_data : list Z;                (* its uint32_t pixels, row-major *)
  ce_size : Z;
  ce_refs : nat;
}.

(** The slide handle ([openslide_t]). *)
Record openslide_t := {
  osr_levels : option (list level);
  osr_level_count : Z;
  osr_data : option optra_ops_data;
  osr_ops : option _openslide_ops;
  osr_properties : gmap string string;
  osr_associated_images : gmap string associated_image;
  osr_cache : gmap (loc * Z * Z) _openslide_cache_entry;
}.

(** Live heap objects. *)
Inductive obj :=
| ObjPtrArray (pdata : list level)             (* GPtrArray of struct level* *)
| ObjTiffcache (filename : string) (checked_out : nat) (pooled : nat)
| ObjLevel
| ObjGrid (across down tw th : Z)
| ObjOpsData
| ObjXmlDoc
| ObjTileData (size : Z).

(** A cairo image surface created over a pixel buffer, as painted. *)
Record surface := {
  sf_data : list Z;
  sf_width : Z;
  sf_height : Z;
  sf_stride : Z;
}.

(** One [GError] constructor per place that sets the error. *)
Inductive gerror :=
| ErrNotATiff                      (* "Not a TIFF file" *)
| ErrNotTiled                      (* "TIFF is not tiled" *)
| ErrNoBuffer                      (* set by _openslide_tifflike_get_buffer *)
| ErrNotInXMLPacket                (* "%s not in XMLPacket" *)
| ErrXmlParse                      (* set by _openslide_xml_parse *)
| ErrUnrecognizedRoot              (* "Unrecognized root element in optrascan XML" *)
| ErrTiffOpen                      (* set by _openslide_tiffcache_get *)
| ErrImageDescription              (* "reading image description failed." *)
| ErrAssociatedImage               (* set by _openslide_tiff_add_associated_image *)
| ErrImageWidth                    (* "reading image width failed" *)
| ErrImageHeight                   (* "reading image height failed" *)
| ErrCompressionUnreadable         (* "Can't read compression scheme" *)
| ErrUnsupportedCompression (compression : Z)
                                   (* "Unsupported TIFF compression: %u" *)
| ErrLevelInit                     (* set by _openslide_tiff_level_init *)
| ErrSetDir                        (* set by _openslide_tiff_set_dir *)
| ErrPropertiesAndHash             (* set by _openslide_tifflike_init_properties_and_hash *)
| ErrReadTile                      (* set by _openslide_tiff_read_tile *)
| ErrClipTile.                     (* set by _openslide_tiff_clip_tile *)

(** The memory the code works on. *)
Record state := {
  osr : openslide_t;
  heap : gmap loc obj;
  quickhash1 : list (tdir_t * tdir_t);  (* what was fed to the fingerprint *)
  cr : list surface;                    (* what was painted, oldest first *)
  decoded : list (tdir_t * Z * Z);      (* tiles decoded from the file *)
}.

(** The fields that [_openslide_tiff_level_init] reads from a directory. *)
Record geometry := {
  g_image_w : Z;
  g_image_h : Z;
  g_tile_w : Z;
  g_tile_h : Z;
  g_tiles_across : Z;
  g_tiles_down : Z;
}.

(** What the file takes from libtiff, libxml2 and the OpenSlide core. *)
Record environment := {
  TIFFOpen : string -> option TIFF;
  TIFFIsCODECConfigured : Z -> bool;
  TIFFSetDirectory : TIFF -> tdir_t -> bool;
  xmlReadMemory : string -> option xmlNode;
  int_prop_text : string -> option string;
  double_prop_text : string -> option string;
  level_geometry : tdir_t -> directory -> option geometry;
  associated_image_readable : tdir_t -> bool;
  level_hashable : _openslide_tifflike -> tdir_t -> bool;
  tifflike_properties :
    _openslide_tifflike -> tdir_t -> gmap string string -> gmap string string;
  tile_pixels : _openslide_tiff_level -> Z -> Z -> option (list Z);
  clipped_pixels : _openslide_tiff_level -> list Z -> Z -> Z -> option (list Z);
}.

(** ** The state-and-error monad *)

Inductive result (A : Type) :=
| Ok (a : A)
| Fail (e : gerror)                (* the function returns false / NULL *)
| Undefined.                       (* undefined behaviour, or the program aborts *)

Arguments Ok {A} a.
Arguments Fail {A} e.
Arguments Undefined {A}.

Definition M (A : Type) : Type := state -> result A * state.

Definition ret {A} (a : A) : M A := fun st => (Ok a, st).

Definition fail {A} (e : gerror) : M A := fun st => (Fail e, st).

Definition undefined {A} : M A := fun st => (Undefined, st).

Definition bind {A B} (m : M A) (k : A -> M B) : M B := fun st =>
  match m st with
  | (Ok a, st') => k a st'
  | (Fail e, st') => (Fail e, st')
  | (Undefined, st') => (Undefined, st')
  end.

Notation "'let!' x ':=' m 'in' k" := (bind m (fun x => k))
  (at level 10, x pattern, m at level 100, k at level 200).

Notation "'do!' m 'in' k" := (bind m (fun _ => k))
  (at level 10, m at level 100, k at level 200).

(** [goto FAIL]-style unwinding: when [m] fails, run [cleanup] and fail with
    the same error. *)
Definition on_failure {A} (m : M A) (cleanup : M unit) : M A := fun st =>
  match m st with
  | (Fail e, st') =>
      match cleanup st' with
      | (Ok _, st'') => (Fail e, st'')
      | (Fail e', st'') => (Fail e, st'')
      | (Undefined, st'') => (Undefined, st'')
      end
  | r => r
  end.

Definition of_option {A} (o : option A) (e : gerror) : M A :=
  match o with
  | Some a => ret a
  | None => fail e
  end.

(** ** State accessors *)

Definition upd_osr (f : openslide_t -> openslide_t) (st : state) : state :=
  {| osr := f (osr st); heap := heap st; quickhash1 := quickhash1 st;
     cr := cr st; decoded := decoded st |}.

Definition upd_heap (f : gmap loc obj -> gmap loc obj) (st : state) : state :=
  {| osr := osr st; heap := f (heap st); quickhash1 := quickhash1 st;
     cr := cr st; decoded := decoded st |}.

Definition upd_quickhash1
  (f : list (tdir_t * tdir_t) -> list (tdir_t * tdir_t)) (st : state) : state :=
  {| osr := osr st; heap := heap st; quickhash1 := f (quickhash1 st);
     cr := cr st; decoded := decoded st |}.

Definition upd_cr (f : list surface -> list surface) (st : state) : state :=
  {| osr := osr st; heap := heap st; quickhash1 := quickhash1 st;
     cr := f (cr st); decoded := decoded st |}.

Definition upd_decoded
  (f : list (tdir_t * Z * Z) -> list (tdir_t * Z * Z)) (st : state) : state :=
  {| osr := osr st; heap := heap st; quickhash1 := quickhash1 st;
     cr := cr st; decoded := f (decoded st) |}.

Definition set_osr (f : openslide_t -> openslide_t) : M unit :=
  fun st => (Ok tt, upd_osr f st).

Definition set_heap (f : gmap loc obj -> gmap loc obj) : M unit :=
  fun st => (Ok tt, upd_heap f st).

Definition set_quickhash1
  (f : list (tdir_t * tdir_t) -> list (tdir_t * tdir_t)) : M unit :=
  fun st => (Ok tt, upd_quickhash1 f st).

Definition set_cr (f : list surface -> list surface) : M unit :=
  fun st => (Ok tt, upd_cr f st).

Definition set_decoded
  (f : list (tdir_t * Z * Z) -> list (tdir_t * Z * Z)) : M unit :=
  fun st => (Ok tt, upd_decoded f st).

Definition get_osr : M openslide_t := fun st => (Ok (osr st), st).

Definition get_heap : M (gmap loc obj) := fun st => (Ok (heap st), st).

(** Allocation picks an address that is not live; freeing an address that
    is not live is undefined. *)
Definition alloc (o : obj) : M loc :=
  let! hp := get_heap in
  let p := fresh (dom hp) in
  do! set_heap (insert p o) in
  ret p.

Definition free (p : loc) : M unit :=
  let! hp := get_heap in
  match hp !! p with
  | Some _ => set_heap (delete p)
  | None => undefined
  end.

(** Field updates of the slide handle. *)
Definition with_properties (f : gmap string string -> gmap string string)
  (o : openslide_t) : openslide_t :=
  {| osr_levels := osr_levels o; osr_level_count := osr_level_count o;
     osr_data := osr_data o; osr_ops := osr_ops o;
     osr_properties := f (osr_properties o);
     osr_associated_images := osr_associated_images o;
     osr_cache := osr_cache o |}.

Definition with_associated_images
  (f : gmap string associated_image -> gmap string associated_image)
  (o : openslide_t) : openslide_t :=
  {| osr_levels := osr_levels o; osr_level_count := osr_level_count o;
     osr_data := osr_data o; osr_ops := osr_ops o;
     osr_properties := osr_properties o;
     osr_associated_images := f (osr_associated_images o);
     osr_cache := osr_cache o |}.

Definition with_cache
  (f : gmap (loc * Z * Z) _openslide_cache_entry ->
       gmap (loc * Z * Z) _openslide_cache_entry)
  (o : openslide_t) : openslide_t :=
  {| osr_levels := osr_levels o; osr_level_count := osr_level_count o;
     osr_data := osr_data o; osr_ops := osr_ops o;
     osr_properties := osr_properties o;
     osr_associated_images := osr_associated_images o;
     osr_cache := f (osr_cache o) |}.

(** ** libc, GLib and libxml2 helpers *)

(** [strstr(haystack, needle) != NULL]. *)
Fixpoint strstr (haystack needle : string) : bool :=
  String.prefix needle haystack ||
  match haystack with
  | EmptyString => false
  | String _ rest => strstr rest needle
  end.

(** [xmlGetNoNsProp]: the value of the first attribute of the node that has
    the given name and is in no namespace; NULL when there is none. *)
Fixpoint xmlGetNoNsProp_list (attrs : list xmlAttr) (name : string)
  : option string :=
  match attrs with
  | [] => None
  | a :: rest =>
      match attr_ns a with
      | None =>
          if String.eqb (attr_name a) name then Some (attr_value a)
          else xmlGetNoNsProp_list rest name
      | Some _ => xmlGetNoNsProp_list rest name
      end
  end.

Definition xmlGetNoNsProp (node : xmlNode) (name : string) : option string :=
  xmlGetNoNsProp_list (node_properties node) name.

Definition xmlDocGetRootElement (doc : xmlDoc) : xmlNode := doc_root doc.

Definition g_slice_alloc (size : Z) : M loc := alloc (ObjTileData size).

Definition g_slice_free1 (size : Z) (p : loc) : M unit := free p.

(** The sort behind [g_ptr_array_sort]: a stable sort by the comparison
    function (negative: the first argument goes first). *)
Fixpoint sort_insert {A} (cmp : A -> A -> Z) (x : A) (l : list A) : list A :=
  match l with
  | [] => [x]
  | y :: rest =>
      if 0 <? cmp x y then y :: sort_insert cmp x rest else x :: y :: rest
  end.

Definition stable_sort {A} (cmp : A -> A -> Z) (pdata : list A) : list A :=
  foldr (sort_insert cmp) [] pdata.

(** [guint] arithmetic, and [array->pdata[i]]: defined for an index below
    the length only. *)
Definition guint (z : Z) : Z := z mod 2 ^ 32.

(** Conversion of a [guint] to [int32_t]. *)
Definition to_int32 (z : Z) : Z := (z + 2 ^ 31) mod 2 ^ 32 - 2 ^ 31.

Definition pdata_index {A} (pdata : list A) (i : Z) : option A :=
  if (0 <=? i) && (i <? Z.of_nat (length pdata)) then pdata !! Z.to_nat i
  else None.

(** [cairo_image_surface_create_for_data] in format [CAIRO_FORMAT_ARGB32]. *)
Definition cairo_image_surface_create_for_data (data : list Z)
  (width height stride : Z) : surface :=
  {| sf_data := data; sf_width := width; sf_height := height;
     sf_stride := stride |}.

(** The surface [read_tile] draws for a tile of a level. *)
Definition tile_surface (l : level) (tiledata : list Z) : surface :=
  cairo_image_surface_create_for_data tiledata (tile_w (tiffl l))
    (tile_h (tiffl l)) (tile_w (tiffl l) * 4).

Section Optra.

Context (env : environment).

(** ** OpenSlide core functions used by the file *)

(** Modelled from the spec: [_openslide_xml_parse] is not part of the file.
    The XML attribute parser either yields a document, which the caller has
    to free, or fails. *)
Definition _openslide_xml_parse (xml : string) : M xmlDoc :=
  match xmlReadMemory env xml with
  | None => fail ErrXmlParse
  | Some root =>
      let! p := alloc ObjXmlDoc in
      ret {| doc_ptr := p; doc_root := root |}
  end.

Definition xmlFreeDoc (doc : xmlDoc) : M unit := free (doc_ptr doc).

(** Modelled from the spec: [_openslide_tifflike_is_tiled] is not part of
    the file.  Whether a directory of the container description is
    tile-organized. *)
Definition _openslide_tifflike_is_tiled (tl : _openslide_tifflike) (d : tdir_t)
  : bool :=
  match tl !! d with
  | Some td => tld_tiled td
  | None => false
  end.

(** The contents of a tag of a directory of the container description, when
    the tag is there. *)
Definition tifflike_buffer (tl : _openslide_tifflike) (d : tdir_t) (tag : Z)
  : option string :=
  tl !! d ≫= fun td => tld_buffers td !! tag.

(** Modelled from the spec: [_openslide_tifflike_get_buffer] is not part of
    the file.  The contents of a tag of a directory, or a failure when the
    tag is not present or not readable. *)
Definition _openslide_tifflike_get_buffer (tl : _openslide_tifflike)
  (d : tdir_t) (tag : Z) : M string :=
  of_option (tifflike_buffer tl d tag) ErrNoBuffer.

(** Modelled from the spec: [_openslide_duplicate_int_prop] and
    [_openslide_duplicate_double_prop] are not part of the file.  A derived
    property is set from a source property; an absent or unparsable source
    leaves it unset and is not an error. *)
Definition duplicate_prop_map (conv : string -> option string)
  (src dest : string) (props : gmap string string) : gmap string string :=
  match props !! src ≫= conv with
  | Some text => <[dest := text]> props
  | None => props
  end.

Definition duplicate_prop (conv : string -> option string) (src dest : string)
  : M unit :=
  set_osr (with_properties (duplicate_prop_map conv src dest)).

Definition _openslide_duplicate_int_prop := duplicate_prop (int_prop_text env).

Definition _openslide_duplicate_double_prop :=
  duplicate_prop (double_prop_text env).

(** Modelled from the spec: the cache engine is not part of the file.
    [_openslide_cache_get] looks a tile up by (level, column, row) and hands
    out a reference on a hit. *)
Definition _openslide_cache_get (level : loc) (x y : Z) : M (option (list Z)) :=
  let! o := get_osr in
  match osr_cache o !! (level, x, y) with
  | None => ret None
  | Some e =>
      do! set_osr (with_cache (insert (level, x, y)
            {| ce_ptr := ce_ptr e; ce_data := ce_data e; ce_size := ce_size e;
               ce_refs := S (ce_refs e) |})) in
      ret (Some (ce_data e))
  end.

(** Modelled from the spec: [_openslide_cache_put] inserts the buffer under
    the key with its byte size as cost; the caller holds a reference to the
    new entry.  Eviction is the cache engine's own business and is left
    out. *)
Definition _openslide_cache_put (level : loc) (x y : Z) (p : loc)
  (data : list Z) (size : Z) : M unit :=
  set_osr (with_cache (insert (level, x, y)
    {| ce_ptr := p; ce_data := data; ce_size := size; ce_refs := 1 |})).

(** Modelled from the spec: [_openslide_cache_entry_unref] releases the
    caller's reference; it decrements a count and frees nothing while the
    cache still owns the entry. *)
Definition _openslide_cache_entry_unref (level : loc) (x y : Z) : M unit :=
  set_osr (with_cache (alter (fun e =>
    {| ce_ptr := ce_ptr e; ce_data := ce_data e; ce_size := ce_size e;
       ce_refs := pred (ce_refs e) |}) (level, x, y))).

(** Modelled from the spec: [_openslide_tiff_read_tile] is not part of the
    file.  It decodes one tile through the decoder handle into the buffer,
    or fails. *)
Definition _openslide_tiff_read_tile (tiffl : _openslide_tiff_level)
  (tile_col tile_row : Z) : M (list Z) :=
  do! set_decoded (fun log => (log ++ [(dir tiffl, tile_col, tile_row)])%list) in
  of_option (tile_pixels env tiffl tile_col tile_row) ErrReadTile.

(** Modelled from the spec: [_openslide_tiff_clip_tile] is not part of the
    file.  It clips an edge tile against the level's image bounds, or
    fails. *)
Definition _openslide_tiff_clip_tile (tiffl : _openslide_tiff_level)
  (tiledata : list Z) (tile_col tile_row : Z) : M (list Z) :=
  of_option (clipped_pixels env tiffl tiledata tile_col tile_row) ErrClipTile.

(** [cairo_set_source_surface] at (0, 0), [cairo_surface_destroy] and
    [cairo_paint]. *)
Definition cairo_paint_surface (s : surface) : M unit :=
  set_cr (fun canvas => (canvas ++ [s])%list).

(** ** [read_tile] *)

Definition read_tile (l : level) (tile_col tile_row : Z) : M unit :=
  let tiffl := tiffl l in
  (* tile size *)
  let tw := tile_w tiffl in
  let th := tile_h tiffl in
  (* cache *)
  let! hit := _openslide_cache_get (level_ptr l) tile_col tile_row in
  let! tiledata :=
    match hit with
    | Some tiledata => ret tiledata
    | None =>
        let! buf := g_slice_alloc (tw * th * 4) in
        let! pixels :=
          on_failure (_openslide_tiff_read_tile tiffl tile_col tile_row)
                     (g_slice_free1 (tw * th * 4) buf) in
        (* clip, if necessary *)
        let! clipped :=
          on_failure (_openslide_tiff_clip_tile tiffl pixels tile_col tile_row)
                     (g_slice_free1 (tw * th * 4) buf) in
        (* put it in the cache *)
        do! _openslide_cache_put (level_ptr l) tile_col tile_row buf clipped
              (tw * th * 4) in
        ret clipped
    end in
  (* draw it *)
  do! cairo_paint_surface
        (cairo_image_surface_create_for_data tiledata tw th (tw * 4)) in
  (* done with the cache entry, release it *)
  _openslide_cache_entry_unref (level_ptr l) tile_col tile_row.

(** ** [get_initial_root_xml], [parse_initial_xml], [optra_detect] *)

Definition get_initial_root_xml (doc : xmlDoc) : M xmlNode :=
  let root := xmlDocGetRootElement doc in
  if String.eqb (node_name root) XML_ROOT_TAG then ret root
  else fail ErrUnrecognizedRoot.

(** One round of the attribute loop of [parse_initial_xml]. *)
Definition copy_attribute (scaninfo : xmlNode) (props : gmap string string)
  (attr : xmlAttr) : gmap string string :=
  match xmlGetNoNsProp scaninfo (attr_name attr) with
  | Some value =>
      if negb (String.eqb value EmptyString) then
        <["optra." +:+ attr_name attr := value]> props
      else props
  | None => props
  end.

Definition parse_initial_xml (xml : string) : M unit :=
  (* parse *)
  let! doc := _openslide_xml_parse xml in
  (* get scaninfo element *)
  let! scaninfo := on_failure (get_initial_root_xml doc) (xmlFreeDoc doc) in
  (* copy all scaninfo attributes to vendor properties *)
  do! set_osr (with_properties (fun props =>
        foldl (copy_attribute scaninfo) props (node_properties scaninfo))) in
  (* set standard properties *)
  do! _openslide_duplicate_int_prop "optra.Magnification"
        OPENSLIDE_PROPERTY_NAME_OBJECTIVE_POWER in
  do! _openslide_duplicate_double_prop "optra.PixelResolution"
        OPENSLIDE_PROPERTY_NAME_MPP_X in
  do! _openslide_duplicate_double_prop "optra.PixelResolution"
        OPENSLIDE_PROPERTY_NAME_MPP_Y in
  (* clean up *)
  xmlFreeDoc doc.

(** The properties after the attribute loop and the three derived
    properties. *)
Definition scaninfo_properties (scaninfo : xmlNode)
  (props : gmap string string) : gmap string string :=
  duplicate_prop_map (double_prop_text env) "optra.PixelResolution"
    OPENSLIDE_PROPERTY_NAME_MPP_Y
    (duplicate_prop_map (double_prop_text env) "optra.PixelResolution"
       OPENSLIDE_PROPERTY_NAME_MPP_X
       (duplicate_prop_map (int_prop_text env) "optra.Magnification"
          OPENSLIDE_PROPERTY_NAME_OBJECTIVE_POWER
          (foldl (copy_attribute scaninfo) props (node_properties scaninfo)))).

Definition optra_detect (filename : string) (tl : option _openslide_tifflike)
  : M unit :=
  (* ensure we have a TIFF *)
  match tl with
  | None => fail ErrNotATiff
  | Some tl =>
      (* ensure TIFF is tiled *)
      if negb (_openslide_tifflike_is_tiled tl 0%nat) then fail ErrNotTiled else
      (* check xml packet *)
      let! xml := _openslide_tifflike_get_buffer tl 0%nat TIFFTAG_XMLPACKET in
      (* check for plausible XML string before parsing *)
      if negb (strstr xml XML_ROOT_TAG) then fail ErrNotInXMLPacket else
      (* parse *)
      let! doc := _openslide_xml_parse xml in
      (* check for ScanInfo element in the xml after parse *)
      do! on_failure (get_initial_root_xml doc) (xmlFreeDoc doc) in
      xmlFreeDoc doc
  end.

(** ** [width_compare] *)

Definition width_compare (la lb : level) : Z :=
  if image_w (tiffl la) >? image_w (tiffl lb) then -1
  else if image_w (tiffl la) =? image_w (tiffl lb) then 0
  else 1.

(** ** GLib pointer arrays, kept in the heap *)

Definition g_ptr_array_new : M loc := alloc (ObjPtrArray []).

Definition g_ptr_array_pdata (array : loc) : M (list level) :=
  let! hp := get_heap in
  match hp !! array with
  | Some (ObjPtrArray pdata) => ret pdata
  | _ => undefined
  end.

(** [g_ptr_array_add]: GLib aborts when the [guint] length would overflow. *)
Definition g_ptr_array_add (array : loc) (l : level) : M unit :=
  let! pdata := g_ptr_array_pdata array in
  if Z.of_nat (length pdata) <? 2 ^ 32 - 1 then
    set_heap (insert array (ObjPtrArray (pdata ++ [l])%list))
  else undefined.

Definition g_ptr_array_sort (array : loc) (cmp : level -> level -> Z) : M unit :=
  let! pdata := g_ptr_array_pdata array in
  set_heap (insert array (ObjPtrArray (stable_sort cmp pdata))).

(** [g_ptr_array_free]: with [free_segment] the array is gone; without it
    the element storage stays allocated and is handed to the caller, so the
    heap object lives on as that storage. *)
Definition g_ptr_array_free (array : loc) (free_segment : bool)
  : M (list level) :=
  let! pdata := g_ptr_array_pdata array in
  if free_segment then
    do! free array in
    ret []
  else ret pdata.

(** ** OpenSlide core functions used by [optra_open] *)

(** Modelled from the spec: the decoder handle pool ([_openslide_tiffcache])
    is not part of the file.  A pool is created for a file name; a handle is
    checked out of it (opening the file, which can fail) and put back; the
    pool is destroyed as a whole. *)
Definition _openslide_tiffcache_create (filename : string) : M loc :=
  alloc (ObjTiffcache filename 0 0).

Definition _openslide_tiffcache_get (tc : loc) : M (option TIFF) :=
  let! hp := get_heap in
  match hp !! tc with
  | Some (ObjTiffcache filename checked_out pooled) =>
      match TIFFOpen env filename with
      | None => ret None
      | Some tiff =>
          do! set_heap (insert tc
                (ObjTiffcache filename (S checked_out) (pred pooled))) in
          ret (Some tiff)
      end
  | _ => undefined
  end.

Definition _openslide_cached_tiff_put (tc : loc) (cached_tiff : option TIFF)
  : M unit :=
  match cached_tiff with
  | None => ret tt
  | Some _ =>
      let! hp := get_heap in
      match hp !! tc with
      | Some (ObjTiffcache filename checked_out pooled) =>
          set_heap (insert tc
            (ObjTiffcache filename (pred checked_out) (S pooled)))
      | _ => undefined
      end
  end.

Definition _openslide_tiffcache_destroy (tc : loc) : M unit := free tc.

(** Modelled from the spec: [_openslide_tiff_set_dir] is not part of the
    file.  It makes a directory the current one and fails when libtiff
    cannot select it; it yields the new current directory. *)
Definition _openslide_tiff_set_dir (tiff : TIFF) (current d : tdir_t)
  : M tdir_t :=
  if (d =? current)%nat then ret current
  else if TIFFSetDirectory env tiff d then ret d
  else fail ErrSetDir.

(** Modelled from the spec: [_openslide_tiff_level_init] is not part of the
    file.  It reads a directory's geometry into the level (image size, tile
    size, tile counts, source directory index), or fails. *)
Definition _openslide_tiff_level_init (d : tdir_t) (contents : directory)
  : M (_openslide_level * _openslide_tiff_level) :=
  match level_geometry env d contents with
  | None => fail ErrLevelInit
  | Some g =>
      ret ({| w := g_image_w g; h := g_image_h g;
              base_tile_w := g_tile_w g; base_tile_h := g_tile_h g |},
           {| dir := d; image_w := g_image_w g; image_h := g_image_h g;
              tile_w := g_tile_w g; tile_h := g_tile_h g;
              tiles_across := g_tiles_across g;
              tiles_down := g_tiles_down g |})
  end.

(** Modelled from the spec: the tile grid engine is not part of the file.
    A grid is a stateless addressing structure, created per level and
    destroyed with it. *)
Definition _openslide_grid_create_simple (across down tw th : Z) : M loc :=
  alloc (ObjGrid across down tw th).

Definition _openslide_grid_destroy (g : loc) : M unit := free g.

(** Modelled from the spec: [_openslide_tiff_add_associated_image] is not
    part of the file.  It registers a directory under a name in the
    associated-image mapping of the slide handle, or fails. *)
Definition _openslide_tiff_add_associated_image (name : string) (d : tdir_t)
  : M unit :=
  if associated_image_readable env d then
    set_osr (with_associated_images (insert name {| ai_dir := d |}))
  else fail ErrAssociatedImage.

(** Modelled from the spec: [_openslide_tifflike_init_properties_and_hash]
    is not part of the file.  It feeds one level's directory to the content
    fingerprint, which can fail, and then finalizes the standard properties
    from the property directory. *)
Definition _openslide_tifflike_init_properties_and_hash
  (tl : _openslide_tifflike) (lowest_resolution_level property_dir : tdir_t)
  : M unit :=
  if level_hashable env tl lowest_resolution_level then
    do! set_quickhash1 (fun q =>
          (q ++ [(lowest_resolution_level, property_dir)])%list) in
    set_osr (with_properties (tifflike_properties env tl property_dir))
  else fail ErrPropertiesAndHash.

(** ** [optra_open] *)

(** The first half of the loop body: decide what the current directory is.
    [None] stands for [continue]; otherwise the thumbnail candidate to go on
    with. *)
Definition classify_directory (current : tdir_t) (contents : directory)
  (tn_dir : tdir_t) : M (option tdir_t) :=
  (* confirm that this directory is tiled *)
  if negb (dir_tiled contents) then ret None else
  (* confirm subfiletype is available *)
  if negb (current =? 0)%nat then
    match dir_subfiletype contents with
    | None => ret None
    | Some subfiletype =>
        (* if not reducedimage, it is meta-data *)
        if Z.land subfiletype FILETYPE_REDUCEDIMAGE =? 0 then
          (* read image description and add as associated image *)
          let! image_desc :=
            of_option (dir_image_desc contents) ErrImageDescription in
          do! _openslide_tiff_add_associated_image image_desc current in
          ret None
        else
          let! imwidth := of_option (dir_imwidth contents) ErrImageWidth in
          let! imheight := of_option (dir_imheight contents) ErrImageHeight in
          if (imwidth >? MIN_THUMBNAIL_DIM) && (imheight >? MIN_THUMBNAIL_DIM)
          then ret (Some current)  (* this will be over-written until last level *)
          else ret (Some tn_dir)
    end
  else ret (Some tn_dir).

(** The second half of the loop body: check the compression and append a
    level. *)
Definition add_level (level_array : loc) (current : tdir_t)
  (contents : directory) : M unit :=
  (* verify that we can read this compression (hard fail if not) *)
  let! compression :=
    of_option (dir_compression contents) ErrCompressionUnreadable in
  if negb (TIFFIsCODECConfigured env compression) then
    fail (ErrUnsupportedCompression compression)
  else
  (* create level *)
  let! l := alloc ObjLevel in
  let! (lbase, ltiffl) :=
    on_failure (_openslide_tiff_level_init current contents) (free l) in
  let! lgrid := _openslide_grid_create_simple (tiles_across ltiffl)
                  (tiles_down ltiffl) (tile_w ltiffl) (tile_h ltiffl) in
  (* add to array *)
  g_ptr_array_add level_array
    {| level_ptr := l; base := lbase; tiffl := ltiffl; grid := lgrid |}.

Definition walk_directory (level_array : loc) (current : tdir_t)
  (contents : directory) (tn_dir : tdir_t) : M tdir_t :=
  let! class := classify_directory current contents tn_dir in
  match class with
  | None => ret tn_dir
  | Some tn_dir' =>
      do! add_level level_array current contents in
      ret tn_dir'
  end.

(** The [do ... while (TIFFReadDirectory(tiff))] loop, started on directory
    [current] with contents [contents] and [rest] still to be read.  It
    yields the thumbnail candidate and the directory the handle stands on. *)
Fixpoint walk (level_array : loc) (current : tdir_t) (contents : directory)
  (rest : list directory) (tn_dir : tdir_t) : M (tdir_t * tdir_t) :=
  let! tn_dir' := walk_directory level_array current contents tn_dir in
  match rest with
  | [] => ret (tn_dir', current)
  | next :: rest' => walk level_array (S current) next rest' tn_dir'
  end.

(** The loop under the [FAIL] label. *)
Fixpoint free_levels (pdata : list level) : M unit :=
  match pdata with
  | [] => ret tt
  | l :: rest =>
      do! _openslide_grid_destroy (grid l) in
      do! free (level_ptr l) in
      free_levels rest
  end.

(** The code under the [FAIL] label.  Every [goto FAIL] comes before
    [level_array] is set to NULL, so the array is there. *)
Definition FAIL (level_array : loc) (cached_tiff : option TIFF) (tc : loc)
  : M unit :=
  (* free the level array *)
  let! pdata := g_ptr_array_pdata level_array in
  do! free_levels pdata in
  do! g_ptr_array_free level_array true in
  (* free TIFF *)
  do! _openslide_cached_tiff_put tc cached_tiff in
  _openslide_tiffcache_destroy tc.

(** [g_assert]: the program aborts when the condition is false. *)
Definition g_assert (b : bool) : M unit := if b then ret tt else undefined.

Definition install (levels : list level) (level_count : Z)
  (data : optra_ops_data) (o : openslide_t) : openslide_t :=
  {| osr_levels := Some levels; osr_level_count := level_count;
     osr_data := Some data; osr_ops := Some optra_ops;
     osr_properties := osr_properties o;
     osr_associated_images := osr_associated_images o;
     osr_cache := osr_cache o |}.

(** The stretch of [optra_open] that can [goto FAIL]: from the check of the
    TIFF handle to the call that sets hash and properties. *)
Definition build_levels (level_array : loc) (cached_tiff : option TIFF)
  (tl : _openslide_tifflike) : M unit :=
  let! tiff := of_option cached_tiff ErrTiffOpen in
  (* parse initial XML *)
  let! xml := _openslide_tifflike_get_buffer tl 0%nat TIFFTAG_XMLPACKET in
  do! parse_initial_xml xml in
  (* the handle was just opened: TIFFCurrentDirectory is 0 *)
  let tn_dir := 0%nat in
  (* accumulate tiled levels *)
  let! (tn_dir, current) :=
    walk level_array 0%nat (tiff_first tiff) (tiff_next tiff) tn_dir in
  (* add last reduced page as thumbnail image: go to last level page *)
  let! current := _openslide_tiff_set_dir tiff current tn_dir in
  (* add last level page as associated thumbnail image *)
  do! _openslide_tiff_add_associated_image "thumbnail" current in
  (* sort tiled levels *)
  do! g_ptr_array_sort level_array width_compare in
  (* set hash and properties *)
  let! pdata := g_ptr_array_pdata level_array in
  let! top_level :=
    match pdata_index pdata (guint (Z.of_nat (length pdata) - 1)) with
    | Some l => ret l
    | None => undefined
    end in
  _openslide_tifflike_init_properties_and_hash tl (dir (tiffl top_level))
    0%nat.

Definition optra_open (filename : string) (tl : _openslide_tifflike) : M unit :=
  let! level_array := g_ptr_array_new in
  (* open TIFF *)
  let! tc := _openslide_tiffcache_create filename in
  let! cached_tiff := _openslide_tiffcache_get tc in
  do! on_failure (build_levels level_array cached_tiff tl)
                 (FAIL level_array cached_tiff tc) in
  (* unwrap level array *)
  let! pdata := g_ptr_array_pdata level_array in
  let level_count := to_int32 (Z.of_nat (length pdata)) in
  let! levels := g_ptr_array_free level_array false in
  (* allocate private data *)
  let! data := alloc ObjOpsData in
  (* store osr data *)
  let! o := get_osr in
  do! g_assert (bool_decide (osr_data o = None)) in
  do! g_assert (bool_decide (osr_levels o = None)) in
  do! set_osr (install levels level_count {| data_ptr := data; tc := tc |}) in
  (* put TIFF handle and store tiffcache reference *)
  _openslide_cached_tiff_put tc cached_tiff.

End Optra.

(** ** Sample slides

    A small concrete world to run the functions in: which files open, which
    packets parse, which codecs are there. *)

Definition plain_directory (width height : Z) (compression : Z) : directory :=
  {| dir_tiled := true; dir_subfiletype := None; dir_image_desc := None;
     dir_imwidth := Some width; dir_imheight := Some height;
     dir_compression := Some compression |}.

Definition reduced_directory (width height : Z) : directory :=
  {| dir_tiled := true; dir_subfiletype := Some FILETYPE_REDUCEDIMAGE;
     dir_image_desc := None;
     dir_imwidth := Some width; dir_imheight := Some height;
     dir_compression := Some 7 |}.

Definition described_directory (description : string) : directory :=
  {| dir_tiled := true; dir_subfiletype := Some 0;
     dir_image_desc := Some description;
     dir_imwidth := Some 1200; dir_imheight := Some 900;
     dir_compression := Some 7 |}.

Definition stripped_directory : directory :=
  {| dir_tiled := false; dir_subfiletype := None; dir_image_desc := None;
     dir_imwidth := Some 2000; dir_imheight := Some 1000;
     dir_compression := Some 7 |}.

(** Six directories: the base image, reduced images at 1, 2, 4 and 5 (of
    which 2 and 5 are larger than 500 x 500), and a label image at 3. *)
Definition sample_slide : TIFF :=
  {| tiff_first := plain_directory 4000 3000 7;
     tiff_next := [reduced_directory 300 200; reduced_directory 600 600;
                   described_directory "label"; reduced_directory 400 300;
                   reduced_directory 800 800] |}.

(** The base image is compressed with a scheme (code 99) that has no codec;
    a label image comes before a second such directory. *)
Definition sample_unsupported : TIFF :=
  {| tiff_first := plain_directory 4000 3000 99; tiff_next := [] |}.

Definition sample_label_then_unsupported : TIFF :=
  {| tiff_first := plain_directory 4000 3000 7;
     tiff_next := [described_directory "label";
                   {| dir_tiled := true;
                      dir_subfiletype := Some FILETYPE_REDUCEDIMAGE;
                      dir_image_desc := None;
                      dir_imwidth := Some 1000; dir_imheight := Some 750;
                      dir_compression := Some 99 |}] |}.

(** A file whose only directory is organized in strips. *)
Definition sample_stripped : TIFF :=
  {| tiff_first := stripped_directory; tiff_next := [] |}.

Definition sample_packet : string :=
  "<ScanInfo Magnification='40' PixelResolution='0.25' Comment=''/>".

Definition sample_scaninfo : xmlNode :=
  {| node_name := "ScanInfo";
     node_properties :=
       [ {| attr_name := "Magnification"; attr_ns := None; attr_value := "40" |};
         {| attr_name := "PixelResolution"; attr_ns := None;
            attr_value := "0.25" |};
         {| attr_name := "Comment"; attr_ns := None; attr_value := EmptyString |} ] |}.

(** A root element with an attribute in a namespace next to a plain one. *)
Definition sample_ns_packet : string :=
  "<ScanInfo xmlns:v='urn:vendor' v:Serial='A17' Magnification='20'/>".

Definition sample_ns_scaninfo : xmlNode :=
  {| node_name := "ScanInfo";
     node_properties :=
       [ {| attr_name := "Serial"; attr_ns := Some "urn:vendor";
            attr_value := "A17" |};
         {| attr_name := "Magnification"; attr_ns := None;
            attr_value := "20" |} ] |}.

(** A packet whose root is another element although the text mentions the
    tag, and a text that mentions the tag but is not XML. *)
Definition sample_other_root_packet : string := "<Slide note='ScanInfo'/>".

Definition sample_other_root : xmlNode :=
  {| node_name := "Slide";
     node_properties :=
       [ {| attr_name := "note"; attr_ns := None; attr_value := "ScanInfo" |} ] |}.

Definition sample_broken_packet : string := "<ScanInfo Magnification='40'".

Definition sample_geometry (d : tdir_t) (contents : directory)
  : option geometry :=
  match dir_imwidth contents, dir_imheight contents with
  | Some width, Some height =>
      Some {| g_image_w := width; g_image_h := height;
              g_tile_w := 256; g_tile_h := 256;
              g_tiles_across := (width + 255) / 256;
              g_tiles_down := (height + 255) / 256 |}
  | _, _ => None
  end.

Definition sample_env : environment :=
  {| TIFFOpen := fun filename =>
       if String.eqb filename "slide.tif" then Some sample_slide
       else if String.eqb filename "unsupported.tif" then Some sample_unsupported
       else if String.eqb filename "label-unsupported.tif"
            then Some sample_label_then_unsupported
       else if String.eqb filename "stripped.tif" then Some sample_stripped
       else None;
     TIFFIsCODECConfigured := fun compression =>
       (compression =? 1) || (compression =? 5) || (compression =? 7);
     TIFFSetDirectory := fun tiff d =>
       bool_decide (d < length (tiff_dirs tiff))%nat;
     xmlReadMemory := fun xml =>
       if String.eqb xml sample_packet then Some sample_scaninfo
       else if String.eqb xml sample_ns_packet then Some sample_ns_scaninfo
       else if String.eqb xml sample_other_root_packet then Some sample_other_root
       else None;
     int_prop_text := fun text =>
       if String.eqb text "40" then Some "40"
       else if String.eqb text "20" then Some "20" else None;
     double_prop_text := fun text =>
       if String.eqb text "0.25" then Some "0.25" else None;
     level_geometry := sample_geometry;
     associated_image_readable := fun _ => true;
     level_hashable := fun _ _ => true;
     tifflike_properties := fun _ _ props => props;
     (* tiles of column 9 do not decode, tiles of row 9 do not clip *)
     tile_pixels := fun tiffl col row =>
       if (col =? 9) then None else Some [Z.of_nat (dir tiffl); col; row; 255];
     clipped_pixels := fun tiffl pixels col row =>
       if (row =? 9) then None else Some pixels |}.

Definition sample_level : level :=
  {| level_ptr := 3%positive;
     base := {| w := 4000; h := 3000; base_tile_w := 256; base_tile_h := 256 |};
     tiffl := {| dir := 0%nat; image_w := 4000; image_h := 3000;
                 tile_w := 256; tile_h := 256;
                 tiles_across := 16; tiles_down := 12 |};
     grid := 4%positive |}.

Definition sample_tifflike (packet : string) : _openslide_tifflike :=
  [ {| tld_tiled := true; tld_buffers := {[ TIFFTAG_XMLPACKET := packet ]} |} ].

Definition fresh_osr : openslide_t :=
  {| osr_levels := None; osr_level_count := 0; osr_data := None;
     osr_ops := None; osr_properties := ∅; osr_associated_images := ∅;
     osr_cache := ∅ |}.

Definition fresh_state : state :=
  {| osr := fresh_osr; heap := ∅; quickhash1 := []; cr := []; decoded := [] |}.

(** ** Vocabulary of the statements *)

(** [wider a b]: level [a] may stand before level [b] in the sorted array. *)
Definition wider (a b : level) : Prop := image_w (tiffl b) ≤ image_w (tiffl a).

(** The condition under which the loop body assigns [tn_dir] on directory
    [current]: tiled, not the first, flagged as reduced image, and more than
    [MIN_THUMBNAIL_DIM] in both dimensions. *)
Definition records_thumbnail (current : tdir_t) (contents : directory) : bool :=
  dir_tiled contents && negb (current =? 0)%nat &&
  match dir_subfiletype contents, dir_imwidth contents, dir_imheight contents with
  | Some subfiletype, Some imwidth, Some imheight =>
      negb (Z.land subfiletype FILETYPE_REDUCEDIMAGE =? 0) &&
      (imwidth >? MIN_THUMBNAIL_DIM) && (imheight >? MIN_THUMBNAIL_DIM)
  | _, _, _ => false
  end.

(** The value of [tn_dir] after the loop has gone over the directories
    [dirs], the first of which has index [current]. *)
Fixpoint last_candidate (current : tdir_t) (dirs : list directory)
  (tn_dir : tdir_t) : tdir_t :=
  match dirs with
  | [] => tn_dir
  | contents :: rest =>
      last_candidate (S current) rest
        (if records_thumbnail current contents then current else tn_dir)
  end.

(** A directory the loop body passes over without a failure and without a
    level: not tiled, or (past the first) without a subfile type, or an
    associated image that registers. *)
Definition skipped (env : environment) (current : tdir_t)
  (contents : directory) : bool :=
  negb (dir_tiled contents) ||
  (negb (current =? 0)%nat &&
   match dir_subfiletype contents with
   | None => true
   | Some subfiletype =>
       (Z.land subfiletype FILETYPE_REDUCEDIMAGE =? 0) &&
       bool_decide (is_Some (dir_image_desc contents)) &&
       associated_image_readable env current
   end).

Fixpoint all_skipped (env : environment) (current : tdir_t)
  (dirs : list directory) : bool :=
  match dirs with
  | [] => true
  | contents :: rest =>
      skipped env current contents && all_skipped env (S current) rest
  end.

(** The addresses owned through a level array, in the order [FAIL] frees
    them. *)
Definition level_locs (pdata : list level) : list loc :=
  flat_map (fun l => [grid l; level_ptr l]) pdata.

Definition free_all (ps : list loc) (hp : gmap loc obj) : gmap loc obj :=
  foldl (fun hp' p => delete p hp') hp ps.

(** The heap during the directory walk: the array at [array] holds [pdata],
    whose levels and grids are live, pairwise distinct and new with respect
    to the heap [base] the walk started from; everything else is as in
    [base]. *)
Record walk_inv (base : gmap loc obj) (array : loc) (pdata : list level)
  (hp : gmap loc obj) : Prop := {
  inv_array : hp !! array = Some (ObjPtrArray pdata);
  inv_base_array : is_Some (base !! array);
  inv_nodup : NoDup (level_locs pdata);
  inv_live : ∀ p, p ∈ level_locs pdata → is_Some (hp !! p);
  inv_new : ∀ p, p ∈ level_locs pdata → base !! p = None;
  inv_frame : ∀ p, p ∉ level_locs pdata → p ≠ array → hp !! p = base !! p;
  inv_len : Z.of_nat (length pdata) < 2 ^ 32;
}.

(** What a failed or unfinished build leaves alone on the slide handle, and
    in the rest of the state. *)
Definition same_handle (o o' : openslide_t) : Prop :=
  osr_levels o' = osr_levels o ∧ osr_level_count o' = osr_level_count o ∧
  osr_data o' = osr_data o ∧ osr_ops o' = osr_ops o ∧
  osr_cache o' = osr_cache o.

Definition kept (st st' : state) : Prop :=
  same_handle (osr st) (osr st') ∧ quickhash1 st' = quickhash1 st ∧
  cr st' = cr st ∧ decoded st' = decoded st.

(** ** The rest of the backend: [destroy] and [paint_region] *)

(** *** [destroy] *)

(** The loop of [destroy] over [osr->levels[0 .. level_count - 1]]; reading
    past the end of the level storage is undefined. *)
Fixpoint destroy_levels (level_count : nat) (levels : list level) : M unit :=
  match level_count with
  | O => ret tt
  | S n =>
      match levels with
      | [] => undefined
      | l :: rest =>
          do! _openslide_grid_destroy (grid l) in
          do! free (level_ptr l) in
          destroy_levels n rest
      end
  end.

(** [destroy].  The slide handle of the model keeps the level storage by its
    contents; [levels_ptr] is the address [osr->levels] holds, which
    [g_free] releases ([g_free] of NULL does nothing).  A handle without
    private data is a NULL dereference. *)
Definition destroy (levels_ptr : loc) : M unit :=
  let! o := get_osr in
  match osr_data o with
  | None => undefined
  | Some data =>
      do! _openslide_tiffcache_destroy (tc data) in
      do! free (data_ptr data) in
      do! destroy_levels (Z.to_nat (osr_level_count o))
            (default [] (osr_levels o)) in
      match osr_levels o with
      | Some _ => free levels_ptr
      | None => ret tt
      end
  end.

(** *** [paint_region] *)

(** The conversion of an [int64_t] to [double]. *)
Definition int64_to_double (x : Z) : float :=
  if x =? - 2 ^ 63 then (- (of_uint63 (Uint63.of_Z (2 ^ 62)) * 2))%float
  else if x <? 0 then (- of_uint63 (Uint63.of_Z (- x)))%float
  else of_uint63 (Uint63.of_Z x).

Section Paint.

Context (env : environment).

(** The tiles the grid engine visits for a region: a function of the grid's
    geometry, the origin in level coordinates and the size of the region. *)
Context (visible_tiles :
  Z → Z → Z → Z → float → float → Z → Z → list (Z * Z)).

(** The per-tile callback over the tiles of a region, in the engine's
    order; the first failure ends the paint. *)
Fixpoint paint_tiles (l : level) (tiles : list (Z * Z)) : M unit :=
  match tiles with
  | [] => ret tt
  | (tile_col, tile_row) :: rest =>
      do! read_tile env l tile_col tile_row in
      paint_tiles l rest
  end.

(** Modelled from the spec: [_openslide_grid_paint_region] is not part of
    the file.  The grid enumerates the tiles of the requested rectangle and
    calls the level's tile reader for each; a single tile failure fails the
    whole paint. *)
Definition _openslide_grid_paint_region (g : loc) (x y : float) (l : level)
  (w h : Z) : M unit :=
  let! hp := get_heap in
  match hp !! g with
  | Some (ObjGrid across down tw th) =>
      paint_tiles l (visible_tiles across down tw th x y w h)
  | _ => undefined
  end.

(** Run [m], then [after] whatever [m] returned, and return what [m]
    returned. *)
Definition and_then_always {A} (m : M A) (after : M unit) : M A :=
  fun st =>
    match m st with
    | (Undefined, st') => (Undefined, st')
    | (r, st') =>
        match after st' with
        | (Ok _, st'') => (r, st'')
        | (Fail e, st'') => (Fail e, st'')
        | (Undefined, st'') => (Undefined, st'')
        end
    end.

(** [paint_region].  [downsample] is [l->base.downsample], which the core
    fills in after the open and the level of the model does not carry. *)
Definition paint_region (downsample : float) (x y : Z) (l : level) (w h : Z)
  : M unit :=
  let! o := get_osr in
  match osr_data o with
  | None => undefined
  | Some data =>
      let! tiff := _openslide_tiffcache_get env (tc data) in
      match tiff with
      | None => fail ErrTiffOpen
      | Some _ =>
          and_then_always
            (_openslide_grid_paint_region (grid l)
               (int64_to_double x / downsample)
               (int64_to_double y / downsample) l w h)
            (_openslide_cached_tiff_put (tc data) tiff)
      end
  end.

End Paint.

(** ** [make-tables.c]: the generator of the YCbCr conversion tables

    The program prints three C tables.  Each entry is computed in [double]
    arithmetic, rounded by [round] and converted to [int]; the model uses
    binary64 floats with the operations evaluated as written.  The decimal
    literals stand for the nearest double, as in C. *)

Set Warnings "-inexact-float".

Module make_tables.

(** What a run of the program leaves behind: the exit status, what went to
    [stderr], and the file written, if one was created. *)
Record outcome := {
  status : Z;
  stderr : string;
  written : option (string * string);
}.

Definition newline : string := String (Ascii.ascii_of_nat 10) EmptyString.
Definition dquote : string := String (Ascii.ascii_of_nat 34) EmptyString.

(** The conversion of an [int] to [double]; exact on the [int] range. *)
Definition int_to_double (z : Z) : float :=
  if z <? 0 then (- of_uint63 (Uint63.of_Z (- z)))%float
  else of_uint63 (Uint63.of_Z z).

(** C's [round]: to the nearest integer, halfway cases away from zero. *)
Definition round (x : float) : float :=
  match Prim2SF x with
  | S754_finite s m e =>
      if 0 <=? e then x
      else
        let magnitude := (2 * Z.pos m + 2 ^ (- e)) / 2 ^ (- e + 1) in
        let r := of_uint63 (Uint63.of_Z magnitude) in
        if s then (- r)%float else r
  | _ => x
  end.

(** The conversion [(int) x]: truncation; undefined when the value does not
    fit an [int]. *)
Definition double_to_int (x : float) : option Z :=
  match Prim2SF x with
  | S754_zero _ => Some 0
  | S754_finite s m e =>
      let magnitude := if 0 <=? e then Z.pos m * 2 ^ e
                       else Z.pos m / 2 ^ (- e) in
      let v := if s then - magnitude else magnitude in
      if (- 2 ^ 31 <=? v) && (v <? 2 ^ 31) then Some v else None
  | _ => None
  end.

(** [printf]'s [%5d]: decimal, right-justified in a field of five. *)
Definition printf_5d (v : Z) : string :=
  let digits := NilZero.string_of_int (Z.to_int v) in
  String.concat EmptyString
    (replicate (5 - String.length digits) " ") +:+ digits.

(** [for (int i = 0; i < n; i++)] over a body that prints. *)
Fixpoint for_loop (n : nat) (i : Z) (body : Z → option string)
  : option string :=
  match n with
  | O => Some EmptyString
  | S n' =>
      text ← body i;
      rest ← for_loop n' (i + 1) body;
      Some (text +:+ rest)
  end.

Definition R_Cr (i : Z) : option Z :=
  double_to_int (round (1.402 * int_to_double (i - 128))%float).

Definition G_CbCr (i j : Z) : option Z :=
  double_to_int
    (round (-0.34414 * int_to_double (i - 128)
            - 0.71414 * int_to_double (j - 128))%float).

Definition B_Cb (i : Z) : option Z :=
  double_to_int (round (1.772 * int_to_double (i - 128))%float).

Definition make_ycbcr_tables : option string :=
  (* R *)
  r ← for_loop 256 0 (fun i =>
         v ← R_Cr i;
         Some ((if i mod 10 =? 0 then newline +:+ " " else EmptyString)
               +:+ printf_5d v +:+ ","));
  (* G *)
  g ← for_loop 256 0 (fun i =>
         row ← for_loop 256 0 (fun j =>
                  v ← G_CbCr i j;
                  Some ((if j mod 10 =? 0 then newline +:+ "   "
                         else EmptyString)
                        +:+ printf_5d v +:+ ","));
         Some (newline +:+ "  {" +:+ row +:+ newline +:+ "  },"));
  (* B *)
  b ← for_loop 256 0 (fun i =>
         v ← B_Cb i;
         Some ((if i mod 10 =? 0 then newline +:+ " " else EmptyString)
               +:+ printf_5d v +:+ ","));
  Some ("const int16_t _openslide_R_Cr[256] = {" +:+ r
        +:+ newline +:+ "};" +:+ newline +:+ newline
        +:+ "const int16_t _openslide_G_CbCr[256][256] = {" +:+ g
        +:+ newline +:+ "};" +:+ newline +:+ newline
        +:+ "const int16_t _openslide_B_Cb[256] = {" +:+ b
        +:+ newline +:+ "};" +:+ newline +:+ newline).

(** [fail]: the formatted message and a newline go to [stderr], and the
    program exits with status 1.  [message] is the message as formatted. *)
Definition fail (message : string) : outcome :=
  {| status := 1; stderr := message +:+ newline; written := None |}.

(** What [main] prints before the tables. *)
Definition header : string :=
  "// Generated by make-tables.c" +:+ newline +:+ newline
  +:+ "#include <stdint.h>" +:+ newline
  +:+ "#include " +:+ dquote +:+ "openslide-private.h" +:+ dquote
  +:+ newline +:+ newline.

(** [main].  [fopen_w path] tells whether [fopen(path, "w")] succeeds.  With
    an empty argument vector [argv[0]] is a null pointer given to [%s]. *)
Definition main (fopen_w : string → bool) (argv : list string)
  : option outcome :=
  match argv with
  | [] => None
  | [program; outfile] =>
      (* open file *)
      if negb (fopen_w outfile) then
        Some (fail ("Couldn't create " +:+ outfile))
      else
        (* write tables for YCbCr -> RGB conversion *)
        tables ← make_ycbcr_tables;
        Some {| status := 0; stderr := EmptyString;
                written := Some (outfile, header +:+ tables) |}
  | program :: _ => Some (fail ("Usage: " +:+ program +:+ " <outfile>"))
  end.

End make_tables.

(** ** More samples *)

(** A grid engine for the samples: a region of no extent shows no tile, a
    wide region shows a tile that does not decode. *)
Definition sample_visible_tiles (across down tw th : Z) (x y : float)
  (w h : Z) : list (Z * Z) :=
  if (w <=? 0) || (h <=? 0) then []
  else if w <=? 2 * tw then [(0, 0); (1, 0)]
  else [(0, 0); (1, 0); (9, 0)].

(** An environment in which one more file opens. *)
Definition with_file (env : environment) (name : string) (tiff : TIFF)
  : environment :=
  {| TIFFOpen := fun filename =>
       if String.eqb filename name then Some tiff else TIFFOpen env filename;
     TIFFIsCODECConfigured := TIFFIsCODECConfigured env;
     TIFFSetDirectory := TIFFSetDirectory env;
     xmlReadMemory := xmlReadMemory env;
     int_prop_text := int_prop_text env;
     double_prop_text := double_prop_text env;
     level_geometry := level_geometry env;
     associated_image_readable := associated_image_readable env;
     level_hashable := level_hashable env;
     tifflike_properties := tifflike_properties env;
     tile_pixels := tile_pixels env;
     clipped_pixels := clipped_pixels env |}.

(** A slide with the unsupported code 99 in two directories the walk passes
    over: one organized in strips, one tiled but without a subfile type. *)
Definition sample_passed_over : TIFF :=
  {| tiff_first := plain_directory 4000 3000 7;
     tiff_next := [{| dir_tiled := false; dir_subfiletype := None;
                      dir_image_desc := None;
                      dir_imwidth := Some 2000; dir_imheight := Some 1000;
                      dir_compression := Some 99 |};
                   plain_directory 1000 750 99;
                   reduced_directory 600 600] |}.

(** ** More vocabulary *)

(** The error [optra_open] stops with before the directory walk begins, if
    any: the file does not open, the first directory has no XML packet, the
    packet does not parse, or its root is not the expected element. *)
Definition early_error (env : environment) (filename : string)
  (tl : _openslide_tifflike) : option gerror :=
  match TIFFOpen env filename with
  | None => Some ErrTiffOpen
  | Some _ =>
      match tifflike_buffer tl 0%nat TIFFTAG_XMLPACKET with
      | None => Some ErrNoBuffer
      | Some xml =>
          match xmlReadMemory env xml with
          | None => Some ErrXmlParse
          | Some root =>
              if String.eqb (node_name root) XML_ROOT_TAG then None
              else Some ErrUnrecognizedRoot
          end
      end
  end.

(** Whether the loop body makes a level of a directory (provided it gets
    through it): the directory is tiled and is the first one or flagged as a
    reduced image. *)
Definition is_level_directory (current : tdir_t) (contents : directory) : bool :=
  dir_tiled contents &&
  ((current =? 0)%nat ||
   match dir_subfiletype contents with
   | Some subfiletype => negb (Z.land subfiletype FILETYPE_REDUCEDIMAGE =? 0)
   | None => false
   end).

(** The [_openslide_tiff_level] that [_openslide_tiff_level_init] fills in
    for directory [d] with geometry [g]. *)
Definition tiff_level_of (d : tdir_t) (g : geometry) : _openslide_tiff_level :=
  {| dir := d; image_w := g_image_w g; image_h := g_image_h g;
     tile_w := g_tile_w g; tile_h := g_tile_h g;
     tiles_across := g_tiles_across g; tiles_down := g_tiles_down g |}.

(** The level directories among [dirs], with their indices, in file order;
    [current] is the index of the first of [dirs]. *)
Fixpoint level_directories (current : tdir_t) (dirs : list directory)
  : list (tdir_t * directory) :=
  match dirs with
  | [] => []
  | contents :: rest =>
      (if is_level_directory current contents then [(current, contents)]
       else []) ++ level_directories (S current) rest
  end.

(** Level [l] was made of directory [d]: it has the geometry read from the
    directory, whose compression the decoder is configured for. *)
Definition level_of_directory (env : environment) (l : level)
  (d : tdir_t * directory) : Prop :=
  ∃ g compression,
    level_geometry env d.1 d.2 = Some g ∧
    tiffl l = tiff_level_of d.1 g ∧
    dir_compression d.2 = Some compression ∧
    TIFFIsCODECConfigured env compression = true.

(** The error the second half of the loop body stops with on a directory,
    if any: the compression cannot be read or is not configured, or the
    geometry cannot be read. *)
Definition level_error (env : environment) (current : tdir_t)
  (contents : directory) : option gerror :=
  match dir_compression contents with
  | None => Some ErrCompressionUnreadable
  | Some compression =>
      if negb (TIFFIsCODECConfigured env compression) then
        Some (ErrUnsupportedCompression compression)
      else
        match level_geometry env current contents with
        | None => Some ErrLevelInit
        | Some _ => None
        end
  end.

(** The error the loop body stops with on a directory, if any. *)
Definition directory_error (env : environment) (current : tdir_t)
  (contents : directory) : option gerror :=
  if negb (dir_tiled contents) then None else
  if negb (current =? 0)%nat then
    match dir_subfiletype contents with
    | None => None
    | Some subfiletype =>
        if Z.land subfiletype FILETYPE_REDUCEDIMAGE =? 0 then
          match dir_image_desc contents with
          | None => Some ErrImageDescription
          | Some _ =>
              if associated_image_readable env current then None
              else Some ErrAssociatedImage
          end
        else
          match dir_imwidth contents with
          | None => Some ErrImageWidth
          | Some _ =>
              match dir_imheight contents with
              | None => Some ErrImageHeight
              | Some _ => level_error env current contents
              end
          end
    end
  else level_error env current contents.

(** The error of the first directory of [dirs] that has one. *)
Fixpoint first_error (env : environment) (current : tdir_t)
  (dirs : list directory) : option gerror :=
  match dirs with
  | [] => None
  | contents :: rest =>
      match directory_error env current contents with
      | Some e => Some e
      | None => first_error env (S current) rest
      end
  end.

(** The directories the walk gets through: those before the first one the
    loop body stops on. *)
Fixpoint passed_directories (env : environment) (current : tdir_t)
  (dirs : list directory) : list directory :=
  match dirs with
  | [] => []
  | contents :: rest =>
      match directory_error env current contents with
      | Some _ => []
      | None => contents :: passed_directories env (S current) rest
      end
  end.

(** The name under which the loop body registers a directory as an
    associated image, if it does: the directory is tiled, not the first,
    has a subfile type without the reduced-image flag, and a description. *)
Definition associated_name (current : tdir_t) (contents : directory)
  : option string :=
  if dir_tiled contents && negb (current =? 0)%nat then
    match dir_subfiletype contents with
    | Some subfiletype =>
        if Z.land subfiletype FILETYPE_REDUCEDIMAGE =? 0
        then dir_image_desc contents else None
    | None => None
    end
  else None.

(** The associated-image table after the walk has gone over [dirs]. *)
Fixpoint registered_images (current : tdir_t) (dirs : list directory)
  (images : gmap string associated_image) : gmap string associated_image :=
  match dirs with
  | [] => images
  | contents :: rest =>
      registered_images (S current) rest
        match associated_name current contents with
        | Some name => <[name := {| ai_dir := current |}]> images
        | None => images
        end
  end.

(** The levels of an array are live: each level and its grid are allocated,
    the grid with the level's tile geometry. *)
Definition levels_live (hp : gmap loc obj) (pdata : list level) : Prop :=
  ∀ l, l ∈ pdata →
    hp !! level_ptr l = Some ObjLevel ∧
    hp !! grid l = Some (ObjGrid (tiles_across (tiffl l)) (tiles_down (tiffl l))
                                 (tile_w (tiffl l)) (tile_h (tiffl l))).

(** The tile [(col, row)] of level [l] is in the cache of [st]. *)
Definition cached (l : level) (st : state) (tile : Z * Z) : Prop :=
  is_Some (osr_cache (osr st) !! (level_ptr l, tile.1, tile.2)).

(** A tile the reader can deliver in a state: it is in the cache, or it
    decodes and clips. *)
Definition readable (env : environment) (l : level) (st : state)
  (tile : Z * Z) : Prop :=
  cached l st tile ∨
  ∃ pixels clipped,
    tile_pixels env (tiffl l) tile.1 tile.2 = Some pixels ∧
    clipped_pixels env (tiffl l) pixels tile.1 tile.2 = Some clipped.

(** The indices of a table: 0 to 255. *)
Definition table_indices : list Z := map Z.of_nat (seq 0 256).

(** * Properties *)

(** ** Running the monad *)

Lemma upd_heap_id (st : state) : upd_heap (fun _ => heap st) st = st.
Proof. by destruct st. Qed.

Lemma fresh_lookup (hp : gmap loc obj) : hp !! fresh (dom hp) = None.
Proof. apply not_elem_of_dom, is_fresh. Qed.

Lemma alloc_run (o : obj) (st : state) :
  alloc o st = (Ok (fresh (dom (heap st))),
                upd_heap (insert (fresh (dom (heap st))) o) st).
Proof. reflexivity. Qed.

Lemma free_run (p : loc) (st : state) :
  free p st = match heap st !! p with
              | Some _ => (Ok tt, upd_heap (delete p) st)
              | None => (Undefined, st)
              end.
Proof. unfold free, bind, get_heap. by destruct (heap st !! p). Qed.

(** Freeing what was just allocated gives the old heap back. *)
Lemma free_after_alloc (o : obj) (st : state) :
  free (fresh (dom (heap st))) (upd_heap (insert (fresh (dom (heap st))) o) st)
  = (Ok tt, st).
Proof.
  rewrite free_run. simpl. rewrite lookup_insert_eq. f_equal.
  destruct st as [o0 hp q c d]. unfold upd_heap. simpl. f_equal.
  apply delete_insert_id, fresh_lookup.
Qed.

Section Detect.

Context (env : environment).

Lemma xml_parse_run (xml : string) (st : state) :
  _openslide_xml_parse env xml st =
  match xmlReadMemory env xml with
  | None => (Fail ErrXmlParse, st)
  | Some root =>
      (Ok {| doc_ptr := fresh (dom (heap st)); doc_root := root |},
       upd_heap (insert (fresh (dom (heap st))) ObjXmlDoc) st)
  end.
Proof. unfold _openslide_xml_parse. by destruct (xmlReadMemory env xml). Qed.

(** What [optra_detect] returns, branch by branch; the state is given back
    as it was. *)
Lemma optra_detect_run (filename : string) (tl : option _openslide_tifflike)
  (st : state) :
  optra_detect env filename tl st =
  (match tl with
   | None => Fail ErrNotATiff
   | Some t =>
       if negb (_openslide_tifflike_is_tiled t 0%nat) then Fail ErrNotTiled else
       match tifflike_buffer t 0%nat TIFFTAG_XMLPACKET with
       | None => Fail ErrNoBuffer
       | Some xml =>
           if negb (strstr xml XML_ROOT_TAG) then Fail ErrNotInXMLPacket else
           match xmlReadMemory env xml with
           | None => Fail ErrXmlParse
           | Some root =>
               if String.eqb (node_name root) XML_ROOT_TAG then Ok tt
               else Fail ErrUnrecognizedRoot
           end
       end
   end, st).
Proof.
  unfold optra_detect. destruct tl as [t|]; [|done].
  destruct (negb (_openslide_tifflike_is_tiled t 0%nat)); [done|].
  unfold bind at 1, _openslide_tifflike_get_buffer, of_option.
  destruct (tifflike_buffer t 0%nat TIFFTAG_XMLPACKET) as [xml|]; [|done].
  simpl. destruct (negb (strstr xml XML_ROOT_TAG)); [done|].
  unfold bind at 1. rewrite xml_parse_run.
  destruct (xmlReadMemory env xml) as [root|]; [|done].
  unfold bind, on_failure, get_initial_root_xml, xmlDocGetRootElement, xmlFreeDoc.
  simpl. destruct (String.eqb (node_name root) XML_ROOT_TAG); simpl;
    by rewrite free_after_alloc.
Qed.

(** A branch of [optra_detect] that fails: the result is a failure, and
    [tac] points at the condition that holds. *)
Ltac fails_by tac :=
  split; [right; by eexists|]; split; [intros _; tac|intros _; by eexists].

(** C5 (amended).  [optra_detect] gives the state back as it was, always
    returns, and fails exactly when one of six conditions holds: there is no
    container description; the first directory is not tile-organized; the
    first directory has no readable XML packet; the packet text does not
    contain the tag [ScanInfo]; the packet text does not parse as XML; the
    parsed root element has another name.  Otherwise it succeeds. *)
Theorem optra_detect_fails_exactly (filename : string)
  (tl : option _openslide_tifflike) (st : state) :
  snd (optra_detect env filename tl st) = st ∧
  (fst (optra_detect env filename tl st) = Ok tt ∨
   ∃ e, fst (optra_detect env filename tl st) = Fail e) ∧
  ((∃ e, fst (optra_detect env filename tl st) = Fail e) ↔
     tl = None
   ∨ (∃ t, tl = Some t ∧ _openslide_tifflike_is_tiled t 0%nat = false)
   ∨ (∃ t, tl = Some t ∧ tifflike_buffer t 0%nat TIFFTAG_XMLPACKET = None)
   ∨ (∃ t xml, tl = Some t ∧
        tifflike_buffer t 0%nat TIFFTAG_XMLPACKET = Some xml ∧
        strstr xml XML_ROOT_TAG = false)
   ∨ (∃ t xml, tl = Some t ∧
        tifflike_buffer t 0%nat TIFFTAG_XMLPACKET = Some xml ∧
        xmlReadMemory env xml = None)
   ∨ (∃ t xml root, tl = Some t ∧
        tifflike_buffer t 0%nat TIFFTAG_XMLPACKET = Some xml ∧
        xmlReadMemory env xml = Some root ∧
        node_name root ≠ XML_ROOT_TAG)).
Proof.
  rewrite optra_detect_run. simpl. split; [done|].
  destruct tl as [t|]; [|fails_by ltac:(by left)].
  destruct (_openslide_tifflike_is_tiled t 0%nat) eqn:Ht; simpl;
    [|fails_by ltac:(right; left; by exists t)].
  destruct (tifflike_buffer t 0%nat TIFFTAG_XMLPACKET) as [xml|] eqn:Hb;
    [|fails_by ltac:(do 2 right; left; by exists t)].
  destruct (strstr xml XML_ROOT_TAG) eqn:Hs; simpl;
    [|fails_by ltac:(do 3 right; left; by exists t, xml)].
  destruct (xmlReadMemory env xml) as [root|] eqn:Hp;
    [|fails_by ltac:(do 4 right; left; by exists t, xml)].
  destruct (String.eqb_spec (node_name root) XML_ROOT_TAG) as [Hn|Hn].
  - split; [by left|]. split; [by intros [e ?]|].
    intros [?|[(?&?&?)|[(?&?&?)|[(?&?&?&?&?)|[(?&?&?&?&?)|(?&?&?&?&?&?&?)]]]]];
      simplify_eq; congruence.
  - split; [right; by eexists|]. split; [|by eexists].
    intros _. do 5 right. by exists t, xml, root.
Qed.

(** C9.  [optra_detect] is deterministic and idempotent: a second call, on
    the state the first call left, gives the same result and state again, and
    from any other state the result - acceptance, or the error of the
    rejection - is the same. *)
Theorem optra_detect_idempotent (filename : string)
  (tl : option _openslide_tifflike) (st st2 : state) :
  optra_detect env filename tl (snd (optra_detect env filename tl st))
    = optra_detect env filename tl st ∧
  fst (optra_detect env filename tl st2) = fst (optra_detect env filename tl st).
Proof. by rewrite !optra_detect_run. Qed.

End Detect.

(** C5 as stated, with its five conditions, does not hold: a packet that
    mentions the tag but is not well-formed XML is rejected, and none of the
    five conditions is the case. *)
Lemma optra_detect_unparsable_packet :
  let tl := Some (sample_tifflike sample_broken_packet) in
  ¬ ((∃ e, fst (optra_detect sample_env "slide.tif" tl fresh_state) = Fail e) ↔
       tl = None
     ∨ (∃ t, tl = Some t ∧ _openslide_tifflike_is_tiled t 0%nat = false)
     ∨ (∃ t, tl = Some t ∧ tifflike_buffer t 0%nat TIFFTAG_XMLPACKET = None)
     ∨ (∃ t xml, tl = Some t ∧
          tifflike_buffer t 0%nat TIFFTAG_XMLPACKET = Some xml ∧
          strstr xml XML_ROOT_TAG = false)
     ∨ (∃ t xml root, tl = Some t ∧
          tifflike_buffer t 0%nat TIFFTAG_XMLPACKET = Some xml ∧
          xmlReadMemory sample_env xml = Some root ∧
          node_name root ≠ XML_ROOT_TAG)).
Proof.
  intros tl [Hfails _].
  destruct Hfails as [Ht|[(t&Ht&Hc)|[(t&Ht&Hc)|[(t&xml&Ht&Hb&Hc)|(t&xml&root&Ht&Hb&Hc&_)]]]].
  - by exists ErrXmlParse.
  - discriminate Ht.
  - injection Ht as <-. discriminate Hc.
  - injection Ht as <-. discriminate Hc.
  - injection Ht as <-. vm_compute in Hb. injection Hb as <-. discriminate Hc.
  - injection Ht as <-. vm_compute in Hb. injection Hb as <-. discriminate Hc.
Qed.

(** ** The attribute loop of [parse_initial_xml] *)

Lemma optra_key_inj (n1 n2 : string) :
  "optra." +:+ n1 = "optra." +:+ n2 → n1 = n2.
Proof. intros Heq. cbn in Heq. by injection Heq. Qed.

(** In a well-formed element no two attributes share namespace and name, so
    a plain attribute is the one [xmlGetNoNsProp] finds under its name. *)
Lemma xmlGetNoNsProp_list_plain (attrs : list xmlAttr) (a : xmlAttr) :
  NoDup (map (fun b => (attr_ns b, attr_name b)) attrs) →
  a ∈ attrs →
  attr_ns a = None →
  xmlGetNoNsProp_list attrs (attr_name a) = Some (attr_value a).
Proof.
  induction attrs as [|b attrs IH]; intros Hnd Hin Hns; [by inversion Hin|].
  apply NoDup_cons in Hnd as [Hb Hnd]. simpl.
  apply elem_of_cons in Hin as [->|Hin].
  - rewrite Hns. by rewrite String.eqb_refl.
  - destruct (attr_ns b) eqn:Hnsb; [by apply IH|].
    destruct (String.eqb_spec (attr_name b) (attr_name a)) as [Heq|_];
      [|by apply IH].
    exfalso. apply Hb. apply list_elem_of_fmap. exists a.
    split; [|done]. by rewrite Hns, Heq.
Qed.

Lemma copy_attribute_lookup (scaninfo : xmlNode) (props : gmap string string)
  (attr : xmlAttr) (n : string) :
  copy_attribute scaninfo props attr !! ("optra." +:+ n) =
  if decide (attr_name attr = n) then
    match xmlGetNoNsProp scaninfo n with
    | Some value =>
        if String.eqb value EmptyString then props !! ("optra." +:+ n) else Some value
    | None => props !! ("optra." +:+ n)
    end
  else props !! ("optra." +:+ n).
Proof.
  unfold copy_attribute. destruct (decide (attr_name attr = n)) as [->|Hne].
  - destruct (xmlGetNoNsProp scaninfo n) as [value|]; [|done].
    destruct (String.eqb value EmptyString); simpl; [done|]. apply lookup_insert_eq.
  - destruct (xmlGetNoNsProp scaninfo (attr_name attr)) as [value|]; [|done].
    destruct (negb (String.eqb value EmptyString)); [|done].
    apply lookup_insert_ne. intros Heq. by apply optra_key_inj in Heq.
Qed.

Lemma copy_attributes_lookup (scaninfo : xmlNode) (attrs : list xmlAttr)
  (props : gmap string string) (n : string) :
  n ∈ map attr_name attrs →
  foldl (copy_attribute scaninfo) props attrs !! ("optra." +:+ n) =
  match xmlGetNoNsProp scaninfo n with
  | Some value =>
      if String.eqb value EmptyString then props !! ("optra." +:+ n) else Some value
  | None => props !! ("optra." +:+ n)
  end.
Proof.
  revert props. induction attrs as [|b attrs IH]; intros props Hin;
    [by inversion Hin|].
  simpl foldl. destruct (decide (n ∈ map attr_name attrs)) as [Hin'|Hnin].
  - rewrite (IH _ Hin'). rewrite copy_attribute_lookup.
    destruct (decide (attr_name b = n)); [|done].
    destruct (xmlGetNoNsProp scaninfo n) as [value|]; [|done].
    by destruct (String.eqb value EmptyString).
  - assert (Hb : attr_name b = n).
    { simpl in Hin. apply elem_of_cons in Hin as [?|?]; done. }
    assert (Hrest : ∀ q : gmap string string,
      foldl (copy_attribute scaninfo) q attrs !! ("optra." +:+ n)
        = q !! ("optra." +:+ n)).
    { clear IH Hin. induction attrs as [|c attrs IH']; intros q; [done|].
      simpl foldl. rewrite IH'.
      - rewrite copy_attribute_lookup. destruct (decide (attr_name c = n)) as [Hc|];
          [|done].
        exfalso. apply Hnin. simpl. rewrite Hc. apply elem_of_cons. by left.
      - intros Hc. apply Hnin. simpl. apply elem_of_cons. by right. }
    rewrite Hrest, copy_attribute_lookup. by rewrite decide_True.
Qed.

Lemma duplicate_prop_map_optra (conv : string → option string)
  (src dest : string) (props : gmap string string) (n : string) :
  dest ≠ "optra." +:+ n →
  duplicate_prop_map conv src dest props !! ("optra." +:+ n)
    = props !! ("optra." +:+ n).
Proof.
  intros Hne. unfold duplicate_prop_map.
  destruct (props !! src ≫= conv); [|done]. by apply lookup_insert_ne.
Qed.

Section ParseInitialXml.

Context (env : environment).

Lemma parse_initial_xml_run (xml : string) (st : state) :
  parse_initial_xml env xml st =
  match xmlReadMemory env xml with
  | None => (Fail ErrXmlParse, st)
  | Some root =>
      if String.eqb (node_name root) XML_ROOT_TAG then
        (Ok tt, upd_osr (with_properties (scaninfo_properties env root)) st)
      else (Fail ErrUnrecognizedRoot, st)
  end.
Proof.
  unfold parse_initial_xml. unfold bind at 1. rewrite xml_parse_run.
  destruct (xmlReadMemory env xml) as [root|]; [|done].
  unfold bind at 1, on_failure, get_initial_root_xml, xmlDocGetRootElement,
    xmlFreeDoc.
  simpl. destruct (String.eqb (node_name root) XML_ROOT_TAG); simpl.
  - unfold bind, _openslide_duplicate_int_prop,
      _openslide_duplicate_double_prop, duplicate_prop, set_osr. simpl.
    pose proof (free_after_alloc ObjXmlDoc) as Hfree.
    match goal with
    | |- free ?p ?s = _ =>
        change s with (upd_heap (insert (fresh (dom (heap st))) ObjXmlDoc)
          (upd_osr (with_properties (scaninfo_properties env root)) st))
    end.
    apply (Hfree (upd_osr (with_properties (scaninfo_properties env root)) st)).
  - by rewrite free_after_alloc.
Qed.

(** X4.  In a root element whose attributes differ by namespace and name,
    every attribute in no namespace is found, after a successful
    [parse_initial_xml], under the key "optra." + name with exactly its
    value; an attribute with an empty value is skipped, the key stays as it
    was. *)
Theorem parse_initial_xml_copies_plain_attributes (xml : string)
  (root : xmlNode) (st st' : state) (a : xmlAttr) :
  xmlReadMemory env xml = Some root →
  NoDup (map (fun b => (attr_ns b, attr_name b)) (node_properties root)) →
  parse_initial_xml env xml st = (Ok tt, st') →
  a ∈ node_properties root →
  attr_ns a = None →
  osr_properties (osr st') !! ("optra." +:+ attr_name a) =
  if String.eqb (attr_value a) EmptyString then
    osr_properties (osr st) !! ("optra." +:+ attr_name a)
  else Some (attr_value a).
Proof.
  intros Hparse Hnd Hrun Hin Hns. rewrite parse_initial_xml_run, Hparse in Hrun.
  destruct (String.eqb (node_name root) XML_ROOT_TAG); [|done].
  injection Hrun as <-. simpl. unfold scaninfo_properties.
  rewrite !duplicate_prop_map_optra by (simpl; discriminate).
  rewrite copy_attributes_lookup by (by apply list_elem_of_fmap_2).
  unfold xmlGetNoNsProp. by rewrite (xmlGetNoNsProp_list_plain _ a).
Qed.

End ParseInitialXml.

Lemma parse_initial_xml_copies_plain_attributes_witness :
  osr_properties
    (osr (snd (parse_initial_xml sample_env sample_packet fresh_state)))
    !! "optra.Magnification" = Some "40".
Proof.
  apply (parse_initial_xml_copies_plain_attributes sample_env sample_packet
           sample_scaninfo fresh_state _
           {| attr_name := "Magnification"; attr_ns := None;
              attr_value := "40" |}).
  - reflexivity.
  - refine (bool_decide_unpack _ _). vm_compute. exact I.
  - vm_compute. reflexivity.
  - apply elem_of_cons. left. reflexivity.
  - reflexivity.
Defined.

(** C4.  The loop is commented "copy all scaninfo attributes to vendor
    properties" and visits every attribute, but reads each value back with
    [xmlGetNoNsProp], which looks among the attributes in no namespace only.
    On the packet whose root carries [Serial = A17] in the namespace
    [urn:vendor] the attribute is among those of the root, its value is not
    empty, [parse_initial_xml] succeeds, and there is no property
    "optra.Serial" afterwards: the attribute is lost. *)
Lemma parse_initial_xml_skips_namespaced_attribute :
  let a := {| attr_name := "Serial"; attr_ns := Some "urn:vendor";
              attr_value := "A17" |} in
  xmlReadMemory sample_env sample_ns_packet = Some sample_ns_scaninfo ∧
  a ∈ node_properties sample_ns_scaninfo ∧
  attr_value a ≠ EmptyString ∧
  fst (parse_initial_xml sample_env sample_ns_packet fresh_state) = Ok tt ∧
  osr_properties
    (osr (snd (parse_initial_xml sample_env sample_ns_packet fresh_state)))
    !! ("optra." +:+ attr_name a) = None.
Proof.
  simpl. split; [reflexivity|]. split; [apply elem_of_cons; by left|].
  split; [discriminate|]. split; vm_compute; reflexivity.
Qed.

(** ** [read_tile] *)

Section ReadTile.

Context (env : environment).

Lemma read_tile_hit (l : level) (col row : Z) (st : state)
  (e : _openslide_cache_entry) :
  osr_cache (osr st) !! (level_ptr l, col, row) = Some e →
  read_tile env l col row st =
  (Ok tt, upd_cr (fun canvas => (canvas ++ [tile_surface l (ce_data e)])%list) st).
Proof.
  intros Hhit. unfold read_tile, bind at 1, _openslide_cache_get, bind at 1,
    get_osr.
  rewrite Hhit. unfold bind, set_osr, cairo_paint_surface, set_cr,
    _openslide_cache_entry_unref, set_osr, ret. simpl.
  f_equal. destruct st as [o hp q c d]. unfold upd_cr, upd_osr. simpl. f_equal.
  destruct o. unfold with_cache. simpl in *. f_equal.
  rewrite alter_insert_eq. simpl. destruct e. simpl. by apply insert_id.
Qed.

Lemma read_tile_miss (l : level) (col row : Z) (st : state) :
  osr_cache (osr st) !! (level_ptr l, col, row) = None →
  let size := tile_w (tiffl l) * tile_h (tiffl l) * 4 in
  let buf := fresh (dom (heap st)) in
  let log := (decoded st ++ [(dir (tiffl l), col, row)])%list in
  read_tile env l col row st =
  match tile_pixels env (tiffl l) col row with
  | None => (Fail ErrReadTile, upd_decoded (fun _ => log) st)
  | Some pixels =>
      match clipped_pixels env (tiffl l) pixels col row with
      | None => (Fail ErrClipTile, upd_decoded (fun _ => log) st)
      | Some clipped =>
          (Ok tt,
           {| osr := with_cache (insert (level_ptr l, col, row)
                       {| ce_ptr := buf; ce_data := clipped; ce_size := size;
                          ce_refs := 0 |}) (osr st);
              heap := <[buf := ObjTileData size]> (heap st);
              quickhash1 := quickhash1 st;
              cr := (cr st ++ [tile_surface l clipped])%list;
              decoded := log |})
      end
  end.
Proof.
  intros Hmiss size buf log.
  unfold read_tile, bind at 1, _openslide_cache_get, bind at 1, get_osr.
  rewrite Hmiss. cbn [ret].
  unfold bind at 1. unfold bind at 1. unfold g_slice_alloc. rewrite alloc_run.
  fold buf. fold size.
  unfold bind at 1, on_failure at 1, _openslide_tiff_read_tile, bind at 1,
    set_decoded, of_option.
  destruct (tile_pixels env (tiffl l) col row) as [pixels|]; cbn [ret fail].
  - unfold bind at 1, on_failure at 1, _openslide_tiff_clip_tile, of_option.
    destruct (clipped_pixels env (tiffl l) pixels col row) as [clipped|];
      cbn [ret fail].
    + unfold bind, _openslide_cache_put, cairo_paint_surface,
        _openslide_cache_entry_unref, set_osr, set_cr, ret. simpl.
      f_equal. unfold upd_osr, upd_cr, upd_decoded, upd_heap. simpl. f_equal.
      unfold with_cache. simpl. f_equal. by rewrite alter_insert_eq.
    + unfold g_slice_free1. rewrite free_run. simpl. rewrite lookup_insert_eq.
      f_equal. unfold upd_decoded, upd_heap. simpl. f_equal.
      apply delete_insert_id, fresh_lookup.
  - unfold g_slice_free1. rewrite free_run. simpl. rewrite lookup_insert_eq.
    f_equal. unfold upd_decoded, upd_heap. simpl. f_equal.
    apply delete_insert_id, fresh_lookup.
Qed.

(** C7.  On a cache miss where the decode or the clip of the tile fails,
    [read_tile] fails; the buffer of tile_w * tile_h * 4 bytes it allocated
    is freed again, which leaves the heap as it was; the slide handle, its
    cache included, and the drawing context are unchanged. *)
Theorem read_tile_failure_frees_buffer (l : level) (col row : Z) (st : state) :
  osr_cache (osr st) !! (level_ptr l, col, row) = None →
  (tile_pixels env (tiffl l) col row = None ∨
   ∃ pixels, tile_pixels env (tiffl l) col row = Some pixels ∧
             clipped_pixels env (tiffl l) pixels col row = None) →
  let size := tile_w (tiffl l) * tile_h (tiffl l) * 4 in
  let buf := fresh (dom (heap st)) in
  ∃ e st',
    read_tile env l col row st = (Fail e, st') ∧
    heap st' = delete buf (<[buf := ObjTileData size]> (heap st)) ∧
    heap st' = heap st ∧
    osr_cache (osr st') = osr_cache (osr st) ∧
    osr st' = osr st ∧
    cr st' = cr st.
Proof.
  intros Hmiss Hfail size buf. rewrite (read_tile_miss _ _ _ _ Hmiss).
  assert (Hheap : heap st = delete buf (<[buf := ObjTileData size]> (heap st))).
  { symmetry. apply delete_insert_id, fresh_lookup. }
  destruct Hfail as [->|(pixels & -> & ->)];
    eexists _, _; (split; [reflexivity|]); simpl; by rewrite <- Hheap.
Qed.

(** C8.  A tile that is not cached is read, and read again while its cache
    entry is still in the cache: both reads paint the same surface, the first
    read decodes the tile once and the second read decodes nothing. *)
Theorem read_tile_twice_decodes_once (l : level) (col row : Z)
  (st0 st1 st1' : state) :
  osr_cache (osr st0) !! (level_ptr l, col, row) = None →
  read_tile env l col row st0 = (Ok tt, st1) →
  osr_cache (osr st1') !! (level_ptr l, col, row)
    = osr_cache (osr st1) !! (level_ptr l, col, row) →
  ∃ pixels st2,
    read_tile env l col row st1' = (Ok tt, st2) ∧
    cr st1 = (cr st0 ++ [tile_surface l pixels])%list ∧
    cr st2 = (cr st1' ++ [tile_surface l pixels])%list ∧
    decoded st1 = (decoded st0 ++ [(dir (tiffl l), col, row)])%list ∧
    decoded st2 = decoded st1'.
Proof.
  intros Hmiss Hfirst Hkept. rewrite (read_tile_miss _ _ _ _ Hmiss) in Hfirst.
  destruct (tile_pixels env (tiffl l) col row) as [pixels|]; [|done].
  destruct (clipped_pixels env (tiffl l) pixels col row) as [clipped|];
    [|done].
  injection Hfirst as <-. simpl in Hkept. rewrite lookup_insert_eq in Hkept.
  rewrite (read_tile_hit l col row st1' _ Hkept). by eexists _, _.
Qed.

(** A tile that is in the cache is painted from it: nothing is decoded or
    allocated, and the slide handle is as before once the reference is
    released. *)
Lemma read_tile_cached_decodes_nothing (l : level) (col row : Z) (st : state)
  (e : _openslide_cache_entry) :
  osr_cache (osr st) !! (level_ptr l, col, row) = Some e →
  ∃ st',
    read_tile env l col row st = (Ok tt, st') ∧
    cr st' = (cr st ++ [tile_surface l (ce_data e)])%list ∧
    decoded st' = decoded st ∧ heap st' = heap st ∧ osr st' = osr st.
Proof.
  intros Hhit. rewrite (read_tile_hit _ _ _ _ _ Hhit). by eexists.
Qed.


End ReadTile.

Lemma read_tile_failure_frees_buffer_witness :
  ∃ e st',
    read_tile sample_env sample_level 9 0 fresh_state = (Fail e, st') ∧
    heap st' = delete 1%positive
                 (<[1%positive := ObjTileData (256 * 256 * 4)]> (heap fresh_state)) ∧
    heap st' = heap fresh_state ∧
    osr_cache (osr st') = osr_cache (osr fresh_state) ∧
    osr st' = osr fresh_state ∧
    cr st' = cr fresh_state.
Proof.
  apply (read_tile_failure_frees_buffer sample_env sample_level 9 0 fresh_state).
  - reflexivity.
  - left. reflexivity.
Defined.

Lemma read_tile_twice_decodes_once_witness :
  let st1 := snd (read_tile sample_env sample_level 2 3 fresh_state) in
  ∃ pixels st2,
    read_tile sample_env sample_level 2 3 st1 = (Ok tt, st2) ∧
    cr st1 = (cr fresh_state ++ [tile_surface sample_level pixels])%list ∧
    cr st2 = (cr st1 ++ [tile_surface sample_level pixels])%list ∧
    decoded st1 = (decoded fresh_state ++ [(0%nat, 2, 3)])%list ∧
    decoded st2 = decoded st1.
Proof.
  intros st1.
  apply (read_tile_twice_decodes_once sample_env sample_level 2 3 fresh_state
           st1 st1).
  - reflexivity.
  - vm_compute. reflexivity.
  - reflexivity.
Defined.

(** ** Sorting the level array *)

Lemma sort_insert_perm {A} (cmp : A → A → Z) (x : A) (l : list A) :
  sort_insert cmp x l ≡ₚ x :: l.
Proof.
  induction l as [|y l IH]; simpl; [done|].
  destruct (0 <? cmp x y); [|done].
  rewrite IH. apply Permutation_swap.
Qed.

Lemma stable_sort_perm {A} (cmp : A → A → Z) (l : list A) :
  stable_sort cmp l ≡ₚ l.
Proof.
  induction l as [|x l IH]; simpl; [done|].
  unfold stable_sort in *. simpl. by rewrite sort_insert_perm, IH.
Qed.

Lemma stable_sort_length {A} (cmp : A → A → Z) (l : list A) :
  length (stable_sort cmp l) = length l.
Proof. apply Permutation_length, stable_sort_perm. Qed.

Lemma width_compare_pos (la lb : level) :
  (0 <? width_compare la lb) = true ↔ image_w (tiffl la) < image_w (tiffl lb).
Proof.
  unfold width_compare.
  destruct (Z.gtb_spec (image_w (tiffl la)) (image_w (tiffl lb)));
    [rewrite Z.ltb_lt; lia|].
  destruct (Z.eqb_spec (image_w (tiffl la)) (image_w (tiffl lb)));
    rewrite Z.ltb_lt; lia.
Qed.

Lemma sort_insert_sorted (x : level) (l : list level) :
  StronglySorted wider l →
  StronglySorted wider (sort_insert width_compare x l).
Proof.
  induction 1 as [|y l Hl IH Hy]; simpl; [repeat constructor|].
  destruct (0 <? width_compare x y) eqn:Hcmp.
  - apply width_compare_pos in Hcmp. constructor; [done|].
    rewrite sort_insert_perm. constructor; [unfold wider; lia|done].
  - assert (Hxy : wider x y).
    { unfold wider. destruct (Z.le_gt_cases (image_w (tiffl y)) (image_w (tiffl x)));
        [done|].
      apply width_compare_pos in H. congruence. }
    constructor; [by constructor|]. constructor; [done|].
    eapply Forall_impl; [exact Hy|]. unfold wider in *. intros; lia.
Qed.

Lemma stable_sort_sorted (l : list level) :
  StronglySorted wider (stable_sort width_compare l).
Proof.
  induction l as [|x l IH]; [constructor|].
  unfold stable_sort in *. simpl. by apply sort_insert_sorted.
Qed.

(** A strongly sorted list read by index. *)
Lemma StronglySorted_lookup {A} (R : A → A → Prop) (l : list A) (i j : nat)
  (a b : A) :
  StronglySorted R l → (i < j)%nat → l !! i = Some a → l !! j = Some b → R a b.
Proof.
  intros Hs. revert i j. induction Hs as [|x l Hl IH Hx]; intros i j Hij Hi Hj;
    [done|].
  destruct j as [|j]; [lia|]. simpl in Hj. destruct i as [|i].
  - simpl in Hi. injection Hi as <-. rewrite Forall_forall in Hx.
    apply Hx. by eapply list_elem_of_lookup_2.
  - simpl in Hi. apply (IH i j); [lia|done..].
Qed.

Lemma StronglySorted_last {A} (R : A → A → Prop) (l : list A) (x z : A) :
  (∀ y, R y y) → StronglySorted R l → last l = Some z → x ∈ l → R x z.
Proof.
  intros Hrefl Hs Hlast Hin. apply list_elem_of_lookup in Hin as [i Hi].
  rewrite last_lookup in Hlast.
  destruct (decide (i = Nat.pred (length l))) as [->|Hne].
  - rewrite Hi in Hlast. by injection Hlast as ->.
  - apply (StronglySorted_lookup R l i (Nat.pred (length l))); [done| |done..].
    apply lookup_lt_Some in Hi. lia.
Qed.

(** Reading [pdata[len - 1]] with [len] computed as a [guint]. *)
Lemma pdata_index_last {A} (pdata : list A) :
  Z.of_nat (length pdata) < 2 ^ 32 →
  pdata_index pdata (guint (Z.of_nat (length pdata) - 1)) = last pdata.
Proof.
  intros Hlen. unfold pdata_index, guint. destruct pdata as [|x pdata]; [done|].
  rewrite last_lookup. set (n := length (x :: pdata)) in *.
  assert (Hn : (1 ≤ n)%nat) by (subst n; simpl; lia).
  rewrite Z.mod_small by lia.
  replace (Z.to_nat (Z.of_nat n - 1)) with (Nat.pred n) by lia.
  destruct (Z.leb_spec 0 (Z.of_nat n - 1)); [|lia].
  destruct (Z.ltb_spec (Z.of_nat n - 1) (Z.of_nat n)); [done|lia].
Qed.

Lemma pdata_index_empty {A} (pdata : list A) :
  pdata_index pdata (guint (Z.of_nat (length pdata) - 1)) = None ↔ pdata = [].
Proof.
  split; [|by intros ->].
  unfold pdata_index, guint. intros Hnone. destruct pdata as [|x pdata]; [done|].
  exfalso. set (n := length (x :: pdata)) in *.
  assert (Hn : (1 ≤ n)%nat) by (subst n; simpl; lia).
  assert (Hmod := Z.mod_pos_bound (Z.of_nat n - 1) (2 ^ 32) ltac:(lia)).
  assert (Hle : (Z.of_nat n - 1) mod 2 ^ 32 ≤ Z.of_nat n - 1)
    by (apply Z.mod_le; lia).
  destruct (Z.leb_spec 0 ((Z.of_nat n - 1) mod 2 ^ 32)); [|lia].
  destruct (Z.ltb_spec ((Z.of_nat n - 1) mod 2 ^ 32) (Z.of_nat n)); [|lia].
  simpl in Hnone. apply lookup_ge_None in Hnone. fold n in Hnone. lia.
Qed.

(** ** The heap during [optra_open] *)

Lemma free_all_lookup (ps : list loc) (hp : gmap loc obj) (p : loc) :
  free_all ps hp !! p = if decide (p ∈ ps) then None else hp !! p.
Proof.
  revert hp. induction ps as [|q ps IH]; intros hp.
  - destruct (decide (p ∈ [])) as [Hin|_]; [by apply elem_of_nil in Hin|done].
  - change (free_all (q :: ps) hp) with (free_all ps (delete q hp)).
    rewrite IH.
    destruct (decide (p ∈ ps)) as [Hin|Hnin];
      destruct (decide (p ∈ q :: ps)) as [Hin'|Hnin']; try done.
    + exfalso. apply Hnin'. apply elem_of_cons. by right.
    + apply elem_of_cons in Hin' as [->|?]; [|done]. apply lookup_delete_eq.
    + apply lookup_delete_ne. intros ->. apply Hnin'. apply elem_of_cons. by left.
Qed.

Lemma level_locs_app (pdata : list level) (l : level) :
  level_locs (pdata ++ [l]) = (level_locs pdata ++ [grid l; level_ptr l])%list.
Proof. unfold level_locs. by rewrite flat_map_app. Qed.

Lemma level_locs_perm (pdata pdata' : list level) :
  pdata ≡ₚ pdata' → level_locs pdata ≡ₚ level_locs pdata'.
Proof.
  induction 1 as [|x l l' _ IH|x y l|l1 l2 l3 _ IH1 _ IH2]; simpl.
  - done.
  - unfold level_locs in *. simpl. by rewrite IH.
  - unfold level_locs. simpl.
    apply (Permutation_app_swap_app [grid y; level_ptr y] [grid x; level_ptr x]).
  - by etrans.
Qed.

Lemma walk_inv_perm (base : gmap loc obj) (array : loc)
  (pdata pdata' : list level) (hp : gmap loc obj) :
  pdata ≡ₚ pdata' →
  walk_inv base array pdata hp →
  walk_inv base array pdata' (<[array := ObjPtrArray pdata']> hp).
Proof.
  intros Hperm [Harr Hbase Hnd Hlive Hnew Hframe Hlen].
  assert (Hlocs := level_locs_perm _ _ Hperm).
  assert (Harr' : ∀ p, p ∈ level_locs pdata' → p ≠ array).
  { intros p Hp ->. rewrite <- Hlocs in Hp. apply Hnew in Hp.
    rewrite Hp in Hbase. by destruct Hbase. }
  split.
  - apply lookup_insert_eq.
  - done.
  - by rewrite <- Hlocs.
  - intros p Hp. rewrite lookup_insert_ne by (symmetry; by apply Harr').
    apply Hlive. by rewrite Hlocs.
  - intros p Hp. apply Hnew. by rewrite Hlocs.
  - intros p Hp Hne. rewrite lookup_insert_ne by done.
    apply Hframe; [|done]. by rewrite Hlocs.
  - by rewrite <- Hperm.
Qed.

Lemma walk_inv_start (hp : gmap loc obj) (array : loc) :
  hp !! array = Some (ObjPtrArray []) → walk_inv hp array [] hp.
Proof.
  intros Harr. split.
  - done.
  - by eexists.
  - constructor.
  - by intros p ?%elem_of_nil.
  - by intros p ?%elem_of_nil.
  - done.
  - simpl. lia.
Qed.

Lemma free_levels_run (pdata : list level) (st : state) :
  NoDup (level_locs pdata) →
  (∀ p, p ∈ level_locs pdata → is_Some (heap st !! p)) →
  free_levels pdata st = (Ok tt, upd_heap (free_all (level_locs pdata)) st).
Proof.
  revert st. induction pdata as [|l pdata IH]; intros st Hnd Hlive.
  - simpl. unfold ret. f_equal. by destruct st.
  - simpl in Hnd. apply NoDup_cons in Hnd as [Hg Hnd].
    apply NoDup_cons in Hnd as [Hp Hnd].
    simpl. unfold bind at 1, _openslide_grid_destroy. rewrite free_run.
    destruct (Hlive (grid l)) as [og Hog]; [apply elem_of_cons; by left|].
    rewrite Hog. unfold bind at 1. rewrite free_run. simpl.
    assert (Hne : grid l ≠ level_ptr l).
    { intros Heq. apply Hg. apply elem_of_cons. by left. }
    rewrite lookup_delete_ne by done.
    destruct (Hlive (level_ptr l)) as [op Hop];
      [apply elem_of_cons; right; apply elem_of_cons; by left|].
    rewrite Hop. rewrite IH; [done|done|].
    intros p Hin. simpl.
    rewrite !lookup_delete_ne.
    + apply Hlive. apply elem_of_cons; right. apply elem_of_cons; by right.
    + intros <-. apply Hg. apply elem_of_cons; by right.
    + by intros <-.
Qed.

(** ** The loop body *)

Lemma same_handle_refl (o : openslide_t) : same_handle o o.
Proof. by repeat split. Qed.

Lemma kept_refl (st : state) : kept st st.
Proof. by repeat split. Qed.

Lemma kept_trans (st1 st2 st3 : state) : kept st1 st2 → kept st2 st3 → kept st1 st3.
Proof.
  unfold kept, same_handle.
  intros (( -> & -> & -> & -> & ->) & -> & -> & ->)
         (( -> & -> & -> & -> & ->) & -> & -> & ->).
  by repeat split.
Qed.

Lemma kept_upd_heap (f : gmap loc obj → gmap loc obj) (st : state) :
  kept st (upd_heap f st).
Proof. by repeat split. Qed.

Lemma kept_with_properties (f : gmap string string → gmap string string)
  (st : state) : kept st (upd_osr (with_properties f) st).
Proof. by repeat split. Qed.

Lemma kept_with_associated_images
  (f : gmap string associated_image → gmap string associated_image)
  (st : state) : kept st (upd_osr (with_associated_images f) st).
Proof. by repeat split. Qed.

Section Walk.

Context (env : environment).

Lemma add_associated_image_run (name : string) (d : tdir_t) (st : state) :
  _openslide_tiff_add_associated_image env name d st =
  if associated_image_readable env d then
    (Ok tt, upd_osr (with_associated_images (insert name {| ai_dir := d |})) st)
  else (Fail ErrAssociatedImage, st).
Proof.
  unfold _openslide_tiff_add_associated_image.
  by destruct (associated_image_readable env d).
Qed.

Lemma classify_directory_spec (current : tdir_t) (contents : directory)
  (tn_dir : tdir_t) (st st' : state) (r : result (option tdir_t)) :
  classify_directory env current contents tn_dir st = (r, st') →
  heap st' = heap st ∧ kept st st' ∧
  match r with
  | Ok (Some tn_dir') =>
      tn_dir' = if records_thumbnail current contents then current else tn_dir
  | Ok None => records_thumbnail current contents = false
  | Fail _ => True
  | Undefined => False
  end.
Proof.
  unfold classify_directory, records_thumbnail.
  destruct (dir_tiled contents); simpl;
    [|intros [= <- <-]; auto using kept_refl].
  destruct (current =? 0)%nat; simpl;
    [intros [= <- <-]; auto using kept_refl|].
  destruct (dir_subfiletype contents) as [subfiletype|];
    [|intros [= <- <-]; auto using kept_refl].
  destruct (Z.land subfiletype FILETYPE_REDUCEDIMAGE =? 0); simpl.
  - unfold bind at 1, of_option.
    destruct (dir_image_desc contents) as [image_desc|];
      [|intros [= <- <-]; auto using kept_refl].
    cbn [ret]. unfold bind. rewrite add_associated_image_run.
    destruct (associated_image_readable env current);
      intros [= <- <-]; auto using kept_refl, kept_with_associated_images.
    repeat split; by destruct (dir_imwidth contents), (dir_imheight contents).
  - unfold bind, of_option.
    destruct (dir_imwidth contents) as [imwidth|];
      [|intros [= <- <-]; auto using kept_refl].
    destruct (dir_imheight contents) as [imheight|];
      [|intros [= <- <-]; auto using kept_refl].
    cbn [ret].
    destruct ((imwidth >? MIN_THUMBNAIL_DIM) && (imheight >? MIN_THUMBNAIL_DIM));
      intros [= <- <-]; auto using kept_refl.
Qed.

End Walk.

(** ** The directory walk *)

Section WalkLevels.

Context (env : environment).

Lemma g_ptr_array_pdata_run (array : loc) (pdata : list level) (st : state) :
  heap st !! array = Some (ObjPtrArray pdata) →
  g_ptr_array_pdata array st = (Ok pdata, st).
Proof.
  intros Harr. unfold g_ptr_array_pdata, bind, get_heap. by rewrite Harr.
Qed.

(** Appending a freshly allocated level and grid keeps the invariant. *)
Lemma walk_inv_add (base : gmap loc obj) (array : loc) (pdata : list level)
  (hp : gmap loc obj) (lbase : _openslide_level) (ltiffl : _openslide_tiff_level)
  (og : obj) :
  walk_inv base array pdata hp →
  Z.of_nat (length pdata) < 2 ^ 32 - 1 →
  let p := fresh (dom hp) in
  let g := fresh (dom (<[p := ObjLevel]> hp)) in
  let l := {| level_ptr := p; base := lbase; tiffl := ltiffl; grid := g |} in
  walk_inv base array (pdata ++ [l])
    (<[array := ObjPtrArray (pdata ++ [l])]> (<[g := og]> (<[p := ObjLevel]> hp))).
Proof.
  intros [Harr Hbase Hnd Hlive Hnew Hframe Hlen] Hroom p g l.
  assert (Hp : hp !! p = None) by apply fresh_lookup.
  assert (Hg : (<[p := ObjLevel]> hp) !! g = None) by apply fresh_lookup.
  assert (Hgp : g ≠ p).
  { intros Heq. rewrite Heq, lookup_insert_eq in Hg. done. }
  rewrite lookup_insert_ne in Hg by done.
  assert (Hpa : p ≠ array) by (intros Heq; by rewrite Heq, Harr in Hp).
  assert (Hga : g ≠ array) by (intros Heq; by rewrite Heq, Harr in Hg).
  assert (Hpl : p ∉ level_locs pdata).
  { intros Hin. apply Hlive in Hin. rewrite Hp in Hin. by destruct Hin. }
  assert (Hgl : g ∉ level_locs pdata).
  { intros Hin. apply Hlive in Hin. rewrite Hg in Hin. by destruct Hin. }
  assert (Hal : array ∉ level_locs pdata).
  { intros Hin. apply Hnew in Hin. rewrite Hin in Hbase. by destruct Hbase. }
  split.
  - apply lookup_insert_eq.
  - done.
  - rewrite level_locs_app. apply NoDup_app. split; [done|]. split.
    + intros q Hq [->|[->|?%elem_of_nil]%elem_of_cons]%elem_of_cons; done.
    + simpl. apply NoDup_cons. split; [|apply NoDup_singleton].
      by intros ->%list_elem_of_singleton.
  - intros q. rewrite level_locs_app. intros [Hq|Hq]%elem_of_app.
    + rewrite !lookup_insert_ne by (intros <-; done). by apply Hlive.
    + simpl in Hq.
      apply elem_of_cons in Hq as [->|[->|?%elem_of_nil]%elem_of_cons]; [| |done].
      * rewrite lookup_insert_ne by done. rewrite lookup_insert_eq. by eexists.
      * rewrite !lookup_insert_ne by done. rewrite lookup_insert_eq. by eexists.
  - intros q. rewrite level_locs_app. intros [Hq|Hq]%elem_of_app.
    + by apply Hnew.
    + simpl in Hq.
      apply elem_of_cons in Hq as [->|[->|?%elem_of_nil]%elem_of_cons]; [| |done].
      * rewrite <- Hframe; done.
      * rewrite <- Hframe; done.
  - intros q Hq Hne. rewrite level_locs_app in Hq.
    rewrite lookup_insert_ne by done.
    assert (q ≠ g).
    { intros ->. apply Hq. apply elem_of_app. right. apply elem_of_cons. by left. }
    assert (q ≠ p).
    { intros ->. apply Hq. apply elem_of_app. right. apply elem_of_cons. right.
      apply elem_of_cons. by left. }
    rewrite !lookup_insert_ne by done.
    apply Hframe; [|done]. intros Hin. apply Hq. apply elem_of_app. by left.
  - rewrite length_app. simpl. lia.
Qed.

Lemma add_level_spec (base : gmap loc obj) (array : loc) (pdata : list level)
  (current : tdir_t) (contents : directory) (st st' : state) (r : result unit) :
  add_level env array current contents st = (r, st') →
  walk_inv base array pdata (heap st) →
  kept st st' ∧
  match r with
  | Ok _ => ∃ l, walk_inv base array (pdata ++ [l]) (heap st')
  | Fail _ => heap st' = heap st
  | Undefined => True
  end.
Proof.
  intros Hrun Hinv. unfold add_level in Hrun. unfold bind at 1, of_option in Hrun.
  destruct (dir_compression contents) as [compression|];
    [|injection Hrun as <- <-; auto using kept_refl].
  cbn [ret] in Hrun.
  destruct (TIFFIsCODECConfigured env compression); simpl in Hrun;
    [|injection Hrun as <- <-; auto using kept_refl].
  unfold bind at 1 in Hrun. rewrite alloc_run in Hrun.
  unfold bind at 1, on_failure, _openslide_tiff_level_init in Hrun.
  destruct (level_geometry env current contents) as [g|]; cbn [ret fail] in Hrun.
  - unfold bind at 1, _openslide_grid_create_simple in Hrun.
    rewrite alloc_run in Hrun. unfold g_ptr_array_add, bind at 1 in Hrun.
    assert (Hp : heap st !! fresh (dom (heap st)) = None) by apply fresh_lookup.
    set (p := fresh (dom (heap st))) in *.
    simpl in Hrun.
    assert (Hg : (<[p := ObjLevel]> (heap st))
                   !! fresh (dom (<[p := ObjLevel]> (heap st))) = None)
      by apply fresh_lookup.
    set (gp := fresh (dom (<[p := ObjLevel]> (heap st)))) in *.
    assert (Harr := inv_array _ _ _ _ Hinv).
    erewrite g_ptr_array_pdata_run in Hrun; cycle 1.
    { simpl. rewrite !lookup_insert_ne; [exact Harr| |].
      - intros Heq. rewrite Heq, Harr in Hp. done.
      - intros Heq. rewrite Heq in Hg. rewrite lookup_insert_ne in Hg.
        + by rewrite Harr in Hg.
        + intros Heq'. by rewrite Heq', Harr in Hp. }
    destruct (Z.ltb_spec (Z.of_nat (length pdata)) (2 ^ 32 - 1)) as [Hroom|_].
    + injection Hrun as <- <-. split; [by repeat split|].
      eexists. simpl. by apply walk_inv_add.
    + by injection Hrun as <- <-.
  - rewrite free_after_alloc in Hrun. injection Hrun as <- <-.
    auto using kept_refl.
Qed.

Lemma walk_directory_spec (base : gmap loc obj) (array : loc)
  (pdata : list level) (current : tdir_t) (contents : directory)
  (tn_dir : tdir_t) (st st' : state) (r : result tdir_t) :
  walk_directory env array current contents tn_dir st = (r, st') →
  walk_inv base array pdata (heap st) →
  kept st st' ∧
  match r with
  | Ok tn_dir' =>
      (∃ pdata', walk_inv base array pdata' (heap st')) ∧
      tn_dir' = if records_thumbnail current contents then current else tn_dir
  | Fail _ => walk_inv base array pdata (heap st')
  | Undefined => True
  end.
Proof.
  intros Hrun Hinv. unfold walk_directory, bind at 1 in Hrun.
  destruct (classify_directory env current contents tn_dir st)
    as [[[tn_dir'|]|e|] st1] eqn:Hclass;
    apply classify_directory_spec in Hclass as (Hheap & Hkept & Hr).
  - unfold bind at 1 in Hrun.
    destruct (add_level env array current contents st1) as [[[]|e|] st2] eqn:Hadd;
      rewrite <- Hheap in Hinv;
      destruct (add_level_spec _ _ _ _ _ _ _ _ Hadd Hinv) as (Hkept' & Hr');
      injection Hrun as <- <-;
      (split; [exact (kept_trans _ _ _ Hkept Hkept')|]).
    + destruct Hr' as [l Hl]. split; [by eexists|done].
    + by rewrite Hr'.
    + done.
  - injection Hrun as <- <-. split; [done|]. rewrite Hheap, Hr.
    split; [by eexists|done].
  - injection Hrun as <- <-. split; [done|]. by rewrite Hheap.
  - done.
Qed.

Lemma walk_spec (base : gmap loc obj) (array : loc) (rest : list directory) :
  ∀ (pdata : list level) (current : tdir_t) (contents : directory)
    (tn_dir : tdir_t) (st st' : state) (r : result (tdir_t * tdir_t)),
  walk env array current contents rest tn_dir st = (r, st') →
  walk_inv base array pdata (heap st) →
  kept st st' ∧
  match r with
  | Ok (tn_dir', current') =>
      (∃ pdata', walk_inv base array pdata' (heap st')) ∧
      tn_dir' = last_candidate current (contents :: rest) tn_dir ∧
      current' = (current + length rest)%nat
  | Fail _ => ∃ pdata', walk_inv base array pdata' (heap st')
  | Undefined => True
  end.
Proof.
  induction rest as [|next rest IH];
    intros pdata current contents tn_dir st st' r Hrun Hinv;
    simpl in Hrun; unfold bind at 1 in Hrun;
    destruct (walk_directory env array current contents tn_dir st)
      as [[tn_dir1|e|] st1] eqn:Hdir;
    apply (walk_directory_spec _ _ _ _ _ _ _ _ _ Hdir) in Hinv as (Hkept & Hr).
  - injection Hrun as <- <-. split; [done|]. destruct Hr as [Hinv ->].
    split; [done|]. split; [done|]. simpl. lia.
  - injection Hrun as <- <-. split; [done|]. by eexists.
  - by injection Hrun as <- <-.
  - destruct Hr as [[pdata1 Hinv1] ->].
    apply (IH _ _ _ _ _ _ _ Hrun) in Hinv1 as (Hkept1 & Hr1).
    split; [exact (kept_trans _ _ _ Hkept Hkept1)|].
    destruct r as [[tn_dir' current']|e|]; [|done|done].
    destruct Hr1 as (Hinv' & -> & ->). split; [done|]. split; [done|].
    simpl. lia.
  - injection Hrun as <- <-. split; [done|]. by eexists.
  - by injection Hrun as <- <-.
Qed.

End WalkLevels.

(** ** Unwinding and the whole of [optra_open] *)

Lemma FAIL_run (base : gmap loc obj) (array : loc) (pdata : list level)
  (tcp : loc) (cached_tiff : option TIFF) (st : state)
  (filename : string) (checked_out pooled : nat) :
  walk_inv base array pdata (heap st) →
  base !! tcp = Some (ObjTiffcache filename checked_out pooled) →
  tcp ≠ array →
  ∃ st',
    FAIL array cached_tiff tcp st = (Ok tt, st') ∧
    osr st' = osr st ∧ kept st st' ∧
    ∀ p, heap st' !! p =
         if decide (p = tcp) then None
         else if decide (p = array) then None else base !! p.
Proof.
  intros [Harr Hbase Hnd Hlive Hnew Hframe Hlen] Htc Hne.
  assert (Hal : array ∉ level_locs pdata).
  { intros Hin. apply Hnew in Hin. rewrite Hin in Hbase. by destruct Hbase. }
  assert (Htl : tcp ∉ level_locs pdata).
  { intros Hin. apply Hnew in Hin. by rewrite Hin in Htc. }
  unfold FAIL, bind at 1. rewrite (g_ptr_array_pdata_run _ _ _ Harr).
  unfold bind at 1. rewrite free_levels_run by done.
  unfold bind at 1, g_ptr_array_free, bind at 1.
  erewrite g_ptr_array_pdata_run; cycle 1.
  { simpl. rewrite free_all_lookup, decide_False by done. exact Harr. }
  unfold bind at 1. rewrite free_run. simpl.
  rewrite free_all_lookup, decide_False, Harr by done. cbn [ret].
  assert (Htc' : delete array (free_all (level_locs pdata) (heap st)) !! tcp
                 = Some (ObjTiffcache filename checked_out pooled)).
  { rewrite lookup_delete_ne by done.
    rewrite free_all_lookup, decide_False by done. by rewrite Hframe. }
  assert (Hfinal : ∀ hp' : gmap loc obj,
    (∀ p, p ≠ tcp → hp' !! p
          = delete array (free_all (level_locs pdata) (heap st)) !! p) →
    ∀ p, delete tcp hp' !! p =
         if decide (p = tcp) then None
         else if decide (p = array) then None else base !! p).
  { intros hp' Hhp' p. destruct (decide (p = tcp)) as [->|Hpt];
      [apply lookup_delete_eq|].
    rewrite lookup_delete_ne by done. rewrite Hhp' by done.
    destruct (decide (p = array)) as [->|Hpa]; [apply lookup_delete_eq|].
    rewrite lookup_delete_ne by done. rewrite free_all_lookup.
    destruct (decide (p ∈ level_locs pdata)) as [Hin|Hnin].
    - symmetry. by apply Hnew.
    - by apply Hframe. }
  destruct cached_tiff as [tiff|]; simpl.
  - unfold bind at 1, _openslide_cached_tiff_put, bind at 1, get_heap.
    simpl. rewrite Htc'. simpl. unfold _openslide_tiffcache_destroy.
    rewrite free_run. simpl. rewrite lookup_insert_eq.
    eexists. split; [reflexivity|]. simpl. split; [done|].
    split; [by repeat split|].
    apply Hfinal. intros p Hp. by rewrite lookup_insert_ne.
  - unfold bind at 1. simpl. unfold _openslide_tiffcache_destroy.
    rewrite free_run. simpl. rewrite Htc'.
    eexists. split; [reflexivity|]. simpl. split; [done|].
    split; [by repeat split|]. by apply Hfinal.
Qed.

Section Open.

Context (env : environment).

Lemma build_levels_spec (base : gmap loc obj) (array : loc)
  (cached_tiff : option TIFF) (tl : _openslide_tifflike) (st st' : state)
  (r : result unit) :
  build_levels env array cached_tiff tl st = (r, st') →
  walk_inv base array [] (heap st) →
  match r with
  | Ok _ =>
      ∃ tiff pdata top,
        cached_tiff = Some tiff ∧
        walk_inv base array (stable_sort width_compare pdata) (heap st') ∧
        last (stable_sort width_compare pdata) = Some top ∧
        quickhash1 st' = (quickhash1 st ++ [(dir (tiffl top), 0%nat)])%list ∧
        osr_associated_images (osr st') !! "thumbnail"
          = Some {| ai_dir := last_candidate 0%nat (tiff_dirs tiff) 0%nat |} ∧
        same_handle (osr st) (osr st') ∧
        cr st' = cr st ∧ decoded st' = decoded st
  | Fail _ => (∃ pdata, walk_inv base array pdata (heap st')) ∧ kept st st'
  | Undefined => True
  end.
Proof.
  intros Hrun Hinv. unfold build_levels, bind at 1, of_option in Hrun.
  destruct cached_tiff as [tiff|]; cbn [ret fail] in Hrun;
    [|injection Hrun as <- <-; split; [by eexists|apply kept_refl]].
  unfold bind at 1, _openslide_tifflike_get_buffer, of_option in Hrun.
  destruct (tifflike_buffer tl 0%nat TIFFTAG_XMLPACKET) as [xml|];
    cbn [ret fail] in Hrun;
    [|injection Hrun as <- <-; split; [by eexists|apply kept_refl]].
  unfold bind at 1 in Hrun. rewrite parse_initial_xml_run in Hrun.
  destruct (xmlReadMemory env xml) as [root|];
    [|injection Hrun as <- <-; split; [by eexists|apply kept_refl]].
  destruct (String.eqb (node_name root) XML_ROOT_TAG);
    [|injection Hrun as <- <-; split; [by eexists|apply kept_refl]].
  set (st1 := upd_osr (with_properties (scaninfo_properties env root)) st) in *.
  assert (Hk1 : kept st st1) by apply kept_with_properties.
  unfold bind at 1 in Hrun.
  destruct (walk env array 0%nat (tiff_first tiff) (tiff_next tiff) 0%nat st1)
    as [[[tn_dir current]|e|] st2] eqn:Hwalk;
    destruct (walk_spec env base array _ _ _ _ _ _ _ _ Hwalk Hinv) as (Hk2 & Hr).
  2: { injection Hrun as <- <-. split; [done|]. exact (kept_trans _ _ _ Hk1 Hk2). }
  2: { by injection Hrun as <- <-. }
  destruct Hr as ([pdata Hinv2] & Htn & Hcur).
  assert (Hk12 := kept_trans _ _ _ Hk1 Hk2).
  unfold bind at 1, _openslide_tiff_set_dir in Hrun.
  assert (Hsetdir : ∀ k : tdir_t → M unit,
    (if (tn_dir =? current)%nat then ret current
     else if TIFFSetDirectory env tiff tn_dir then ret tn_dir
          else fail ErrSetDir) st2 =
    if (tn_dir =? current)%nat || TIFFSetDirectory env tiff tn_dir
    then (Ok tn_dir, st2) else (Fail ErrSetDir, st2)).
  { intros _. destruct (Nat.eqb_spec tn_dir current) as [->|_]; [done|].
    simpl. by destruct (TIFFSetDirectory env tiff tn_dir). }
  rewrite (Hsetdir (fun _ => ret tt)) in Hrun. clear Hsetdir.
  destruct ((tn_dir =? current)%nat || TIFFSetDirectory env tiff tn_dir);
    [|injection Hrun as <- <-; split; [by eexists|done]].
  unfold bind at 1 in Hrun. rewrite add_associated_image_run in Hrun.
  destruct (associated_image_readable env tn_dir);
    [|injection Hrun as <- <-; split; [by eexists|done]].
  set (st3 := upd_osr (with_associated_images
                (insert "thumbnail" {| ai_dir := tn_dir |})) st2) in *.
  assert (Hk3 : kept st st3).
  { exact (kept_trans _ _ _ Hk12 (kept_with_associated_images _ _)). }
  unfold bind at 1, g_ptr_array_sort, bind at 1 in Hrun.
  rewrite (g_ptr_array_pdata_run array pdata st3) in Hrun
    by exact (inv_array _ _ _ _ Hinv2).
  unfold set_heap in Hrun.
  assert (Hinv4 := walk_inv_perm base array pdata
            (stable_sort width_compare pdata) (heap st2)
            ltac:(symmetry; apply stable_sort_perm) Hinv2).
  set (st4 := upd_heap (insert array
                (ObjPtrArray (stable_sort width_compare pdata))) st3) in *.
  unfold bind at 1 in Hrun.
  rewrite (g_ptr_array_pdata_run array (stable_sort width_compare pdata) st4)
    in Hrun by apply lookup_insert_eq.
  rewrite pdata_index_last in Hrun by exact (inv_len _ _ _ _ Hinv4).
  unfold bind at 1 in Hrun.
  destruct (last (stable_sort width_compare pdata)) as [top|] eqn:Hlast;
    [|by injection Hrun as <- <-].
  cbn [ret] in Hrun.
  unfold _openslide_tifflike_init_properties_and_hash in Hrun.
  destruct (level_hashable env tl (dir (tiffl top)));
    [|injection Hrun as <- <-; split; [by eexists|exact Hk3]].
  unfold bind, set_quickhash1, set_osr in Hrun. injection Hrun as <- <-.
  exists tiff, pdata, top. split; [done|]. split; [exact Hinv4|].
  split; [done|]. destruct Hk3 as (Hh & Hq & Hc & Hd). simpl.
  split; [by rewrite <- Hq|]. split.
  { rewrite lookup_insert_eq. by rewrite Htn. }
  split; [exact Hh|]. done.
Qed.

End Open.

(** ** The run of [optra_open] as a whole *)

Section OpenRun.

Context (env : environment).

(** What a run of [optra_open] amounts to: on success the sorted array is
    installed and its last level was fed to the fingerprint; on failure the
    heap is back to what it was. *)
Lemma optra_open_spec (filename : string) (tl : _openslide_tifflike)
  (st st' : state) (r : result unit) :
  optra_open env filename tl st = (r, st') →
  match r with
  | Ok _ =>
      ∃ tiff pdata top,
        TIFFOpen env filename = Some tiff ∧
        osr_levels (osr st') = Some (stable_sort width_compare pdata) ∧
        osr_level_count (osr st')
          = to_int32 (Z.of_nat (length (stable_sort width_compare pdata))) ∧
        last (stable_sort width_compare pdata) = Some top ∧
        quickhash1 st' = (quickhash1 st ++ [(dir (tiffl top), 0%nat)])%list ∧
        osr_associated_images (osr st') !! "thumbnail"
          = Some {| ai_dir := last_candidate 0%nat (tiff_dirs tiff) 0%nat |} ∧
        osr_levels (osr st) = None ∧ osr_data (osr st) = None ∧
        osr_ops (osr st') = Some optra_ops ∧
        osr_cache (osr st') = osr_cache (osr st) ∧
        cr st' = cr st ∧ decoded st' = decoded st
  | Fail _ => heap st' = heap st ∧ kept st st'
  | Undefined => True
  end.
Proof.
  intros Hrun. unfold optra_open, bind at 1, g_ptr_array_new in Hrun.
  rewrite alloc_run in Hrun.
  assert (Harr0 : heap st !! fresh (dom (heap st)) = None) by apply fresh_lookup.
  set (array := fresh (dom (heap st))) in *.
  set (st1 := upd_heap (insert array (ObjPtrArray [])) st) in *.
  unfold bind at 1, _openslide_tiffcache_create in Hrun. rewrite alloc_run in Hrun.
  assert (Htc1 : heap st1 !! fresh (dom (heap st1)) = None) by apply fresh_lookup.
  set (tcp := fresh (dom (heap st1))) in *.
  set (st2 := upd_heap (insert tcp (ObjTiffcache filename 0 0)) st1) in *.
  assert (Hne : tcp ≠ array).
  { intros Heq. rewrite Heq in Htc1. simpl in Htc1.
    by rewrite lookup_insert_eq in Htc1. }
  assert (Htc0 : heap st !! tcp = None).
  { simpl in Htc1. by rewrite lookup_insert_ne in Htc1. }
  unfold bind at 1, _openslide_tiffcache_get, bind at 1, get_heap in Hrun.
  assert (Hlk : heap st2 !! tcp = Some (ObjTiffcache filename 0 0))
    by apply lookup_insert_eq.
  rewrite Hlk in Hrun.
  (* the state the build starts from, whether the file opened or not *)
  assert (Hstart : ∃ (sb : state) (cached_tiff : option TIFF)
                     (checked_out pooled : nat),
    cached_tiff = TIFFOpen env filename ∧
    kept st sb ∧
    heap sb !! tcp = Some (ObjTiffcache filename checked_out pooled) ∧
    heap sb !! array = Some (ObjPtrArray []) ∧
    (∀ p, p ≠ tcp → p ≠ array → heap sb !! p = heap st !! p) ∧
    (let! _ := on_failure (build_levels env array cached_tiff tl)
                          (FAIL array cached_tiff tcp) in
     let! pdata := g_ptr_array_pdata array in
     let level_count := to_int32 (Z.of_nat (length pdata)) in
     let! levels := g_ptr_array_free array false in
     let! data := alloc ObjOpsData in
     let! o := get_osr in
     do! g_assert (bool_decide (osr_data o = None)) in
     do! g_assert (bool_decide (osr_levels o = None)) in
     do! set_osr (install levels level_count {| data_ptr := data; tc := tcp |}) in
     _openslide_cached_tiff_put tcp cached_tiff) sb = (r, st')).
  { destruct (TIFFOpen env filename) as [tiff|] eqn:Hopen.
    - unfold bind at 1, set_heap in Hrun. cbn [ret] in Hrun.
      eexists _, (Some tiff), _, _. split; [done|].
      split; [|split; [|split; [|split; [|exact Hrun]]]].
      + by repeat split.
      + simpl. apply lookup_insert_eq.
      + simpl. rewrite !lookup_insert_ne by done. apply lookup_insert_eq.
      + intros p Hp Hp'. simpl. by rewrite !lookup_insert_ne.
    - cbn [ret] in Hrun. eexists _, None, _, _. split; [done|].
      split; [|split; [|split; [|split; [|exact Hrun]]]].
      + by repeat split.
      + simpl. apply lookup_insert_eq.
      + simpl. rewrite lookup_insert_ne by done. apply lookup_insert_eq.
      + intros p Hp Hp'. simpl. by rewrite !lookup_insert_ne. }
  clear Hrun.
  destruct Hstart as (sb & cached_tiff & checked_out & pooled &
                      Hcached & Hkb & Htcb & Harrb & Hframeb & Hrun).
  assert (Hinv := walk_inv_start (heap sb) array Harrb).
  unfold bind at 1, on_failure in Hrun.
  destruct (build_levels env array cached_tiff tl sb) as [[[]|e|] s1] eqn:Hbuild;
    pose proof (build_levels_spec env _ _ _ _ _ _ _ Hbuild Hinv) as Hspec.
  - (* the build went through *)
    destruct Hspec as (tiff & pdata & top & -> & Hinv1 & Hlast & Hq & Hthumb
                       & Hh & Hc & Hd).
    unfold bind at 1 in Hrun.
    rewrite (g_ptr_array_pdata_run _ _ _ (inv_array _ _ _ _ Hinv1)) in Hrun.
    unfold bind at 1, g_ptr_array_free, bind at 1 in Hrun.
    rewrite (g_ptr_array_pdata_run _ _ _ (inv_array _ _ _ _ Hinv1)) in Hrun.
    cbn [ret] in Hrun. unfold bind at 1 in Hrun. rewrite alloc_run in Hrun.
    unfold bind at 1, get_osr in Hrun. simpl osr in Hrun.
    unfold bind at 1, g_assert in Hrun.
    destruct (bool_decide_reflect (osr_data (osr s1) = None)) as [Hdata|_];
      [|by injection Hrun as <- <-].
    cbn [ret] in Hrun. unfold bind at 1 in Hrun.
    destruct (bool_decide_reflect (osr_levels (osr s1) = None)) as [Hlevels|_];
      [|by injection Hrun as <- <-].
    cbn [ret] in Hrun. unfold bind at 1, set_osr in Hrun.
    unfold _openslide_cached_tiff_put, bind, get_heap in Hrun.
    cbn [heap upd_osr upd_heap] in Hrun.
    assert (Htcl : tcp ∉ level_locs (stable_sort width_compare pdata)).
    { intros Hin. apply (inv_new _ _ _ _ Hinv1) in Hin. by rewrite Hin in Htcb. }
    assert (Htc1' : heap s1 !! tcp
                    = Some (ObjTiffcache filename checked_out pooled)).
    { by rewrite (inv_frame _ _ _ _ Hinv1). }
    rewrite lookup_insert_ne in Hrun; cycle 1.
    { intros Heq. pose proof (fresh_lookup (heap s1)) as Hfresh.
      rewrite Heq in Hfresh. by rewrite Htc1' in Hfresh. }
    rewrite Htc1' in Hrun. injection Hrun as <- <-.
    destruct Hkb as ((Hl & Hlc & Hdt & Hop & Hca) & Hqb & Hcb & Hdb).
    destruct Hh as (Hl' & Hlc' & Hdt' & Hop' & Hca').
    exists tiff, pdata, top. simpl.
    split; [done|]. split; [done|]. split; [done|]. split; [done|].
    split; [by rewrite Hq, Hqb|]. split; [done|].
    split; [by rewrite <- Hl, <- Hl'|]. split; [by rewrite <- Hdt, <- Hdt'|].
    split; [done|]. split; [by rewrite Hca', Hca|].
    split; [by rewrite Hc, Hcb|]. by rewrite Hd, Hdb.
  - (* goto FAIL *)
    destruct Hspec as ([pdata Hinv1] & Hk1).
    destruct (FAIL_run _ _ _ _ cached_tiff s1 _ _ _ Hinv1 Htcb Hne)
      as (s2 & Hfail & Hosr & Hk2 & Hheap).
    rewrite Hfail in Hrun. injection Hrun as <- <-. split.
    + apply map_eq. intros p. rewrite Hheap.
      destruct (decide (p = tcp)) as [->|?]; [done|].
      destruct (decide (p = array)) as [->|?]; [done|]. by apply Hframeb.
    + exact (kept_trans _ _ _ Hkb (kept_trans _ _ _ Hk1 Hk2)).
  - by injection Hrun as <- <-.
Qed.

End OpenRun.

(** ** Properties of [optra_open] *)

Lemma last_candidate_none (dirs : list directory) :
  ∀ (current tn_dir : tdir_t),
  (∀ j later, dirs !! j = Some later →
              records_thumbnail (current + j)%nat later = false) →
  last_candidate current dirs tn_dir = tn_dir.
Proof.
  induction dirs as [|d dirs IH]; intros current tn_dir Hnone; [done|].
  simpl. pose proof (Hnone 0%nat d eq_refl) as H0.
  rewrite Nat.add_0_r in H0. rewrite H0. apply IH.
  intros j later Hj.
  replace (S current + j)%nat with (current + S j)%nat by lia.
  by apply Hnone.
Qed.

Lemma last_candidate_last (dirs : list directory) :
  ∀ (current tn_dir : tdir_t) (i : nat) (contents : directory),
  dirs !! i = Some contents →
  records_thumbnail (current + i)%nat contents = true →
  (∀ j later, (i < j)%nat → dirs !! j = Some later →
              records_thumbnail (current + j)%nat later = false) →
  last_candidate current dirs tn_dir = (current + i)%nat.
Proof.
  induction dirs as [|d dirs IH]; intros current tn_dir i contents Hi Hrec Hlater;
    [done|].
  simpl. destruct i as [|i].
  - simpl in Hi. injection Hi as ->. rewrite Nat.add_0_r in *. rewrite Hrec.
    apply last_candidate_none. intros j later Hj.
    replace (S current + j)%nat with (current + S j)%nat by lia.
    apply Hlater; [lia|done].
  - simpl in Hi.
    replace (current + S i)%nat with (S current + i)%nat in * by lia.
    apply (IH _ _ _ contents); [done|done|].
    intros j later Hj Hl.
    replace (S current + j)%nat with (current + S j)%nat by lia.
    apply (Hlater (S j)); [lia|done].
Qed.

Section OpenProperties.

Context (env : environment).

(** A directory that the loop body gets through leaves [tn_dir] at its own
    index when it is a reduced image above the threshold, and as it was
    otherwise. *)
Lemma walk_directory_candidate (array : loc) (current : tdir_t)
  (contents : directory) (tn_dir tn_dir' : tdir_t) (st st' : state) :
  walk_directory env array current contents tn_dir st = (Ok tn_dir', st') →
  tn_dir' = if records_thumbnail current contents then current else tn_dir.
Proof.
  unfold walk_directory, bind at 1. intros Hrun.
  destruct (classify_directory env current contents tn_dir st)
    as [[[tn_dir1|]|e|] st1] eqn:Hclass; try done;
    apply classify_directory_spec in Hclass as (_ & _ & Hr).
  - unfold bind in Hrun.
    destruct (add_level env array current contents st1) as [[[]|e|] st2];
      try done.
    by injection Hrun as <- <-.
  - injection Hrun as <- <-. by rewrite Hr.
Qed.

(** C1.  After a successful [optra_open] the installed levels are sorted by
    non-increasing width, and what was fed to the fingerprint is the
    directory of the last level of that sequence, a level of the smallest
    width, together with directory 0. *)
Theorem optra_open_hashes_tail_level (filename : string)
  (tl : _openslide_tifflike) (st st' : state) :
  optra_open env filename tl st = (Ok tt, st') →
  ∃ levels top,
    osr_levels (osr st') = Some levels ∧
    (∀ i j a b, (i < j)%nat → levels !! i = Some a → levels !! j = Some b →
                image_w (tiffl b) ≤ image_w (tiffl a)) ∧
    last levels = Some top ∧
    (∀ l, l ∈ levels → image_w (tiffl top) ≤ image_w (tiffl l)) ∧
    quickhash1 st' = (quickhash1 st ++ [(dir (tiffl top), 0%nat)])%list.
Proof.
  intros Hrun. apply optra_open_spec in Hrun
    as (tiff & pdata & top & _ & Hlevels & _ & Hlast & Hq & _).
  exists (stable_sort width_compare pdata), top.
  pose proof (stable_sort_sorted pdata) as Hsorted.
  split; [done|]. split.
  { intros i j a b. apply (StronglySorted_lookup wider). exact Hsorted. }
  split; [done|]. split; [|done].
  intros l Hl.
  apply (StronglySorted_last wider (stable_sort width_compare pdata) l top);
    [|done..].
  intros y. unfold wider. lia.
Qed.

(** C3.  Every directory the loop body gets through that is tiled, not the
    first, flagged as reduced image and larger than 500 pixels in width and
    in height, overwrites [tn_dir] with its index; after a successful
    [optra_open] the associated image "thumbnail" is the value [tn_dir] has
    after the last directory, which is the index of the last such directory
    when there is one. *)
Theorem optra_open_thumbnail_is_last_candidate (filename : string)
  (tl : _openslide_tifflike) (tiff : TIFF) (st st' : state) :
  TIFFOpen env filename = Some tiff →
  optra_open env filename tl st = (Ok tt, st') →
  (∀ array current contents tn_dir tn_dir' s s',
     walk_directory env array current contents tn_dir s = (Ok tn_dir', s') →
     records_thumbnail current contents = true → tn_dir' = current) ∧
  osr_associated_images (osr st') !! "thumbnail"
    = Some {| ai_dir := last_candidate 0%nat (tiff_dirs tiff) 0%nat |} ∧
  (∀ i contents,
     tiff_dirs tiff !! i = Some contents →
     records_thumbnail i contents = true →
     (∀ j later, (i < j)%nat → tiff_dirs tiff !! j = Some later →
                 records_thumbnail j later = false) →
     osr_associated_images (osr st') !! "thumbnail" = Some {| ai_dir := i |}).
Proof.
  intros Hopen Hrun. apply optra_open_spec in Hrun
    as (tiff' & pdata & top & Hopen' & _ & _ & _ & _ & Hthumb & _).
  rewrite Hopen in Hopen'. injection Hopen' as <-.
  split; [|split; [done|]].
  - intros array current contents tn_dir tn_dir' s s' Hdir Hrec.
    apply walk_directory_candidate in Hdir. by rewrite Hrec in Hdir.
  - intros i contents Hi Hrec Hlater. rewrite Hthumb. do 2 f_equal.
    by apply (last_candidate_last _ 0%nat 0%nat i contents).
Qed.

(** C6.  After a successful [optra_open] the installed level sequence, of
    the installed level count, is ordered by non-increasing image width: for
    indices i < j the width at j is at most the width at i. *)
Theorem optra_open_levels_sorted (filename : string)
  (tl : _openslide_tifflike) (st st' : state) :
  optra_open env filename tl st = (Ok tt, st') →
  ∃ levels,
    osr_levels (osr st') = Some levels ∧
    osr_level_count (osr st') = to_int32 (Z.of_nat (length levels)) ∧
    ∀ i j a b, (i < j)%nat → levels !! i = Some a → levels !! j = Some b →
               image_w (tiffl b) ≤ image_w (tiffl a).
Proof.
  intros Hrun. apply optra_open_spec in Hrun
    as (tiff & pdata & top & _ & Hlevels & Hcount & _).
  exists (stable_sort width_compare pdata). split; [done|]. split; [done|].
  intros i j a b Hij Ha Hb.
  exact (StronglySorted_lookup wider _ i j a b (stable_sort_sorted pdata)
           Hij Ha Hb).
Qed.

End OpenProperties.

(** ** A walk that yields no level *)

Section NoLevels.

Context (env : environment).

Lemma classify_directory_skipped (current : tdir_t) (contents : directory)
  (tn_dir : tdir_t) (st : state) :
  skipped env current contents = true →
  ∃ st', classify_directory env current contents tn_dir st = (Ok None, st') ∧
         heap st' = heap st.
Proof.
  unfold skipped, classify_directory. intros Hskip.
  destruct (dir_tiled contents); simpl in *; [|by eexists].
  destruct (current =? 0)%nat; simpl in *; [done|].
  destruct (dir_subfiletype contents) as [subfiletype|]; [|by eexists].
  destruct (Z.land subfiletype FILETYPE_REDUCEDIMAGE =? 0); simpl in *; [|done].
  apply andb_prop in Hskip as [Hdesc Hreadable].
  apply bool_decide_eq_true_1 in Hdesc as [image_desc Hdesc].
  rewrite Hdesc. unfold bind, of_option. cbn [ret].
  rewrite add_associated_image_run, Hreadable. by eexists.
Qed.

Lemma walk_all_skipped (array : loc) (rest : list directory) :
  ∀ (current : tdir_t) (contents : directory) (tn_dir : tdir_t) (st : state),
  all_skipped env current (contents :: rest) = true →
  ∃ st', walk env array current contents rest tn_dir st
           = (Ok (tn_dir, (current + length rest)%nat), st') ∧
         heap st' = heap st.
Proof.
  induction rest as [|next rest IH]; intros current contents tn_dir st Hall;
    simpl in Hall; apply andb_prop in Hall as [Hskip Hall];
    destruct (classify_directory_skipped current contents tn_dir st Hskip)
      as (st1 & Hclass & Hheap);
    simpl; unfold bind at 1, walk_directory, bind at 1; rewrite Hclass;
    cbn [ret].
  - exists st1. by rewrite Nat.add_0_r.
  - destruct (IH (S current) next tn_dir st1 Hall) as (st2 & Hwalk & Hheap2).
    exists st2. rewrite Hwalk. split; [|congruence].
    do 3 f_equal. simpl. lia.
Qed.

Lemma set_dir_run (tiff : TIFF) (current d : tdir_t) (st : state) :
  _openslide_tiff_set_dir env tiff current d st =
  if (d =? current)%nat || TIFFSetDirectory env tiff d then (Ok d, st)
  else (Fail ErrSetDir, st).
Proof.
  unfold _openslide_tiff_set_dir.
  destruct (Nat.eqb_spec d current) as [->|_]; [done|].
  simpl. by destruct (TIFFSetDirectory env tiff d).
Qed.

Lemma build_levels_no_levels (array : loc) (tl : _openslide_tifflike)
  (tiff : TIFF) (xml : string) (root : xmlNode) (st : state) :
  heap st !! array = Some (ObjPtrArray []) →
  tifflike_buffer tl 0%nat TIFFTAG_XMLPACKET = Some xml →
  xmlReadMemory env xml = Some root →
  node_name root = XML_ROOT_TAG →
  all_skipped env 0%nat (tiff_dirs tiff) = true →
  tiff_next tiff = [] ∨ TIFFSetDirectory env tiff 0%nat = true →
  associated_image_readable env 0%nat = true →
  fst (build_levels env array (Some tiff) tl st) = Undefined.
Proof.
  intros Harr Hbuf Hparse Hroot Hall Hsetdir Hthumb.
  unfold build_levels, bind at 1, of_option. cbn [ret].
  unfold bind at 1, _openslide_tifflike_get_buffer, of_option. rewrite Hbuf.
  cbn [ret]. unfold bind at 1. rewrite parse_initial_xml_run, Hparse, Hroot.
  rewrite String.eqb_refl.
  set (st1 := upd_osr (with_properties (scaninfo_properties env root)) st).
  destruct (walk_all_skipped array (tiff_next tiff) 0%nat (tiff_first tiff)
              0%nat st1 Hall) as (st2 & Hwalk & Hheap).
  unfold bind at 1. rewrite Hwalk.
  unfold bind at 1. rewrite set_dir_run.
  assert (Hdir : (0 =? 0 + length (tiff_next tiff))%nat
                 || TIFFSetDirectory env tiff 0%nat = true).
  { destruct Hsetdir as [->| ->]; [done|]. apply orb_true_r. }
  rewrite Hdir. unfold bind at 1. rewrite add_associated_image_run, Hthumb.
  unfold bind at 1, g_ptr_array_sort, bind at 1.
  erewrite g_ptr_array_pdata_run by (simpl; rewrite Hheap; exact Harr).
  unfold set_heap. unfold bind at 1.
  erewrite g_ptr_array_pdata_run by (simpl; apply lookup_insert_eq).
  reflexivity.
Qed.

(** C10.  The read of [pdata[len - 1]], with the index computed in [guint]
    arithmetic and no check before it, is inside the array exactly when the
    array is not empty.  When the file opens, the packet parses, every
    directory is passed over without a level and the thumbnail registers,
    [optra_open] gets to that read with an empty array: the index is out of
    bounds. *)
Theorem optra_open_no_levels_out_of_bounds (filename : string)
  (tl : _openslide_tifflike) (tiff : TIFF) (xml : string) (root : xmlNode)
  (st : state) :
  TIFFOpen env filename = Some tiff →
  tifflike_buffer tl 0%nat TIFFTAG_XMLPACKET = Some xml →
  xmlReadMemory env xml = Some root →
  node_name root = XML_ROOT_TAG →
  all_skipped env 0%nat (tiff_dirs tiff) = true →
  tiff_next tiff = [] ∨ TIFFSetDirectory env tiff 0%nat = true →
  associated_image_readable env 0%nat = true →
  (∀ pdata : list level,
     pdata_index pdata (guint (Z.of_nat (length pdata) - 1)) = None
     ↔ pdata = []) ∧
  fst (optra_open env filename tl st) = Undefined.
Proof.
  intros Hopen Hbuf Hparse Hroot Hall Hsetdir Hthumb.
  split; [apply pdata_index_empty|].
  unfold optra_open, bind at 1, g_ptr_array_new. rewrite alloc_run.
  set (array := fresh (dom (heap st))).
  set (st1 := upd_heap (insert array (ObjPtrArray [])) st).
  unfold bind at 1, _openslide_tiffcache_create. rewrite alloc_run.
  assert (Htc1 : heap st1 !! fresh (dom (heap st1)) = None) by apply fresh_lookup.
  set (tcp := fresh (dom (heap st1))) in *.
  set (st2 := upd_heap (insert tcp (ObjTiffcache filename 0 0)) st1).
  assert (Hne : tcp ≠ array).
  { intros Heq. rewrite Heq in Htc1. simpl in Htc1.
    by rewrite lookup_insert_eq in Htc1. }
  unfold bind at 1, _openslide_tiffcache_get, bind at 1, get_heap.
  assert (Hlk : heap st2 !! tcp = Some (ObjTiffcache filename 0 0))
    by apply lookup_insert_eq.
  rewrite Hlk, Hopen. unfold bind at 1, set_heap. cbn [ret].
  unfold bind at 1, on_failure.
  match goal with
  | |- context [build_levels env array (Some tiff) tl ?s] =>
      pose proof (build_levels_no_levels array tl tiff xml root s) as Hbuild;
      destruct (build_levels env array (Some tiff) tl s) as [[[]|e|] s'];
      simpl in Hbuild
  end.
  - exfalso. assert (Ok () = Undefined :> result unit); [|done].
    apply Hbuild; try done.
    rewrite !lookup_insert_ne by done. apply lookup_insert_eq.
  - exfalso. assert (Fail e = Undefined :> result unit); [|done].
    apply Hbuild; try done.
    rewrite !lookup_insert_ne by done. apply lookup_insert_eq.
  - done.
Qed.

End NoLevels.

(** ** The sample slides, run *)

Lemma optra_open_hashes_tail_level_witness :
  let st' := snd (optra_open sample_env "slide.tif"
                    (sample_tifflike sample_packet) fresh_state) in
  ∃ levels top,
    osr_levels (osr st') = Some levels ∧
    (∀ i j a b, (i < j)%nat → levels !! i = Some a → levels !! j = Some b →
                image_w (tiffl b) ≤ image_w (tiffl a)) ∧
    last levels = Some top ∧
    (∀ l, l ∈ levels → image_w (tiffl top) ≤ image_w (tiffl l)) ∧
    quickhash1 st' = (quickhash1 fresh_state ++ [(dir (tiffl top), 0%nat)])%list.
Proof.
  intros st'.
  apply (optra_open_hashes_tail_level sample_env "slide.tif"
           (sample_tifflike sample_packet) fresh_state st').
  vm_compute. reflexivity.
Defined.

(** On the sample slide the level from directory 1 (300 pixels wide) is the
    one that is hashed. *)
Example sample_slide_hashes_directory_1 :
  quickhash1 (snd (optra_open sample_env "slide.tif"
                     (sample_tifflike sample_packet) fresh_state))
  = [(1%nat, 0%nat)].
Proof. vm_compute. reflexivity. Qed.

(** C2 as stated does not hold: on a slide whose third directory has an
    unsupported compression the build fails, and the slide handle is not what
    it was, for the properties of the XML packet and the label image of the
    second directory are on it. *)
Lemma optra_open_failure_keeps_properties :
  let run := optra_open sample_env "label-unsupported.tif"
               (sample_tifflike sample_packet) fresh_state in
  fst run = Fail (ErrUnsupportedCompression 99) ∧
  osr (snd run) ≠ osr fresh_state ∧
  osr_properties (osr (snd run)) !! "optra.Magnification" = Some "40" ∧
  osr_properties (osr fresh_state) !! "optra.Magnification" = None ∧
  osr_associated_images (osr (snd run)) !! "label" = Some {| ai_dir := 1%nat |} ∧
  osr_associated_images (osr fresh_state) !! "label" = None.
Proof.
  intros run.
  assert (Hprop : osr_properties (osr (snd run)) !! "optra.Magnification"
                  = Some "40") by (vm_compute; reflexivity).
  split; [vm_compute; reflexivity|]. split.
  { intros Heq. rewrite Heq in Hprop. discriminate Hprop. }
  split; [exact Hprop|]. split; [reflexivity|].
  split; vm_compute; reflexivity.
Qed.

(** The same on a slide whose only directory has no codec: the properties of
    the packet stay although no directory got through. *)
Example optra_open_unsupported_first_directory :
  let run := optra_open sample_env "unsupported.tif"
               (sample_tifflike sample_packet) fresh_state in
  fst run = Fail (ErrUnsupportedCompression 99) ∧
  osr_properties (osr (snd run)) !! "optra.PixelResolution" = Some "0.25".
Proof. split; vm_compute; reflexivity. Qed.

Lemma optra_open_thumbnail_is_last_candidate_witness :
  let st' := snd (optra_open sample_env "slide.tif"
                    (sample_tifflike sample_packet) fresh_state) in
  tiff_dirs sample_slide !! 2%nat = Some (reduced_directory 600 600) ∧
  tiff_dirs sample_slide !! 5%nat = Some (reduced_directory 800 800) ∧
  osr_associated_images (osr st') !! "thumbnail" = Some {| ai_dir := 5%nat |}.
Proof.
  intros st'. split; [reflexivity|]. split; [reflexivity|].
  apply (optra_open_thumbnail_is_last_candidate sample_env "slide.tif"
           (sample_tifflike sample_packet) sample_slide fresh_state st').
  - reflexivity.
  - vm_compute. reflexivity.
Defined.

Lemma optra_open_levels_sorted_witness :
  let st' := snd (optra_open sample_env "slide.tif"
                    (sample_tifflike sample_packet) fresh_state) in
  ∃ levels,
    osr_levels (osr st') = Some levels ∧
    osr_level_count (osr st') = to_int32 (Z.of_nat (length levels)) ∧
    ∀ i j a b, (i < j)%nat → levels !! i = Some a → levels !! j = Some b →
               image_w (tiffl b) ≤ image_w (tiffl a).
Proof.
  intros st'.
  apply (optra_open_levels_sorted sample_env "slide.tif"
           (sample_tifflike sample_packet) fresh_state st').
  vm_compute. reflexivity.
Defined.

Example sample_slide_levels :
  (map (fun l => (dir (tiffl l), image_w (tiffl l))) <$>
   osr_levels (osr (snd (optra_open sample_env "slide.tif"
                           (sample_tifflike sample_packet) fresh_state))))
  = Some [(0%nat, 4000); (5%nat, 800); (2%nat, 600); (4%nat, 400); (1%nat, 300)].
Proof. vm_compute. reflexivity. Qed.

Lemma optra_open_no_levels_out_of_bounds_witness :
  (∀ pdata : list level,
     pdata_index pdata (guint (Z.of_nat (length pdata) - 1)) = None
     ↔ pdata = []) ∧
  fst (optra_open sample_env "stripped.tif" (sample_tifflike sample_packet)
         fresh_state) = Undefined.
Proof.
  apply (optra_open_no_levels_out_of_bounds sample_env "stripped.tif"
           (sample_tifflike sample_packet) sample_stripped sample_packet
           sample_scaninfo fresh_state).
  - reflexivity.
  - vm_compute. reflexivity.
  - reflexivity.
  - reflexivity.
  - reflexivity.
  - left. reflexivity.
  - reflexivity.
Defined.

(** * Further properties *)

(** ** [read_tile], continued *)

Section ReadTileMore.

Context (env : environment).



End ReadTileMore.



(** ** [parse_initial_xml] and [optra_detect], continued *)

Lemma copy_attribute_other (scaninfo : xmlNode) (props : gmap string string)
  (attr : xmlAttr) (key : string) :
  String.prefix "optra." key = false →
  copy_attribute scaninfo props attr !! key = props !! key.
Proof.
  intros Hkey. unfold copy_attribute.
  destruct (xmlGetNoNsProp scaninfo (attr_name attr)) as [value|]; [|done].
  destruct (negb (String.eqb value EmptyString)); [|done].
  apply lookup_insert_ne. intros <-.
  destruct (attr_name attr); cbn in Hkey; discriminate Hkey.
Qed.

Lemma copy_attributes_other (scaninfo : xmlNode) (attrs : list xmlAttr)
  (props : gmap string string) (key : string) :
  String.prefix "optra." key = false →
  foldl (copy_attribute scaninfo) props attrs !! key = props !! key.
Proof.
  intros Hkey. revert props. induction attrs as [|a attrs IH]; intros props;
    [done|].
  simpl. by rewrite IH, copy_attribute_other.
Qed.

Lemma duplicate_prop_map_lookup (conv : string → option string)
  (src dest : string) (props : gmap string string) (key : string) :
  duplicate_prop_map conv src dest props !! key =
  if decide (key = dest) then
    match props !! src ≫= conv with
    | Some text => Some text
    | None => props !! key
    end
  else props !! key.
Proof.
  unfold duplicate_prop_map. destruct (props !! src ≫= conv) as [text|].
  - destruct (decide (key = dest)) as [->|Hne].
    + apply lookup_insert_eq.
    + by apply lookup_insert_ne.
  - by destruct (decide (key = dest)).
Qed.

Section ParseMore.

Context (env : environment).

(** X5.  [parse_initial_xml] never aborts and touches nothing but the
    properties: heap, levels, level count, private data, associated images
    and cache are as before.  When it fails the whole state is as before,
    and the error is that of the parser or that of the root check. *)
Theorem parse_initial_xml_failure_unchanged (xml : string) (st st' : state)
  (r : result unit) :
  parse_initial_xml env xml st = (r, st') →
  r ≠ Undefined ∧
  heap st' = heap st ∧
  osr_levels (osr st') = osr_levels (osr st) ∧
  osr_level_count (osr st') = osr_level_count (osr st) ∧
  osr_data (osr st') = osr_data (osr st) ∧
  osr_associated_images (osr st') = osr_associated_images (osr st) ∧
  osr_cache (osr st') = osr_cache (osr st) ∧
  match r with
  | Fail e => st' = st ∧ (e = ErrXmlParse ∨ e = ErrUnrecognizedRoot)
  | _ => True
  end.
Proof.
  rewrite parse_initial_xml_run.
  destruct (xmlReadMemory env xml) as [root|];
    [|intros [= <- <-]; repeat split; auto; done].
  destruct (String.eqb (node_name root) XML_ROOT_TAG);
    intros [= <- <-]; repeat split; auto; done.
Qed.

(** X6.  A successful [parse_initial_xml] writes only keys that start with
    "optra." and the three standard keys (objective power, microns per
    pixel in x and in y): every other property is as before. *)
Theorem parse_initial_xml_other_keys (xml : string) (st st' : state)
  (key : string) :
  parse_initial_xml env xml st = (Ok tt, st') →
  String.prefix "optra." key = false →
  key ≠ OPENSLIDE_PROPERTY_NAME_OBJECTIVE_POWER →
  key ≠ OPENSLIDE_PROPERTY_NAME_MPP_X →
  key ≠ OPENSLIDE_PROPERTY_NAME_MPP_Y →
  osr_properties (osr st') !! key = osr_properties (osr st) !! key.
Proof.
  rewrite parse_initial_xml_run. intros Hrun Hkey Hop Hx Hy.
  destruct (xmlReadMemory env xml) as [root|]; [|done].
  destruct (String.eqb (node_name root) XML_ROOT_TAG); [|done].
  injection Hrun as <-. simpl. unfold scaninfo_properties.
  rewrite !duplicate_prop_map_lookup, !decide_False by done.
  by apply copy_attributes_other.
Qed.

(** X7.  After a successful [parse_initial_xml] the objective power is the
    integer text of the property "optra.Magnification" when there is one
    and it converts, and what it was before otherwise; both microns-per-pixel
    properties are derived in the same way from "optra.PixelResolution". *)
Theorem parse_initial_xml_derived_properties (xml : string) (st st' : state) :
  parse_initial_xml env xml st = (Ok tt, st') →
  let props := osr_properties (osr st) in
  let props' := osr_properties (osr st') in
  props' !! OPENSLIDE_PROPERTY_NAME_OBJECTIVE_POWER =
    match props' !! "optra.Magnification" ≫= int_prop_text env with
    | Some text => Some text
    | None => props !! OPENSLIDE_PROPERTY_NAME_OBJECTIVE_POWER
    end ∧
  props' !! OPENSLIDE_PROPERTY_NAME_MPP_X =
    match props' !! "optra.PixelResolution" ≫= double_prop_text env with
    | Some text => Some text
    | None => props !! OPENSLIDE_PROPERTY_NAME_MPP_X
    end ∧
  props' !! OPENSLIDE_PROPERTY_NAME_MPP_Y =
    match props' !! "optra.PixelResolution" ≫= double_prop_text env with
    | Some text => Some text
    | None => props !! OPENSLIDE_PROPERTY_NAME_MPP_Y
    end.
Proof.
  rewrite parse_initial_xml_run. intros Hrun.
  destruct (xmlReadMemory env xml) as [root|]; [|done].
  destruct (String.eqb (node_name root) XML_ROOT_TAG); [|done].
  injection Hrun as <-. simpl. unfold scaninfo_properties.
  set (looped := foldl (copy_attribute root) (osr_properties (osr st))
                   (node_properties root)).
  assert (Hl : ∀ key, String.prefix "optra." key = false →
                      looped !! key = osr_properties (osr st) !! key)
    by (intros; by apply copy_attributes_other).
  set (p1 := duplicate_prop_map (int_prop_text env) "optra.Magnification"
               OPENSLIDE_PROPERTY_NAME_OBJECTIVE_POWER looped).
  set (p2 := duplicate_prop_map (double_prop_text env) "optra.PixelResolution"
               OPENSLIDE_PROPERTY_NAME_MPP_X p1).
  set (p3 := duplicate_prop_map (double_prop_text env) "optra.PixelResolution"
               OPENSLIDE_PROPERTY_NAME_MPP_Y p2).
  assert (H1 : ∀ key, key ≠ OPENSLIDE_PROPERTY_NAME_OBJECTIVE_POWER →
                      p1 !! key = looped !! key).
  { intros key Hne. unfold p1. by rewrite duplicate_prop_map_lookup, decide_False. }
  assert (H2 : ∀ key, key ≠ OPENSLIDE_PROPERTY_NAME_MPP_X → p2 !! key = p1 !! key).
  { intros key Hne. unfold p2. by rewrite duplicate_prop_map_lookup, decide_False. }
  assert (H3 : ∀ key, key ≠ OPENSLIDE_PROPERTY_NAME_MPP_Y → p3 !! key = p2 !! key).
  { intros key Hne. unfold p3. by rewrite duplicate_prop_map_lookup, decide_False. }
  assert (Hmag : p3 !! "optra.Magnification" = looped !! "optra.Magnification").
  { rewrite H3, H2, H1 by discriminate. done. }
  assert (Hres : p3 !! "optra.PixelResolution" = looped !! "optra.PixelResolution").
  { rewrite H3, H2, H1 by discriminate. done. }
  assert (Hres1 : p1 !! "optra.PixelResolution" = looped !! "optra.PixelResolution")
    by (by rewrite H1 by discriminate).
  assert (Hres2 : p2 !! "optra.PixelResolution" = looped !! "optra.PixelResolution")
    by (by rewrite H2, H1 by discriminate).
  rewrite Hmag, Hres. split; [|split].
  - rewrite H3, H2 by discriminate. unfold p1.
    rewrite duplicate_prop_map_lookup, decide_True by done.
    by rewrite (Hl OPENSLIDE_PROPERTY_NAME_OBJECTIVE_POWER) by reflexivity.
  - rewrite H3 by discriminate. unfold p2 at 1.
    rewrite duplicate_prop_map_lookup, decide_True by done. rewrite Hres1.
    rewrite H1 by discriminate.
    by rewrite (Hl OPENSLIDE_PROPERTY_NAME_MPP_X) by reflexivity.
  - unfold p3 at 1.
    rewrite duplicate_prop_map_lookup, decide_True by done. rewrite Hres2.
    rewrite H2, H1 by discriminate.
    by rewrite (Hl OPENSLIDE_PROPERTY_NAME_MPP_Y) by reflexivity.
Qed.

(** X8.  A file that [optra_detect] accepts has an XML packet that
    [parse_initial_xml] gets through, from whatever state: detection and the
    first step of the open agree. *)
Theorem optra_detect_accepts_then_parse (filename : string)
  (tl : _openslide_tifflike) (st : state) :
  fst (optra_detect env filename (Some tl) st) = Ok tt →
  ∃ xml,
    tifflike_buffer tl 0%nat TIFFTAG_XMLPACKET = Some xml ∧
    ∀ st2, fst (parse_initial_xml env xml st2) = Ok tt.
Proof.
  rewrite optra_detect_run. simpl.
  destruct (negb (_openslide_tifflike_is_tiled tl 0%nat)); [done|].
  destruct (tifflike_buffer tl 0%nat TIFFTAG_XMLPACKET) as [xml|]; [|done].
  destruct (negb (strstr xml XML_ROOT_TAG)); [done|].
  destruct (xmlReadMemory env xml) as [root|] eqn:Hparse; [|done].
  destruct (String.eqb (node_name root) XML_ROOT_TAG) eqn:Hroot; [|done].
  intros _. exists xml. split; [done|]. intros st2.
  by rewrite parse_initial_xml_run, Hparse, Hroot.
Qed.

End ParseMore.

Lemma parse_initial_xml_failure_unchanged_witness :
  let st' := snd (parse_initial_xml sample_env sample_other_root_packet
                    fresh_state) in
  Fail ErrUnrecognizedRoot ≠ (Undefined : result unit) ∧
  heap st' = heap fresh_state ∧
  osr_levels (osr st') = osr_levels (osr fresh_state) ∧
  osr_level_count (osr st') = osr_level_count (osr fresh_state) ∧
  osr_data (osr st') = osr_data (osr fresh_state) ∧
  osr_associated_images (osr st') = osr_associated_images (osr fresh_state) ∧
  osr_cache (osr st') = osr_cache (osr fresh_state) ∧
  (st' = fresh_state ∧
   (ErrUnrecognizedRoot = ErrXmlParse ∨ ErrUnrecognizedRoot = ErrUnrecognizedRoot)).
Proof.
  intros st'.
  apply (parse_initial_xml_failure_unchanged sample_env sample_other_root_packet
           fresh_state st' (Fail ErrUnrecognizedRoot)).
  vm_compute. reflexivity.
Defined.

Lemma parse_initial_xml_other_keys_witness :
  let st := upd_osr (with_properties (insert "tiff.Make" "Optra")) fresh_state in
  osr_properties (osr (snd (parse_initial_xml sample_env sample_packet st)))
    !! "tiff.Make" = osr_properties (osr st) !! "tiff.Make".
Proof.
  intros st.
  apply (parse_initial_xml_other_keys sample_env sample_packet st).
  - vm_compute. reflexivity.
  - reflexivity.
  - discriminate.
  - discriminate.
  - discriminate.
Defined.

Lemma parse_initial_xml_derived_properties_witness :
  let props := osr_properties (osr fresh_state) in
  let props' := osr_properties
                  (osr (snd (parse_initial_xml sample_env sample_packet
                               fresh_state))) in
  props' !! OPENSLIDE_PROPERTY_NAME_OBJECTIVE_POWER =
    match props' !! "optra.Magnification" ≫= int_prop_text sample_env with
    | Some text => Some text
    | None => props !! OPENSLIDE_PROPERTY_NAME_OBJECTIVE_POWER
    end ∧
  props' !! OPENSLIDE_PROPERTY_NAME_MPP_X =
    match props' !! "optra.PixelResolution" ≫= double_prop_text sample_env with
    | Some text => Some text
    | None => props !! OPENSLIDE_PROPERTY_NAME_MPP_X
    end ∧
  props' !! OPENSLIDE_PROPERTY_NAME_MPP_Y =
    match props' !! "optra.PixelResolution" ≫= double_prop_text sample_env with
    | Some text => Some text
    | None => props !! OPENSLIDE_PROPERTY_NAME_MPP_Y
    end.
Proof.
  apply (parse_initial_xml_derived_properties sample_env sample_packet
           fresh_state).
  vm_compute. reflexivity.
Defined.

Lemma optra_detect_accepts_then_parse_witness :
  ∃ xml,
    tifflike_buffer (sample_tifflike sample_packet) 0%nat TIFFTAG_XMLPACKET
      = Some xml ∧
    ∀ st2, fst (parse_initial_xml sample_env xml st2) = Ok tt.
Proof.
  apply (optra_detect_accepts_then_parse sample_env "slide.tif"
           (sample_tifflike sample_packet) fresh_state).
  vm_compute. reflexivity.
Defined.

(** ** [width_compare], continued *)

(** X9.  [width_compare] returns -1, 0 or 1, is antisymmetric, is 0 exactly
    on equal widths and negative exactly when the first level is the wider:
    it is a comparison function for decreasing width. *)
Theorem width_compare_consistent (la lb : level) :
  (width_compare la lb = -1 ∨ width_compare la lb = 0 ∨ width_compare la lb = 1) ∧
  width_compare la lb = - width_compare lb la ∧
  (width_compare la lb = 0 ↔ image_w (tiffl la) = image_w (tiffl lb)) ∧
  (width_compare la lb < 0 ↔ image_w (tiffl lb) < image_w (tiffl la)) ∧
  (width_compare la lb ≤ 0 ↔ image_w (tiffl lb) ≤ image_w (tiffl la)).
Proof.
  unfold width_compare.
  destruct (Z.gtb_spec (image_w (tiffl la)) (image_w (tiffl lb)));
    destruct (Z.eqb_spec (image_w (tiffl la)) (image_w (tiffl lb)));
    destruct (Z.gtb_spec (image_w (tiffl lb)) (image_w (tiffl la)));
    destruct (Z.eqb_spec (image_w (tiffl lb)) (image_w (tiffl la)));
    try lia; repeat split; intros; try lia; auto.
Qed.

(** ** Failures of [optra_open], forward *)

Lemma state_eq (st st' : state) :
  osr st' = osr st → heap st' = heap st → quickhash1 st' = quickhash1 st →
  cr st' = cr st → decoded st' = decoded st → st' = st.
Proof. destruct st, st'. simpl. by intros -> -> -> -> ->. Qed.

Section OpenFailures.

Context (env : environment).

(** [optra_open] up to the build, and how a failed build comes out. *)
Lemma optra_open_failed_build (filename : string) (tl : _openslide_tifflike)
  (st : state) :
  ∃ (sb : state) (array tcp : loc) (checked_out pooled : nat),
    heap sb !! array = Some (ObjPtrArray []) ∧
    heap sb !! tcp = Some (ObjTiffcache filename checked_out pooled) ∧
    tcp ≠ array ∧
    heap st !! array = None ∧ heap st !! tcp = None ∧
    (∀ p, p ≠ tcp → p ≠ array → heap sb !! p = heap st !! p) ∧
    osr sb = osr st ∧ quickhash1 sb = quickhash1 st ∧ cr sb = cr st ∧
    decoded sb = decoded st ∧
    ∀ e s1,
      build_levels env array (TIFFOpen env filename) tl sb = (Fail e, s1) →
      ∀ pdata, walk_inv (heap sb) array pdata (heap s1) →
      ∃ st', optra_open env filename tl st = (Fail e, st') ∧
             heap st' = heap st ∧ osr st' = osr s1 ∧
             quickhash1 st' = quickhash1 s1 ∧ cr st' = cr s1 ∧
             decoded st' = decoded s1.
Proof.
  unfold optra_open, bind at 1, g_ptr_array_new. rewrite alloc_run.
  assert (Harr0 : heap st !! fresh (dom (heap st)) = None) by apply fresh_lookup.
  set (array := fresh (dom (heap st))) in *.
  set (st1 := upd_heap (insert array (ObjPtrArray [])) st).
  unfold bind at 1, _openslide_tiffcache_create. rewrite alloc_run.
  assert (Htc1 : heap st1 !! fresh (dom (heap st1)) = None) by apply fresh_lookup.
  set (tcp := fresh (dom (heap st1))) in *.
  set (st2 := upd_heap (insert tcp (ObjTiffcache filename 0 0)) st1).
  assert (Hne : tcp ≠ array).
  { intros Heq. rewrite Heq in Htc1. simpl in Htc1.
    by rewrite lookup_insert_eq in Htc1. }
  assert (Htc0 : heap st !! tcp = None).
  { simpl in Htc1. by rewrite lookup_insert_ne in Htc1. }
  unfold bind at 1, _openslide_tiffcache_get, bind at 1, get_heap.
  assert (Hlk : heap st2 !! tcp = Some (ObjTiffcache filename 0 0))
    by apply lookup_insert_eq.
  rewrite Hlk.
  assert (Hgoal : ∀ (sb : state) (checked_out pooled : nat),
    heap sb !! array = Some (ObjPtrArray []) →
    heap sb !! tcp = Some (ObjTiffcache filename checked_out pooled) →
    (∀ p, p ≠ tcp → p ≠ array → heap sb !! p = heap st !! p) →
    ∀ e s1 (k : unit → M unit),
      build_levels env array (TIFFOpen env filename) tl sb = (Fail e, s1) →
      ∀ pdata, walk_inv (heap sb) array pdata (heap s1) →
      ∃ st', bind (on_failure (build_levels env array (TIFFOpen env filename) tl)
                     (FAIL array (TIFFOpen env filename) tcp)) k sb
             = (Fail e, st') ∧
             heap st' = heap st ∧ osr st' = osr s1 ∧
             quickhash1 st' = quickhash1 s1 ∧ cr st' = cr s1 ∧
             decoded st' = decoded s1).
  { intros sb co po Ha Ht Hframe e s1 k Hbuild pdata Hinv.
    unfold bind, on_failure. rewrite Hbuild.
    destruct (FAIL_run _ _ _ _ (TIFFOpen env filename) s1 _ _ _ Hinv Ht Hne)
      as (s2 & Hfail & Hosr & (_ & Hq & Hc & Hd) & Hheap).
    rewrite Hfail. exists s2. split; [done|]. split; [|done].
    apply map_eq. intros p. rewrite Hheap.
    destruct (decide (p = tcp)) as [->|?]; [done|].
    destruct (decide (p = array)) as [->|?]; [done|]. by apply Hframe. }
  destruct (TIFFOpen env filename) as [tiff|] eqn:Hopen.
  - unfold bind at 1, set_heap. cbn [ret].
    set (st3 := upd_heap (insert tcp (ObjTiffcache filename 1 (Nat.pred 0))) st2).
    exists st3, array, tcp, 1%nat, (Nat.pred 0).
    split; [|split; [|split; [done|]]].
    2: { simpl. apply lookup_insert_eq. }
    { simpl. rewrite !lookup_insert_ne by done. apply lookup_insert_eq. }
    split; [done|]. split; [done|]. split.
    { intros p Hp Hp'. simpl. by rewrite !lookup_insert_ne. }
    split; [done|]. split; [done|]. split; [done|]. split; [done|].
    intros e s1 Hbuild pdata Hinv.
    eapply Hgoal; try eassumption.
    + simpl. rewrite !lookup_insert_ne by done. apply lookup_insert_eq.
    + simpl. apply lookup_insert_eq.
    + intros p Hp Hp'. simpl. by rewrite !lookup_insert_ne.
  - cbn [ret].
    exists st2, array, tcp, 0%nat, 0%nat. split; [|split; [|split; [done|]]].
    2: { exact Hlk. }
    { simpl. rewrite lookup_insert_ne by done. apply lookup_insert_eq. }
    split; [done|]. split; [done|]. split.
    { intros p Hp Hp'. simpl. by rewrite !lookup_insert_ne. }
    split; [done|]. split; [done|]. split; [done|]. split; [done|].
    intros e s1 Hbuild pdata Hinv.
    eapply Hgoal; try eassumption.
    + simpl. rewrite lookup_insert_ne by done. apply lookup_insert_eq.
    + intros p Hp Hp'. simpl. by rewrite !lookup_insert_ne.
Qed.

(** A failure before the directory walk: nothing was written to the slide
    handle yet, and the code under [FAIL] gives the heap back. *)
Lemma optra_open_early_run (filename : string)
  (tl : _openslide_tifflike) (st : state) (e : gerror) :
  early_error env filename tl = Some e →
  optra_open env filename tl st = (Fail e, st).
Proof.
  intros Hearly.
  destruct (optra_open_failed_build filename tl st)
    as (sb & array & tcp & co & po & Ha & Ht & Hne & _ & _ & _ & Ho & Hq & Hc
        & Hd & Hfail).
  assert (Hbuild : build_levels env array (TIFFOpen env filename) tl sb
                   = (Fail e, sb)).
  { unfold early_error in Hearly. unfold build_levels, bind at 1, of_option.
    destruct (TIFFOpen env filename) as [tiff|]; cbn [ret fail];
      [|by injection Hearly as <-].
    unfold bind at 1, _openslide_tifflike_get_buffer, of_option.
    destruct (tifflike_buffer tl 0%nat TIFFTAG_XMLPACKET) as [xml|];
      cbn [ret fail]; [|by injection Hearly as <-].
    unfold bind at 1. rewrite parse_initial_xml_run.
    destruct (xmlReadMemory env xml) as [root|]; [|by injection Hearly as <-].
    destruct (String.eqb (node_name root) XML_ROOT_TAG); [done|].
    by injection Hearly as <-. }
  destruct (Hfail e sb Hbuild [] (walk_inv_start _ _ Ha))
    as (st' & Hrun & Hheap & Hosr & Hq' & Hc' & Hd').
  rewrite Hrun. f_equal. apply state_eq; congruence.
Qed.

(** X10.  When the file does not open, or the first directory has no XML
    packet, or the packet does not parse, or its root is not the expected
    element, [optra_open] fails with the error of that step and the state is
    exactly what it was: nothing was written, everything allocated is
    freed. *)
Theorem optra_open_early_failure (filename : string)
  (tl : _openslide_tifflike) (st : state) (e : gerror) :
  early_error env filename tl = Some e →
  optra_open env filename tl st = (Fail e, st).
Proof. apply optra_open_early_run. Qed.

(** X11.  [optra_open], whether it succeeds or fails, paints nothing,
    decodes no tile and leaves the tile cache alone. *)
Theorem optra_open_decodes_nothing (filename : string)
  (tl : _openslide_tifflike) (st st' : state) (r : result unit) :
  optra_open env filename tl st = (r, st') →
  r ≠ Undefined →
  cr st' = cr st ∧ decoded st' = decoded st ∧
  osr_cache (osr st') = osr_cache (osr st).
Proof.
  intros Hrun Hr. apply optra_open_spec in Hrun. destruct r as [[]|e|]; [| |done].
  - destruct Hrun as (tiff & pdata & top & _ & _ & _ & _ & _ & _ & _ & _ & _
                      & Hcache & Hc & Hd).
    done.
  - destruct Hrun as (_ & (_ & _ & _ & _ & Hcache) & _ & Hc & Hd). done.
Qed.

End OpenFailures.

(** ** Successful runs of [optra_open], step by step *)

Lemma bind_ok {A B} (m : M A) (k : A → M B) (st st' : state) (b : B) :
  bind m k st = (Ok b, st') →
  ∃ a s1, m st = (Ok a, s1) ∧ k a s1 = (Ok b, st').
Proof.
  unfold bind. destruct (m st) as [[a|e|] s1]; [|done..]. by exists a, s1.
Qed.

Lemma on_failure_ok {A} (m : M A) (cleanup : M unit) (st st' : state) (a : A) :
  on_failure m cleanup st = (Ok a, st') → m st = (Ok a, st').
Proof.
  unfold on_failure. destruct (m st) as [[a'|e|] s1]; [done| |done].
  by destruct (cleanup s1) as [[[]|e'|] s2].
Qed.

Lemma of_option_ok {A} (o : option A) (e : gerror) (st st' : state) (a : A) :
  of_option o e st = (Ok a, st') → o = Some a ∧ st' = st.
Proof. destruct o; [|done]. by intros [= -> ->]. Qed.

Section WalkContent.

Context (env : environment).

Lemma classify_directory_content (current : tdir_t) (contents : directory)
  (tn_dir : tdir_t) (st st' : state) (class : option tdir_t) :
  classify_directory env current contents tn_dir st = (Ok class, st') →
  heap st' = heap st ∧
  osr_properties (osr st') = osr_properties (osr st) ∧
  osr_associated_images (osr st') =
    match associated_name current contents with
    | Some name => <[name := {| ai_dir := current |}]>
                     (osr_associated_images (osr st))
    | None => osr_associated_images (osr st)
    end ∧
  is_level_directory current contents = bool_decide (is_Some class).
Proof.
  unfold classify_directory, associated_name, is_level_directory.
  destruct (dir_tiled contents); simpl; [|by intros [= <- <-]].
  destruct (current =? 0)%nat; simpl; [by intros [= <- <-]|].
  destruct (dir_subfiletype contents) as [subfiletype|]; [|by intros [= <- <-]].
  destruct (Z.land subfiletype FILETYPE_REDUCEDIMAGE =? 0); simpl.
  - intros (image_desc & s1 & [Hdesc ->]%of_option_ok & Hrest)%bind_ok.
    rewrite Hdesc. apply bind_ok in Hrest as ([] & s2 & Hadd & Hret).
    rewrite add_associated_image_run in Hadd.
    destruct (associated_image_readable env current); [|done].
    injection Hadd as <-. by injection Hret as <- <-.
  - intros (imwidth & s1 & [_ ->]%of_option_ok & Hrest)%bind_ok.
    apply bind_ok in Hrest as (imheight & s2 & [_ ->]%of_option_ok & Hret).
    by destruct ((imwidth >? MIN_THUMBNAIL_DIM) && (imheight >? MIN_THUMBNAIL_DIM));
      injection Hret as <- <-.
Qed.

Lemma add_level_content (array : loc) (pdata : list level) (current : tdir_t)
  (contents : directory) (st st' : state) :
  add_level env array current contents st = (Ok tt, st') →
  heap st !! array = Some (ObjPtrArray pdata) →
  levels_live (heap st) pdata →
  osr st' = osr st ∧
  ∃ l g compression,
    heap st' !! array = Some (ObjPtrArray (pdata ++ [l])) ∧
    levels_live (heap st') (pdata ++ [l]) ∧
    level_geometry env current contents = Some g ∧
    tiffl l = tiff_level_of current g ∧
    dir_compression contents = Some compression ∧
    TIFFIsCODECConfigured env compression = true.
Proof.
  intros Hrun Harr Hlive. unfold add_level in Hrun.
  apply bind_ok in Hrun as (compression & s1 & [Hcomp ->]%of_option_ok & Hrun).
  destruct (TIFFIsCODECConfigured env compression) eqn:Hcodec; [|done].
  simpl in Hrun. apply bind_ok in Hrun as (p & s1 & Halloc & Hrun).
  rewrite alloc_run in Halloc. injection Halloc as <- <-.
  apply bind_ok in Hrun as ([lbase ltiffl] & s2 & Hinit%on_failure_ok & Hrun).
  unfold _openslide_tiff_level_init in Hinit.
  destruct (level_geometry env current contents) as [g|] eqn:Hgeo; [|done].
  injection Hinit as <- <- <-.
  apply bind_ok in Hrun as (gp & s3 & Hgrid & Hrun).
  unfold _openslide_grid_create_simple in Hgrid. rewrite alloc_run in Hgrid.
  injection Hgrid as <- <-. unfold g_ptr_array_add in Hrun.
  apply bind_ok in Hrun as (pdata' & s4 & Hpd & Hrun).
  assert (Hp : heap st !! fresh (dom (heap st)) = None) by apply fresh_lookup.
  set (p := fresh (dom (heap st))) in *. simpl in Hpd, Hrun.
  assert (Hg : (<[p := ObjLevel]> (heap st))
                 !! fresh (dom (<[p := ObjLevel]> (heap st))) = None)
    by apply fresh_lookup.
  set (gp := fresh (dom (<[p := ObjLevel]> (heap st)))) in *.
  assert (Hgp : gp ≠ p).
  { intros Heq. by rewrite Heq, lookup_insert_eq in Hg. }
  rewrite lookup_insert_ne in Hg by done.
  assert (Hpa : p ≠ array) by (intros Heq; by rewrite Heq, Harr in Hp).
  assert (Hga : gp ≠ array) by (intros Heq; by rewrite Heq, Harr in Hg).
  erewrite g_ptr_array_pdata_run in Hpd; cycle 1.
  { simpl. rewrite !lookup_insert_ne by done. exact Harr. }
  injection Hpd as <- <-.
  destruct (Z.of_nat (length pdata) <? 2 ^ 32 - 1); [|done].
  injection Hrun as <-. split; [done|].
  eexists _, g, compression. split; [apply lookup_insert_eq|].
  split; [|done]. intros l [Hl|Hl]%elem_of_app.
  - destruct (Hlive l Hl) as [Hlp Hlg]. simpl.
    rewrite !lookup_insert_ne; [done|..]; intros Heq; congruence.
  - apply list_elem_of_singleton in Hl as ->. simpl.
    split.
    + rewrite !lookup_insert_ne by done. apply lookup_insert_eq.
    + rewrite lookup_insert_ne by done. apply lookup_insert_eq.
Qed.

Lemma walk_content (array : loc) (rest : list directory) :
  ∀ (pdata : list level) (current : tdir_t) (contents : directory)
    (tn_dir tn_dir' current' : tdir_t) (st st' : state),
  walk env array current contents rest tn_dir st
    = (Ok (tn_dir', current'), st') →
  heap st !! array = Some (ObjPtrArray pdata) →
  levels_live (heap st) pdata →
  osr_properties (osr st') = osr_properties (osr st) ∧
  osr_associated_images (osr st')
    = registered_images current (contents :: rest)
        (osr_associated_images (osr st)) ∧
  ∃ new,
    heap st' !! array = Some (ObjPtrArray (pdata ++ new)) ∧
    levels_live (heap st') (pdata ++ new) ∧
    Forall2 (level_of_directory env) new
      (level_directories current (contents :: rest)).
Proof.
  assert (Hstep : ∀ pdata current contents tn_dir tn_dir' st st',
    walk_directory env array current contents tn_dir st = (Ok tn_dir', st') →
    heap st !! array = Some (ObjPtrArray pdata) →
    levels_live (heap st) pdata →
    osr_properties (osr st') = osr_properties (osr st) ∧
    osr_associated_images (osr st')
      = registered_images current [contents] (osr_associated_images (osr st)) ∧
    ∃ new,
      heap st' !! array = Some (ObjPtrArray (pdata ++ new)) ∧
      levels_live (heap st') (pdata ++ new) ∧
      Forall2 (level_of_directory env) new
        (if is_level_directory current contents then [(current, contents)]
         else [])).
  { intros pdata current contents tn_dir tn_dir' st st' Hrun Harr Hlive.
    unfold walk_directory in Hrun.
    apply bind_ok in Hrun as (class & s1 & Hclass & Hrun).
    apply classify_directory_content in Hclass as (Hheap & Hprops & Himages & Hlevel).
    simpl. rewrite Hlevel. destruct class as [tn|].
    - apply bind_ok in Hrun as ([] & s2 & Hadd & Hret). injection Hret as <- <-.
      rewrite <- Hheap in Harr, Hlive.
      destruct (add_level_content _ _ _ _ _ _ Hadd Harr Hlive)
        as (Hosr & l & g & c & Harr' & Hlive' & Hgeo & Htiffl & Hcomp & Hcodec).
      rewrite Hosr. split; [done|]. split; [done|].
      exists [l]. split; [done|]. split; [done|].
      rewrite bool_decide_true by (by eexists).
      apply Forall2_cons. split; [by exists g, c|done].
    - injection Hrun as <- <-. split; [done|]. split; [done|].
      exists []. rewrite app_nil_r, Hheap. split; [done|]. split; [done|].
      rewrite bool_decide_false; [done|]. by intros [? ?]. }
  induction rest as [|next rest IH];
    intros pdata current contents tn_dir tn_dir' current' st st' Hrun Harr Hlive;
    simpl in Hrun; apply bind_ok in Hrun as (tn1 & s1 & Hdir & Hrun);
    destruct (Hstep _ _ _ _ _ _ _ Hdir Harr Hlive)
      as (Hprops & Himages & new & Harr1 & Hlive1 & Hnew).
  - injection Hrun as <- <- <-. split; [done|]. split; [done|].
    exists new. simpl. by rewrite app_nil_r.
  - destruct (IH _ _ _ _ _ _ _ _ Hrun Harr1 Hlive1)
      as (Hprops2 & Himages2 & new2 & Harr2 & Hlive2 & Hnew2).
    split; [congruence|]. split.
    { rewrite Himages2, Himages. done. }
    exists (new ++ new2)%list. rewrite app_assoc. split; [done|]. split; [done|].
    by apply Forall2_app.
Qed.

End WalkContent.

Lemma levels_live_perm (hp : gmap loc obj) (pdata pdata' : list level) :
  pdata ≡ₚ pdata' → levels_live hp pdata → levels_live hp pdata'.
Proof. intros Hperm Hlive l Hl. apply Hlive. by rewrite Hperm. Qed.

Lemma levels_live_ne (hp : gmap loc obj) (pdata : list level) (p : loc) :
  levels_live hp pdata →
  match hp !! p with
  | Some ObjLevel | Some (ObjGrid _ _ _ _) => False
  | _ => True
  end →
  ∀ l, l ∈ pdata → p ≠ level_ptr l ∧ p ≠ grid l.
Proof.
  intros Hlive Hp l Hl. destruct (Hlive l Hl) as [Hlp Hlg].
  split; intros ->; [by rewrite Hlp in Hp|by rewrite Hlg in Hp].
Qed.

Lemma levels_live_insert (hp : gmap loc obj) (pdata : list level) (p : loc)
  (o : obj) :
  match hp !! p with
  | Some ObjLevel | Some (ObjGrid _ _ _ _) => False
  | _ => True
  end →
  levels_live hp pdata → levels_live (<[p := o]> hp) pdata.
Proof.
  intros Hp Hlive l Hl. destruct (Hlive l Hl) as [Hlp Hlg].
  destruct (levels_live_ne hp pdata p Hlive Hp l Hl) as [Hne1 Hne2].
  by rewrite !lookup_insert_ne.
Qed.

Section OpenSuccess.

Context (env : environment).

Lemma build_levels_content (array : loc) (cached_tiff : option TIFF)
  (tl : _openslide_tifflike) (st st' : state) :
  build_levels env array cached_tiff tl st = (Ok tt, st') →
  heap st !! array = Some (ObjPtrArray []) →
  ∃ tiff xml root new,
    cached_tiff = Some tiff ∧
    tifflike_buffer tl 0%nat TIFFTAG_XMLPACKET = Some xml ∧
    xmlReadMemory env xml = Some root ∧
    node_name root = XML_ROOT_TAG ∧
    Forall2 (level_of_directory env) new
      (level_directories 0%nat (tiff_dirs tiff)) ∧
    heap st' !! array = Some (ObjPtrArray (stable_sort width_compare new)) ∧
    levels_live (heap st') (stable_sort width_compare new) ∧
    osr_properties (osr st')
      = tifflike_properties env tl 0%nat
          (scaninfo_properties env root (osr_properties (osr st))) ∧
    osr_associated_images (osr st')
      = <["thumbnail" :=
            {| ai_dir := last_candidate 0%nat (tiff_dirs tiff) 0%nat |}]>
          (registered_images 0%nat (tiff_dirs tiff)
             (osr_associated_images (osr st))).
Proof.
  intros Hrun Harr.
  pose proof (build_levels_spec env (heap st) array _ _ _ _ _ Hrun
                (walk_inv_start _ _ Harr))
    as (tiff & pdata' & top' & -> & _ & _ & _ & Hthumb & _).
  unfold build_levels in Hrun.
  apply bind_ok in Hrun as (tiff0 & s0 & [[= <-] ->]%of_option_ok & Hrun).
  apply bind_ok in Hrun as (xml & s0 & [Hxml ->]%of_option_ok & Hrun).
  apply bind_ok in Hrun as ([] & s1 & Hparse & Hrun).
  rewrite parse_initial_xml_run in Hparse.
  destruct (xmlReadMemory env xml) as [root|] eqn:Hroot; [|done].
  destruct (String.eqb (node_name root) XML_ROOT_TAG) eqn:Hname; [|done].
  apply String.eqb_eq in Hname. injection Hparse as <-.
  apply bind_ok in Hrun as ([tn_dir current] & s2 & Hwalk & Hrun).
  eapply (walk_content env array _ []) in Hwalk as
    (Hprops & Himages & new & Harr2 & Hlive2 & Hnew); [|exact Harr|by intros l ?%elem_of_nil].
  simpl in Harr2, Hlive2.
  apply bind_ok in Hrun as (cur & s3 & Hset & Hrun).
  assert (s3 = s2) as ->.
  { unfold _openslide_tiff_set_dir in Hset.
    destruct (tn_dir =? current)%nat; [by injection Hset|].
    destruct (TIFFSetDirectory env tiff tn_dir); [by injection Hset|done]. }
  apply bind_ok in Hrun as ([] & s4 & Hadd & Hrun).
  rewrite add_associated_image_run in Hadd.
  destruct (associated_image_readable env cur); [|done]. injection Hadd as <-.
  apply bind_ok in Hrun as ([] & s5 & Hsort & Hrun).
  unfold g_ptr_array_sort in Hsort.
  apply bind_ok in Hsort as (pd & s & Hpd & Hsort).
  rewrite (g_ptr_array_pdata_run array new) in Hpd by exact Harr2.
  injection Hpd as <- <-. injection Hsort as <-.
  apply bind_ok in Hrun as (pd & s & Hpd & Hrun).
  rewrite (g_ptr_array_pdata_run array (stable_sort width_compare new)) in Hpd
    by apply lookup_insert_eq.
  injection Hpd as <- <-.
  apply bind_ok in Hrun as (top & s & Htop & Hrun).
  assert (s = upd_heap (insert array
                (ObjPtrArray (stable_sort width_compare new)))
              (upd_osr (with_associated_images
                 (insert "thumbnail" {| ai_dir := cur |})) s2)) as ->.
  { destruct (pdata_index _ _); [by injection Htop|done]. }
  clear Htop.
  unfold _openslide_tifflike_init_properties_and_hash in Hrun.
  destruct (level_hashable env tl (dir (tiffl top))); [|done].
  injection Hrun as <-. cbn -[last_candidate] in Hthumb.
  rewrite lookup_insert_eq in Hthumb.
  injection Hthumb as Hcur.
  exists tiff, xml, root, new. simpl.
  split; [done|]. split; [done|]. split; [done|]. split; [done|].
  split; [done|]. split; [apply lookup_insert_eq|]. split.
  { apply levels_live_insert; [by rewrite Harr2|].
    eapply levels_live_perm; [|exact Hlive2].
    symmetry. apply stable_sort_perm. }
  split; [by rewrite Hprops|]. by rewrite Hcur, Himages.
Qed.

Lemma optra_open_success (filename : string) (tl : _openslide_tifflike)
  (st st' : state) :
  optra_open env filename tl st = (Ok tt, st') →
  ∃ tiff xml root new tcp dp,
    let array := fresh (dom (heap st)) in
    let levels := stable_sort width_compare new in
    let owned := array :: tcp :: dp :: level_locs levels in
    TIFFOpen env filename = Some tiff ∧
    tifflike_buffer tl 0%nat TIFFTAG_XMLPACKET = Some xml ∧
    xmlReadMemory env xml = Some root ∧
    node_name root = XML_ROOT_TAG ∧
    Forall2 (level_of_directory env) new
      (level_directories 0%nat (tiff_dirs tiff)) ∧
    Z.of_nat (length new) < 2 ^ 32 ∧
    osr_levels (osr st') = Some levels ∧
    osr_level_count (osr st') = to_int32 (Z.of_nat (length new)) ∧
    osr_data (osr st') = Some {| data_ptr := dp; tc := tcp |} ∧
    osr_properties (osr st')
      = tifflike_properties env tl 0%nat
          (scaninfo_properties env root (osr_properties (osr st))) ∧
    osr_associated_images (osr st')
      = <["thumbnail" :=
            {| ai_dir := last_candidate 0%nat (tiff_dirs tiff) 0%nat |}]>
          (registered_images 0%nat (tiff_dirs tiff)
             (osr_associated_images (osr st))) ∧
    heap st' !! array = Some (ObjPtrArray levels) ∧
    heap st' !! tcp = Some (ObjTiffcache filename 0 1) ∧
    heap st' !! dp = Some ObjOpsData ∧
    levels_live (heap st') levels ∧
    NoDup owned ∧
    (∀ p, p ∈ owned → heap st !! p = None) ∧
    (∀ p, p ∉ owned → heap st' !! p = heap st !! p).
Proof.
  intros Hrun. unfold optra_open, g_ptr_array_new in Hrun.
  apply bind_ok in Hrun as (array' & st1 & Halloc & Hrun).
  rewrite alloc_run in Halloc. injection Halloc as <- <-.
  assert (Harr0 : heap st !! fresh (dom (heap st)) = None) by apply fresh_lookup.
  set (array := fresh (dom (heap st))) in *.
  apply bind_ok in Hrun as (tcp & st2 & Halloc & Hrun).
  unfold _openslide_tiffcache_create in Halloc. rewrite alloc_run in Halloc.
  injection Halloc as <- <-. cbn [heap upd_heap] in Hrun.
  assert (Htc1 : (<[array := ObjPtrArray []]> (heap st))
                   !! fresh (dom (<[array := ObjPtrArray []]> (heap st))) = None)
    by apply fresh_lookup.
  set (tcp := fresh (dom (<[array := ObjPtrArray []]> (heap st)))) in *.
  assert (Hne : tcp ≠ array).
  { intros Heq. rewrite Heq in Htc1. by rewrite lookup_insert_eq in Htc1. }
  assert (Htc0 : heap st !! tcp = None).
  { by rewrite lookup_insert_ne in Htc1. }
  apply bind_ok in Hrun as (cached_tiff & sb & Hget & Hrun).
  apply bind_ok in Hrun as ([] & s1 & Hbuild%on_failure_ok & Hrun).
  unfold _openslide_tiffcache_get, bind at 1, get_heap in Hget.
  cbn [heap upd_heap] in Hget. rewrite lookup_insert_eq in Hget.
  assert (Hsb : TIFFOpen env filename = cached_tiff ∧
    heap sb = <[tcp := ObjTiffcache filename
                          match cached_tiff with Some _ => 1 | None => 0 end 0]>
                (<[array := ObjPtrArray []]> (heap st)) ∧
    osr sb = osr st).
  { destruct (TIFFOpen env filename); injection Hget as <- <-; simpl.
    - split; [done|]. split; [|done]. by rewrite insert_insert_eq.
    - done. }
  clear Hget. destruct Hsb as (Hopen & Hsb & Hosrb).
  assert (Harrb : heap sb !! array = Some (ObjPtrArray [])).
  { rewrite Hsb, lookup_insert_ne by done. apply lookup_insert_eq. }
  destruct (build_levels_content _ _ _ _ _ Hbuild Harrb)
    as (tiff & xml & root & new & -> & Hxml & Hroot & Hname & Hnew & Harr1
        & Hlive1 & Hprops & Himages).
  rewrite Hosrb in Hprops, Himages.
  pose proof (build_levels_spec env (heap sb) array _ _ _ _ _ Hbuild
                (walk_inv_start _ _ Harrb))
    as (tiff'' & pdata & top & _ & Hinv & _ & _ & _ & Hsame & _).
  assert (stable_sort width_compare pdata = stable_sort width_compare new)
    as Heq.
  { pose proof (inv_array _ _ _ _ Hinv) as Harr'. rewrite Harr1 in Harr'.
    by injection Harr'. }
  rewrite Heq in Hinv. clear Heq pdata tiff'' top.
  set (levels := stable_sort width_compare new) in *.
  apply bind_ok in Hrun as (pd & s & Hpd & Hrun).
  rewrite (g_ptr_array_pdata_run array levels) in Hpd by exact Harr1.
  injection Hpd as <- <-.
  apply bind_ok in Hrun as (lv & s & Hfree & Hrun).
  unfold g_ptr_array_free in Hfree.
  apply bind_ok in Hfree as (pd & s' & Hpd & Hfree).
  rewrite (g_ptr_array_pdata_run array levels) in Hpd by exact Harr1.
  injection Hpd as <- <-. injection Hfree as <- <-.
  apply bind_ok in Hrun as (dp & s & Halloc & Hrun).
  rewrite alloc_run in Halloc. injection Halloc as <- <-.
  assert (Hdp1 : heap s1 !! fresh (dom (heap s1)) = None) by apply fresh_lookup.
  set (dp := fresh (dom (heap s1))) in *.
  apply bind_ok in Hrun as (o & s & [= <- <-] & Hrun).
  apply bind_ok in Hrun as ([] & s & Hassert & Hrun).
  unfold g_assert in Hassert. simpl in Hassert.
  destruct (bool_decide (osr_data (osr s1) = None)); [|done].
  injection Hassert as <-.
  apply bind_ok in Hrun as ([] & s & Hassert & Hrun).
  unfold g_assert in Hassert. simpl in Hassert.
  destruct (bool_decide (osr_levels (osr s1) = None)); [|done].
  injection Hassert as <-.
  apply bind_ok in Hrun as ([] & s & [= <-] & Hrun).
  assert (Htcb : heap sb !! tcp = Some (ObjTiffcache filename 1 0)).
  { rewrite Hsb. apply lookup_insert_eq. }
  assert (Hframeb : ∀ p, p ≠ tcp → p ≠ array → heap sb !! p = heap st !! p).
  { intros p Hp Hp'. rewrite Hsb. by rewrite !lookup_insert_ne. }
  assert (Htcl : tcp ∉ level_locs levels).
  { intros Hin. apply (inv_new _ _ _ _ Hinv) in Hin. by rewrite Hin in Htcb. }
  assert (Harl : array ∉ level_locs levels).
  { intros Hin. apply (inv_new _ _ _ _ Hinv) in Hin. by rewrite Hin in Harrb. }
  assert (Hdpl : dp ∉ level_locs levels).
  { intros Hin. apply (inv_live _ _ _ _ Hinv) in Hin as [? Hin].
    by rewrite Hin in Hdp1. }
  assert (Htc1' : heap s1 !! tcp = Some (ObjTiffcache filename 1 0)).
  { by rewrite (inv_frame _ _ _ _ Hinv). }
  assert (Hdpt : dp ≠ tcp) by (intros Heq; by rewrite Heq, Htc1' in Hdp1).
  assert (Hdpa : dp ≠ array) by (intros Heq; by rewrite Heq, Harr1 in Hdp1).
  unfold _openslide_cached_tiff_put, bind, get_heap in Hrun.
  cbn [heap upd_osr upd_heap] in Hrun.
  rewrite lookup_insert_ne in Hrun by done. rewrite Htc1' in Hrun.
  injection Hrun as <-.
  exists tiff, xml, root, new, tcp, dp. cbn zeta. fold levels.
  split; [done|]. split; [done|]. split; [done|]. split; [done|].
  split; [done|]. split.
  { pose proof (inv_len _ _ _ _ Hinv) as Hlen. unfold levels in Hlen.
    by rewrite stable_sort_length in Hlen. }
  split; [done|]. split.
  { simpl. unfold levels. by rewrite stable_sort_length. }
  split; [done|]. split; [exact Hprops|]. split; [exact Himages|].
  simpl. split.
  { by rewrite !lookup_insert_ne. }
  split; [apply lookup_insert_eq|]. split.
  { rewrite lookup_insert_ne by done. apply lookup_insert_eq. }
  split.
  { apply levels_live_insert.
    { rewrite lookup_insert_ne by done. by rewrite Htc1'. }
    apply levels_live_insert; [by rewrite Hdp1|done]. }
  split.
  { apply NoDup_cons. split.
    { rewrite !not_elem_of_cons. by repeat split. }
    apply NoDup_cons. split.
    { rewrite !not_elem_of_cons. by repeat split. }
    apply NoDup_cons. split; [done|]. exact (inv_nodup _ _ _ _ Hinv). }
  split.
  - intros p [->|[->|[->|Hp]%elem_of_cons]%elem_of_cons]%elem_of_cons.
    + done.
    + done.
    + rewrite <- Hframeb by done. by rewrite <- (inv_frame _ _ _ _ Hinv).
    + rewrite <- Hframeb.
      * by apply (inv_new _ _ _ _ Hinv).
      * by intros ->.
      * by intros ->.
  - intros p Hp. rewrite !not_elem_of_cons in Hp.
    destruct Hp as (Hpa & Hpt & Hpd & Hpl).
    rewrite !lookup_insert_ne by done.
    rewrite (inv_frame _ _ _ _ Hinv) by done. by apply Hframeb.
Qed.

End OpenSuccess.

(** ** [destroy] *)

Lemma free_ok (p : loc) (st st' : state) :
  free p st = (Ok tt, st') →
  is_Some (heap st !! p) ∧ st' = upd_heap (delete p) st.
Proof.
  rewrite free_run. destruct (heap st !! p); [|done].
  intros [= <-]. split; [by eexists|done].
Qed.


Lemma free_all_subseteq (ps : list loc) :
  ∀ (hp : gmap loc obj) (p : loc), hp !! p = None → free_all ps hp !! p = None.
Proof.
  induction ps as [|q ps IH]; intros hp p Hp; [done|].
  simpl. apply IH. destruct (decide (q = p)) as [->|?].
  - apply lookup_delete_eq.
  - by rewrite lookup_delete_ne.
Qed.

Lemma destroy_levels_ok (n : nat) :
  ∀ (levels : list level) (st st' : state),
  destroy_levels n levels st = (Ok tt, st') →
  (n ≤ length levels)%nat ∧
  st' = upd_heap (free_all (level_locs (take n levels))) st.
Proof.
  induction n as [|n IH]; intros levels st st' Hrun.
  { injection Hrun as <-. split; [simpl; lia|]. by destruct st. }
  destruct levels as [|l levels]; [done|]. simpl in Hrun.
  apply bind_ok in Hrun as ([] & s1 & [_ ->]%free_ok & Hrun).
  apply bind_ok in Hrun as ([] & s2 & [_ ->]%free_ok & Hrun).
  apply IH in Hrun as [Hn ->]. split; [simpl; lia|]. by destruct st.
Qed.

Section Destroy.

Context (env : environment).

Lemma destroy_ok (levels_ptr : loc) (st st' : state) :
  destroy levels_ptr st = (Ok tt, st') →
  ∃ data,
    osr_data (osr st) = Some data ∧
    osr st' = osr st ∧
    heap st' !! tc data = None.
Proof.
  unfold destroy. intros (o & s & [= <- <-] & Hrun)%bind_ok.
  destruct (osr_data (osr st)) as [data|]; [|done].
  apply bind_ok in Hrun as ([] & s1 & [_ ->]%free_ok & Hrun).
  apply bind_ok in Hrun as ([] & s2 & [_ ->]%free_ok & Hrun).
  apply bind_ok in Hrun as ([] & s3 & [_ ->]%destroy_levels_ok & Hrun).
  assert (Htc : ∀ hp : gmap loc obj,
    free_all (level_locs (take (Z.to_nat (osr_level_count (osr st)))
                            (default [] (osr_levels (osr st)))))
      (delete (data_ptr data) (delete (tc data) hp)) !! tc data = None).
  { intros hp. apply free_all_subseteq.
    destruct (decide (data_ptr data = tc data)) as [->|?];
      [apply lookup_delete_eq|rewrite lookup_delete_ne by done].
    apply lookup_delete_eq. }
  exists data. split; [done|].
  destruct (osr_levels (osr st)) as [levels|].
  2: { injection Hrun as <-. split; [done|]. apply Htc. }
  apply free_ok in Hrun as [_ ->].
  split; [done|]. simpl.
  destruct (decide (levels_ptr = tc data)) as [->|?];
    [apply lookup_delete_eq|rewrite lookup_delete_ne by done].
  apply free_all_subseteq.
  destruct (decide (data_ptr data = tc data)) as [->|?];
    [apply lookup_delete_eq|rewrite lookup_delete_ne by done].
  apply lookup_delete_eq.
Qed.

(** X17.  [destroy] has no protection against a second call: after a
    [destroy] that went through, a second one on the same handle frees the
    TIFF handle cache again, which is undefined. *)
Theorem destroy_twice_undefined (levels_ptr : loc) (st st' : state) :
  destroy levels_ptr st = (Ok tt, st') →
  fst (destroy levels_ptr st') = Undefined.
Proof.
  intros (data & Hdata & Hosr & Htc)%destroy_ok.
  unfold destroy, bind at 1, get_osr. simpl. rewrite Hosr, Hdata.
  unfold bind at 1, _openslide_tiffcache_destroy. by rewrite free_run, Htc.
Qed.


End Destroy.

(** ** [paint_region] *)

Section PaintRegion.

Context (env : environment).
Context (visible_tiles :
  Z → Z → Z → Z → float → float → Z → Z → list (Z * Z)).

(** What one call of the tile reader does to the state, as far as a paint
    is concerned. *)
Lemma read_tile_step (l : level) (col row : Z) (st : state) :
  ∃ r st',
    read_tile env l col row st = (r, st') ∧
    r ≠ Undefined ∧
    osr_data (osr st') = osr_data (osr st) ∧
    (∀ p, is_Some (heap st !! p) → heap st' !! p = heap st !! p) ∧
    (∀ k, is_Some (osr_cache (osr st) !! k) →
          is_Some (osr_cache (osr st') !! k)) ∧
    (r = Ok tt ↔ readable env l st (col, row)) ∧
    (r = Ok tt →
       cached l st' (col, row) ∧
       ∀ tile, readable env l st' tile → readable env l st tile) ∧
    (cached l st (col, row) →
       r = Ok tt ∧ decoded st' = decoded st ∧ heap st' = heap st ∧
       osr st' = osr st).
Proof.
  unfold readable, cached. cbn [fst snd].
  destruct (osr_cache (osr st) !! (level_ptr l, col, row)) as [e|] eqn:Hc.
  - eexists _, _. split; [exact (read_tile_hit env _ _ _ _ _ Hc)|].
    split; [done|]. split; [done|]. split; [done|]. split; [done|].
    split; [split; [intros _; left; by eexists|done]|].
    split; [|done]. intros _. simpl. split; [rewrite ?Hc; by eexists|done].
  - pose proof (read_tile_miss env l col row st Hc) as Hrun. cbn zeta in Hrun.
    cbn [fst snd].
    destruct (tile_pixels env (tiffl l) col row) as [pixels|] eqn:Hp.
    + destruct (clipped_pixels env (tiffl l) pixels col row) as [clipped|]
        eqn:Hcl.
      * eexists _, _. split; [exact Hrun|]. split; [done|]. split; [done|].
        cbn [heap osr osr_cache with_cache]. split.
        { intros p [o Ho]. rewrite lookup_insert_ne; [done|].
          intros <-. by rewrite fresh_lookup in Ho. }
        split.
        { intros k Hk. destruct (decide (k = (level_ptr l, col, row))) as [->|?].
          - rewrite lookup_insert_eq. by eexists.
          - by rewrite lookup_insert_ne. }
        split; [split; [intros _; right; by eexists _, _|done]|].
        split; [|by intros [? ?]]. intros _.
        split; [rewrite lookup_insert_eq; by eexists|].
        intros [c r] [Hk|Hd]; [|by right]. cbn [fst snd] in Hk.
        destruct (decide ((level_ptr l, c, r) = (level_ptr l, col, row)))
          as [[= -> ->]|Hne].
        -- right. cbn [fst snd]. by eexists _, _.
        -- left. cbn [fst snd]. by rewrite lookup_insert_ne in Hk.
      * eexists _, _. split; [exact Hrun|]. split; [done|]. split; [done|].
        split; [done|]. split; [done|]. split.
        { split; [done|]. intros [[? ?]|(px & cl & Hpx & Hcl')]; [done|].
          injection Hpx as <-. by rewrite Hcl in Hcl'. }
        split; [done|]. by intros [? ?].
    + eexists _, _. split; [exact Hrun|]. split; [done|]. split; [done|].
      split; [done|]. split; [done|]. split.
      { split; [done|]. by intros [[? ?]|(px & cl & Hpx & _)]. }
      split; [done|]. by intros [? ?].
Qed.

Lemma paint_tiles_spec (l : level) (tiles : list (Z * Z)) :
  ∀ st, ∃ r st',
    paint_tiles env l tiles st = (r, st') ∧
    r ≠ Undefined ∧
    osr_data (osr st') = osr_data (osr st) ∧
    (∀ p, is_Some (heap st !! p) → heap st' !! p = heap st !! p) ∧
    (∀ k, is_Some (osr_cache (osr st) !! k) →
          is_Some (osr_cache (osr st') !! k)) ∧
    (r = Ok tt ↔ Forall (readable env l st) tiles) ∧
    (r = Ok tt → Forall (λ tile, cached l st' tile) tiles) ∧
    (Forall (λ tile, cached l st tile) tiles →
       r = Ok tt ∧ decoded st' = decoded st ∧ heap st' = heap st ∧
       osr st' = osr st).
Proof.
  unfold readable, cached.
  induction tiles as [|[col row] tiles IH]; intros st.
  { exists (Ok tt), st. by repeat split. }
  destruct (read_tile_step l col row st)
    as (r1 & s1 & Hrun1 & Hdef1 & Hdata1 & Hheap1 & Hmono1 & Hiff1 & Hok1 & Hhit1).
  unfold readable, cached in Hiff1, Hok1, Hhit1.
  simpl. unfold bind. rewrite Hrun1. destruct r1 as [[]|e|]; [| |done].
  - destruct (IH s1)
      as (r2 & s2 & Hrun2 & Hdef2 & Hdata2 & Hheap2 & Hmono2 & Hiff2 & Hok2 & Hhit2).
    destruct (Hok1 eq_refl) as [Hcached1 Hback1].
    exists r2, s2. split; [done|]. split; [done|]. split; [congruence|].
    split.
    { intros p Hp. rewrite Hheap2; [by apply Hheap1|]. by rewrite Hheap1. }
    split; [by intros k Hk; apply Hmono2, Hmono1|]. split.
    { rewrite Hiff2, Forall_cons. split.
      - intros Hall. split; [by apply Hiff1|].
        eapply Forall_impl; [exact Hall|]. exact Hback1.
      - intros [_ Hall]. eapply Forall_impl; [exact Hall|].
        intros [c r] [Hk|Hd]; [left; by apply Hmono1|by right]. }
    split.
    { intros Hr2. apply Forall_cons. split; [by apply Hmono2|by apply Hok2]. }
    intros [Hc Hall]%Forall_cons.
    destruct (Hhit1 Hc) as (_ & Hd1 & Hh1 & Ho1).
    destruct Hhit2 as (Hr2 & Hd2 & Hh2 & Ho2).
    { eapply Forall_impl; [exact Hall|]. intros tile Ht. by rewrite Ho1. }
    split; [done|]. split; [congruence|]. split; congruence.
  - exists (Fail e), s1. split; [done|]. split; [done|]. split; [done|].
    split; [done|]. split; [done|]. split.
    { split; [done|]. intros [Hr _]%Forall_cons. by apply Hiff1 in Hr. }
    split; [done|]. intros [Hc _]%Forall_cons. by destruct (Hhit1 Hc).
Qed.

(** [paint_region] on a handle whose pool and grid are live: the pool hands
    out a decoder handle, the tiles are painted, the handle goes back. *)
Lemma paint_region_run (downsample : float) (x y : Z) (l : level) (w h : Z)
  (st : state) (data : optra_ops_data) (filename : string)
  (checked_out pooled : nat) (across down tw th : Z) (tiff : TIFF) :
  osr_data (osr st) = Some data →
  heap st !! tc data = Some (ObjTiffcache filename checked_out pooled) →
  heap st !! grid l = Some (ObjGrid across down tw th) →
  TIFFOpen env filename = Some tiff →
  ∃ r s,
    paint_tiles env l
      (visible_tiles across down tw th
         (int64_to_double x / downsample) (int64_to_double y / downsample) w h)
      (upd_heap (insert (tc data)
                   (ObjTiffcache filename (S checked_out) (pred pooled))) st)
      = (r, s) ∧
    paint_region env visible_tiles downsample x y l w h st
      = (r, upd_heap (insert (tc data)
                        (ObjTiffcache filename checked_out (S (pred pooled)))) s).
Proof.
  intros Hdata Htc Hgrid Hopen.
  set (sg := upd_heap (insert (tc data)
               (ObjTiffcache filename (S checked_out) (pred pooled))) st).
  set (tiles := visible_tiles _ _ _ _ _ _ _ _).
  destruct (paint_tiles_spec l tiles sg)
    as (r & s & Hrun & Hdef & _ & Hheap & _).
  exists r, s. split; [done|].
  assert (Hne : grid l ≠ tc data) by (intros Heq; congruence).
  unfold paint_region, bind at 1, get_osr. cbn [ret]. rewrite Hdata.
  unfold bind at 1, _openslide_tiffcache_get, bind at 1, get_heap.
  rewrite Htc, Hopen. unfold bind at 1, set_heap. cbn [ret]. fold sg.
  unfold and_then_always, _openslide_grid_paint_region, bind at 1, get_heap.
  assert (Hg : heap sg !! grid l = Some (ObjGrid across down tw th)).
  { unfold sg. simpl. by rewrite lookup_insert_ne. }
  rewrite Hg. fold tiles. rewrite Hrun.
  assert (Ht : heap s !! tc data
               = Some (ObjTiffcache filename (S checked_out) (pred pooled))).
  { rewrite Hheap; unfold sg; simpl; rewrite lookup_insert_eq; [done|by eexists]. }
  unfold _openslide_cached_tiff_put, bind, get_heap, set_heap. rewrite Ht.
  by destruct r.
Qed.


(** X19.  [paint_region] gives the decoder handle back on every path: after
    the call, successful or not, as many handles are checked out of the pool
    as before, and private data and grid are still there, so that the handle
    can be painted from again. *)
Theorem paint_region_returns_handle (downsample : float) (x y : Z) (l : level)
  (w h : Z) (st : state) (data : optra_ops_data) (filename : string)
  (checked_out pooled : nat) (across down tw th : Z) :
  osr_data (osr st) = Some data →
  heap st !! tc data = Some (ObjTiffcache filename checked_out pooled) →
  heap st !! grid l = Some (ObjGrid across down tw th) →
  let st' := snd (paint_region env visible_tiles downsample x y l w h st) in
  osr_data (osr st') = Some data ∧
  heap st' !! grid l = Some (ObjGrid across down tw th) ∧
  ∃ pooled',
    heap st' !! tc data = Some (ObjTiffcache filename checked_out pooled').
Proof.
  intros Hdata Htc Hgrid st'. subst st'.
  destruct (TIFFOpen env filename) as [tiff|] eqn:Hopen.
  - destruct (paint_region_run downsample x y l w h st data filename
                checked_out pooled across down tw th tiff Hdata Htc Hgrid Hopen)
      as (r & s & Hrun & ->).
    destruct (paint_tiles_spec l
                (visible_tiles across down tw th
                   (int64_to_double x / downsample)
                   (int64_to_double y / downsample) w h)
                (upd_heap (insert (tc data)
                   (ObjTiffcache filename (S checked_out) (pred pooled))) st))
      as (r' & s' & Hrun' & _ & Hd & Hheap & _).
    rewrite Hrun' in Hrun. injection Hrun as <- <-.
    assert (Hne : grid l ≠ tc data) by (intros Heq; congruence).
    cbn [snd osr heap upd_heap]. split; [by rewrite Hd|]. split.
    + rewrite lookup_insert_ne by done. rewrite Hheap; simpl;
        rewrite lookup_insert_ne by done; [done|by eexists].
    + eexists. apply lookup_insert_eq.
  - assert (Hrun : paint_region env visible_tiles downsample x y l w h st
                   = (Fail ErrTiffOpen, st)).
    { unfold paint_region, bind at 1, get_osr. cbn [ret]. rewrite Hdata.
      unfold bind at 1, _openslide_tiffcache_get, bind at 1, get_heap.
      by rewrite Htc, Hopen. }
    rewrite Hrun. split; [done|]. split; [done|]. by eexists.
Qed.




End PaintRegion.

Section OpenContent.

Context (env : environment).

(** X14.  The levels a successful [optra_open] installs are, up to their
    order, one per level directory of the file (tiled, and the first or
    flagged as a reduced image), each with the geometry read from its
    directory and a compression the decoder is configured for; the level
    count is the number of these directories. *)
Theorem optra_open_levels_from_directories (filename : string)
  (tl : _openslide_tifflike) (st st' : state) :
  optra_open env filename tl st = (Ok tt, st') →
  ∃ tiff built levels,
    TIFFOpen env filename = Some tiff ∧
    Forall2 (level_of_directory env) built
      (level_directories 0%nat (tiff_dirs tiff)) ∧
    osr_levels (osr st') = Some levels ∧
    levels ≡ₚ built ∧
    osr_level_count (osr st')
      = to_int32 (Z.of_nat (length (level_directories 0%nat (tiff_dirs tiff)))).
Proof.
  intros (tiff & xml & root & new & tcp & dp & Hopen)%optra_open_success.
  cbn zeta in Hopen.
  destruct Hopen as (Htiff & _ & _ & _ & Hnew & _ & Hlevels & Hcount & _).
  exists tiff, new, (stable_sort width_compare new).
  split; [done|]. split; [done|]. split; [done|].
  split; [apply stable_sort_perm|].
  by rewrite Hcount, (Forall2_length _ _ _ Hnew).
Qed.

(** X15.  After a successful [optra_open] the associated images are those
    there were before, overlaid with one entry per tiled directory past the
    first that has a subfile type without the reduced-image flag, under its
    description (a later directory replaces an earlier one of the same
    name), overlaid with the entry "thumbnail". *)
Theorem optra_open_registers_images (filename : string)
  (tl : _openslide_tifflike) (st st' : state) :
  optra_open env filename tl st = (Ok tt, st') →
  ∃ tiff,
    TIFFOpen env filename = Some tiff ∧
    osr_associated_images (osr st')
      = <["thumbnail" :=
            {| ai_dir := last_candidate 0%nat (tiff_dirs tiff) 0%nat |}]>
          (registered_images 0%nat (tiff_dirs tiff)
             (osr_associated_images (osr st))).
Proof.
  intros (tiff & xml & root & new & tcp & dp & Hopen)%optra_open_success.
  cbn zeta in Hopen.
  destruct Hopen as (Htiff & _ & _ & _ & _ & _ & _ & _ & _ & _ & Himages & _).
  by exists tiff.
Qed.

End OpenContent.

(** ** Which error [optra_open] fails with *)

Lemma bind_fail {A B} (m : M A) (k : A → M B) (st st' : state) (e : gerror) :
  bind m k st = (Fail e, st') →
  m st = (Fail e, st') ∨ ∃ a s1, m st = (Ok a, s1) ∧ k a s1 = (Fail e, st').
Proof.
  unfold bind. destruct (m st) as [[a|e'|] s1]; [|intros [= -> ->]; by left|done].
  intros Hk. right. by exists a, s1.
Qed.

Lemma on_failure_fail {A} (m : M A) (cleanup : M unit) (st st' : state)
  (e : gerror) :
  on_failure m cleanup st = (Fail e, st') → ∃ s1, m st = (Fail e, s1).
Proof.
  unfold on_failure. destruct (m st) as [[a|e'|] s1]; [done| |done].
  destruct (cleanup s1) as [[[]|e''|] s2]; intros [= <- <-]; by eexists.
Qed.

Section OpenErrors.

Context (env : environment).

Lemma add_level_result (array : loc) (pdata : list level) (current : tdir_t)
  (contents : directory) (st : state) :
  heap st !! array = Some (ObjPtrArray pdata) →
  ∃ r st',
    add_level env array current contents st = (r, st') ∧
    match r with
    | Ok _ =>
        level_error env current contents = None ∧
        ∃ pdata', heap st' !! array = Some (ObjPtrArray pdata') ∧
                  (length pdata' ≤ S (length pdata))%nat
    | Fail e => level_error env current contents = Some e
    | Undefined =>
        level_error env current contents = None ∧
        ¬ Z.of_nat (length pdata) < 2 ^ 32 - 1
    end.
Proof.
  intros Harr. unfold add_level, level_error, bind at 1, of_option.
  destruct (dir_compression contents) as [compression|]; [|by eexists _, _].
  cbn [ret]. destruct (TIFFIsCODECConfigured env compression); simpl;
    [|by eexists _, _].
  unfold bind at 1. rewrite alloc_run.
  assert (Hp : heap st !! fresh (dom (heap st)) = None) by apply fresh_lookup.
  set (p := fresh (dom (heap st))) in *.
  assert (Hpa : p ≠ array) by (intros Heq; by rewrite Heq, Harr in Hp).
  unfold bind at 1, on_failure, _openslide_tiff_level_init.
  destruct (level_geometry env current contents) as [g|].
  - cbn [ret]. unfold bind at 1, _openslide_grid_create_simple.
    rewrite alloc_run. cbn [heap upd_heap].
    assert (Hg : (<[p := ObjLevel]> (heap st))
                   !! fresh (dom (<[p := ObjLevel]> (heap st))) = None)
      by apply fresh_lookup.
    set (gp := fresh (dom (<[p := ObjLevel]> (heap st)))) in *.
    assert (Hga : gp ≠ array).
    { intros Heq. rewrite Heq, lookup_insert_ne in Hg by done.
      by rewrite Harr in Hg. }
    unfold g_ptr_array_add, bind at 1.
    erewrite g_ptr_array_pdata_run; cycle 1.
    { simpl. rewrite !lookup_insert_ne by done. exact Harr. }
    destruct (Z.ltb_spec (Z.of_nat (length pdata)) (2 ^ 32 - 1)).
    + eexists _, _. split; [done|]. split; [done|]. eexists. simpl.
      split; [apply lookup_insert_eq|]. rewrite length_app. simpl. lia.
    + eexists _, _. split; [done|]. split; [done|]. lia.
  - cbn [fail]. rewrite free_run. cbn [heap upd_heap].
    rewrite lookup_insert_eq. by eexists _, _.
Qed.

Lemma walk_directory_result (array : loc) (pdata : list level)
  (current : tdir_t) (contents : directory) (tn_dir : tdir_t) (st : state) :
  heap st !! array = Some (ObjPtrArray pdata) →
  ∃ r st',
    walk_directory env array current contents tn_dir st = (r, st') ∧
    match r with
    | Ok _ =>
        directory_error env current contents = None ∧
        ∃ pdata', heap st' !! array = Some (ObjPtrArray pdata') ∧
                  (length pdata' ≤ S (length pdata))%nat
    | Fail e => directory_error env current contents = Some e
    | Undefined =>
        directory_error env current contents = None ∧
        ¬ Z.of_nat (length pdata) < 2 ^ 32 - 1
    end.
Proof.
  intros Harr.
  assert (Hadd : ∀ tn_dir' : tdir_t,
    ∃ (r : result tdir_t) st',
      (do! add_level env array current contents in ret tn_dir') st = (r, st') ∧
      match r with
      | Ok _ =>
          level_error env current contents = None ∧
          ∃ pdata', heap st' !! array = Some (ObjPtrArray pdata') ∧
                    (length pdata' ≤ S (length pdata))%nat
      | Fail e => level_error env current contents = Some e
      | Undefined =>
          level_error env current contents = None ∧
          ¬ Z.of_nat (length pdata) < 2 ^ 32 - 1
      end).
  { intros tn_dir'.
    destruct (add_level_result array pdata current contents st Harr)
      as (r & st' & Hrun & Hr).
    unfold bind. rewrite Hrun. destruct r as [[]|e|]; by eexists _, _. }
  assert (Hskip : ∀ s, heap s = heap st →
    ∃ (r : result tdir_t) st',
      (Ok tn_dir, s) = (r, st') ∧
      match r with
      | Ok _ =>
          None = @None gerror ∧
          ∃ pdata', heap st' !! array = Some (ObjPtrArray pdata') ∧
                    (length pdata' ≤ S (length pdata))%nat
      | Fail e => None = Some e
      | Undefined => None = @None gerror ∧ ¬ Z.of_nat (length pdata) < 2 ^ 32 - 1
      end).
  { intros s Hs. eexists _, _. split; [done|]. split; [done|].
    exists pdata. rewrite Hs. split; [done|lia]. }
  unfold walk_directory, bind at 1, classify_directory, directory_error.
  destruct (dir_tiled contents); simpl; [|by apply Hskip].
  destruct (current =? 0)%nat; simpl; [apply Hadd|].
  destruct (dir_subfiletype contents) as [subfiletype|];
    [|by apply Hskip].
  destruct (Z.land subfiletype FILETYPE_REDUCEDIMAGE =? 0).
  - unfold bind at 1, of_option.
    destruct (dir_image_desc contents) as [name|]; [|by eexists _, _].
    cbn [ret]. unfold bind at 1. rewrite add_associated_image_run.
    destruct (associated_image_readable env current); [|by eexists _, _].
    by apply Hskip.
  - unfold bind at 1, of_option.
    destruct (dir_imwidth contents) as [imwidth|]; [|by eexists _, _].
    cbn [ret]. unfold bind at 1.
    destruct (dir_imheight contents) as [imheight|]; [|by eexists _, _].
    cbn [ret].
    destruct ((imwidth >? MIN_THUMBNAIL_DIM) && (imheight >? MIN_THUMBNAIL_DIM));
      apply Hadd.
Qed.

Lemma walk_result (array : loc) (rest : list directory) :
  ∀ (pdata : list level) (current : tdir_t) (contents : directory)
    (tn_dir : tdir_t) (st : state),
  heap st !! array = Some (ObjPtrArray pdata) →
  ∃ r st',
    walk env array current contents rest tn_dir st = (r, st') ∧
    match r with
    | Ok _ => first_error env current (contents :: rest) = None
    | Fail e => first_error env current (contents :: rest) = Some e
    | Undefined =>
        ¬ Z.of_nat (length pdata + length (contents :: rest)) < 2 ^ 32
    end.
Proof.
  induction rest as [|next rest IH]; intros pdata current contents tn_dir st Harr;
    destruct (walk_directory_result array pdata current contents tn_dir st Harr)
      as (r1 & s1 & Hrun1 & Hr1);
    simpl; unfold bind; rewrite Hrun1; destruct r1 as [tn_dir'|e|].
  - destruct Hr1 as [-> _]. by eexists _, _.
  - rewrite Hr1. by eexists _, _.
  - eexists _, _. split; [done|]. simpl. lia.
  - destruct Hr1 as (-> & pdata' & Harr' & Hlen).
    destruct (IH pdata' (S current) next tn_dir' s1 Harr')
      as (r & s2 & Hrun & Hr).
    exists r, s2. split; [done|]. destruct r as [?|?|]; [done..|].
    simpl in Hr |- *. lia.
  - rewrite Hr1. by eexists _, _.
  - eexists _, _. split; [done|]. simpl. lia.
Qed.

(** [optra_open] up to the build: the state the build starts from, and the
    rest of the run. *)
Lemma optra_open_to_build (filename : string) (tl : _openslide_tifflike)
  (st : state) :
  ∃ (sb : state) (array tcp : loc) (checked_out pooled : nat),
    heap sb !! array = Some (ObjPtrArray []) ∧
    heap sb !! tcp = Some (ObjTiffcache filename checked_out pooled) ∧
    tcp ≠ array ∧
    (∀ p, p ≠ tcp → p ≠ array → heap sb !! p = heap st !! p) ∧
    osr sb = osr st ∧
    optra_open env filename tl st =
    (do! on_failure (build_levels env array (TIFFOpen env filename) tl)
                    (FAIL array (TIFFOpen env filename) tcp) in
     let! pdata := g_ptr_array_pdata array in
     let level_count := to_int32 (Z.of_nat (length pdata)) in
     let! levels := g_ptr_array_free array false in
     let! data := alloc ObjOpsData in
     let! o := get_osr in
     do! g_assert (bool_decide (osr_data o = None)) in
     do! g_assert (bool_decide (osr_levels o = None)) in
     do! set_osr (install levels level_count {| data_ptr := data; tc := tcp |}) in
     _openslide_cached_tiff_put tcp (TIFFOpen env filename)) sb.
Proof.
  unfold optra_open, bind at 1, g_ptr_array_new. rewrite alloc_run.
  set (array := fresh (dom (heap st))).
  unfold bind at 1, _openslide_tiffcache_create. rewrite alloc_run.
  cbn [heap upd_heap].
  assert (Htc1 : (<[array := ObjPtrArray []]> (heap st))
                   !! fresh (dom (<[array := ObjPtrArray []]> (heap st))) = None)
    by apply fresh_lookup.
  set (tcp := fresh (dom (<[array := ObjPtrArray []]> (heap st)))) in *.
  assert (Hne : tcp ≠ array).
  { intros Heq. rewrite Heq in Htc1. by rewrite lookup_insert_eq in Htc1. }
  unfold bind at 1, _openslide_tiffcache_get, bind at 1, get_heap.
  cbn [heap upd_heap]. rewrite lookup_insert_eq.
  destruct (TIFFOpen env filename) as [tiff|].
  - unfold bind at 1, set_heap. cbn [ret]. eexists _, array, tcp, _, _.
    split; [|split; [|split; [done|split; [|split; [|reflexivity]]]]]; simpl.
    + rewrite !lookup_insert_ne by done. apply lookup_insert_eq.
    + apply lookup_insert_eq.
    + intros p Hp Hp'. by rewrite !lookup_insert_ne.
    + done.
  - cbn [ret]. eexists _, array, tcp, _, _.
    split; [|split; [|split; [done|split; [|split; [|reflexivity]]]]]; simpl.
    + rewrite lookup_insert_ne by done. apply lookup_insert_eq.
    + apply lookup_insert_eq.
    + intros p Hp Hp'. by rewrite !lookup_insert_ne.
    + done.
Qed.

(** The walk stops on the first directory the loop body fails on, and
    [optra_open] fails with that error. *)
Lemma optra_open_walk_failure (filename : string)
  (tl : _openslide_tifflike) (tiff : TIFF) (e : gerror) (st : state) :
  early_error env filename tl = None →
  TIFFOpen env filename = Some tiff →
  Z.of_nat (length (tiff_dirs tiff)) < 2 ^ 32 →
  first_error env 0%nat (tiff_dirs tiff) = Some e →
  fst (optra_open env filename tl st) = Fail e.
Proof.
  intros Hearly Hopen Hlen Hfirst.
  destruct (optra_open_failed_build env filename tl st)
    as (sb & array & tcp & co & po & Ha & Ht & Hne & _ & _ & _ & Ho & Hq & Hc
        & Hd & Hfail).
  destruct (build_levels env array (TIFFOpen env filename) tl sb)
    as [r s1] eqn:Hbuild.
  pose proof (build_levels_spec env _ _ _ _ _ _ _ Hbuild (walk_inv_start _ _ Ha))
    as Hspec.
  assert (r = Fail e) as ->.
  { unfold early_error in Hearly. rewrite Hopen in Hearly, Hbuild.
    unfold build_levels, bind at 1, of_option in Hbuild. cbn [ret] in Hbuild.
    unfold bind at 1, _openslide_tifflike_get_buffer, of_option in Hbuild.
    destruct (tifflike_buffer tl 0%nat TIFFTAG_XMLPACKET) as [xml|]; [|done].
    cbn [ret] in Hbuild. unfold bind at 1 in Hbuild.
    rewrite parse_initial_xml_run in Hbuild.
    destruct (xmlReadMemory env xml) as [root|]; [|done].
    destruct (String.eqb (node_name root) XML_ROOT_TAG); [|done].
    unfold bind at 1 in Hbuild.
    destruct (walk_result array (tiff_next tiff) [] 0%nat (tiff_first tiff)
                0%nat (upd_osr (with_properties (scaninfo_properties env root)) sb)
                Ha)
      as (rw & sw & Hwalk & Hrw).
    rewrite Hwalk in Hbuild. fold (tiff_dirs tiff) in Hrw.
    destruct rw as [?|e'|].
    - by rewrite Hfirst in Hrw.
    - rewrite Hfirst in Hrw. injection Hrw as <-. by injection Hbuild as <-.
    - simpl in Hrw. simpl in Hlen. lia. }
  destruct Hspec as [[pdata Hinv] _].
  destruct (Hfail e s1 eq_refl pdata Hinv) as (st' & -> & _). done.
Qed.

(** X12.  When the packet of the first directory is in order and the loop
    body fails on some directory, [optra_open] fails with the error of the
    first such directory (the file having fewer than 2^32 directories). *)
Theorem optra_open_first_bad_directory (filename : string)
  (tl : _openslide_tifflike) (tiff : TIFF) (e : gerror) (st : state) :
  early_error env filename tl = None →
  TIFFOpen env filename = Some tiff →
  Z.of_nat (length (tiff_dirs tiff)) < 2 ^ 32 →
  first_error env 0%nat (tiff_dirs tiff) = Some e →
  fst (optra_open env filename tl st) = Fail e.
Proof. apply optra_open_walk_failure. Qed.

(** X13.  Every error [optra_open] fails with is the error of one of its
    steps: of a step before the walk, of the first directory the loop body
    fails on, or, when the walk got through, of selecting the thumbnail
    directory, of registering the thumbnail or of the fingerprint. *)
Theorem optra_open_failure_cause (filename : string)
  (tl : _openslide_tifflike) (st st' : state) (e : gerror) :
  optra_open env filename tl st = (Fail e, st') →
  early_error env filename tl = Some e ∨
  ∃ tiff,
    TIFFOpen env filename = Some tiff ∧
    (first_error env 0%nat (tiff_dirs tiff) = Some e ∨
     first_error env 0%nat (tiff_dirs tiff) = None ∧
     (e = ErrSetDir ∨ e = ErrAssociatedImage ∨ e = ErrPropertiesAndHash)).
Proof.
  intros Hrun.
  destruct (optra_open_to_build filename tl st)
    as (sb & array & tcp & co & po & Ha & _ & _ & _ & _ & Heq).
  rewrite Heq in Hrun. clear Heq.
  apply bind_fail in Hrun as [[s1 Hbuild]%on_failure_fail|([] & s1 & _ & Hrun)].
  2: { exfalso.
       apply bind_fail in Hrun as [Hrun|(pdata & s2 & _ & Hrun)].
       { unfold g_ptr_array_pdata, bind, get_heap in Hrun.
         by destruct (heap s1 !! array) as [[]|]. }
       apply bind_fail in Hrun as [Hrun|(levels & s3 & _ & Hrun)].
       { unfold g_ptr_array_free in Hrun.
         apply bind_fail in Hrun as [Hrun|(pd & s3 & _ & Hrun)]; [|done].
         unfold g_ptr_array_pdata, bind, get_heap in Hrun.
         by destruct (heap s2 !! array) as [[]|]. }
       apply bind_fail in Hrun as [Hrun|(dp & s4 & _ & Hrun)].
       { by rewrite alloc_run in Hrun. }
       apply bind_fail in Hrun as [Hrun|(o & s5 & _ & Hrun)]; [done|].
       apply bind_fail in Hrun as [Hrun|([] & s6 & _ & Hrun)].
       { unfold g_assert in Hrun. by destruct (bool_decide _). }
       apply bind_fail in Hrun as [Hrun|([] & s7 & _ & Hrun)].
       { unfold g_assert in Hrun. by destruct (bool_decide _). }
       apply bind_fail in Hrun as [Hrun|([] & s8 & _ & Hrun)]; [done|].
       unfold _openslide_cached_tiff_put in Hrun.
       destruct (TIFFOpen env filename); [|done].
       unfold bind, get_heap in Hrun.
       by destruct (heap s8 !! tcp) as [[]|]. }
  unfold early_error. unfold build_levels in Hbuild.
  apply bind_fail in Hbuild as [Hbuild|(tiff & s & [Hopen ->]%of_option_ok & Hbuild)].
  { destruct (TIFFOpen env filename); [done|]. injection Hbuild as <- <-. by left. }
  rewrite Hopen.
  apply bind_fail in Hbuild as [Hbuild|(xml & s & [Hxml ->]%of_option_ok & Hbuild)].
  { unfold _openslide_tifflike_get_buffer in Hbuild.
    destruct (tifflike_buffer tl 0%nat TIFFTAG_XMLPACKET); [done|].
    injection Hbuild as <- <-. by left. }
  unfold _openslide_tifflike_get_buffer in Hxml. rewrite Hxml.
  apply bind_fail in Hbuild as [Hbuild|([] & s & Hparse & Hbuild)].
  { rewrite parse_initial_xml_run in Hbuild.
    destruct (xmlReadMemory env xml) as [root|];
      [|injection Hbuild as <- <-; by left].
    destruct (String.eqb (node_name root) XML_ROOT_TAG); [done|].
    injection Hbuild as <- <-. by left. }
  rewrite parse_initial_xml_run in Hparse.
  destruct (xmlReadMemory env xml) as [root|]; [|done].
  destruct (String.eqb (node_name root) XML_ROOT_TAG); [|done].
  injection Hparse as <-. right. exists tiff. split; [done|].
  destruct (walk_result array (tiff_next tiff) [] 0%nat (tiff_first tiff)
              0%nat (upd_osr (with_properties (scaninfo_properties env root)) sb)
              Ha)
    as (rw & sw & Hwalk & Hrw).
  fold (tiff_dirs tiff) in Hrw.
  apply bind_fail in Hbuild as [Hbuild|([tn_dir current] & s & Hwalk' & Hbuild)].
  { rewrite Hwalk in Hbuild. injection Hbuild as -> ->. by left. }
  rewrite Hwalk in Hwalk'. injection Hwalk' as -> ->. right. split; [done|].
  apply bind_fail in Hbuild as [Hbuild|(cur & s2 & _ & Hbuild)].
  { left. unfold _openslide_tiff_set_dir in Hbuild.
    destruct (tn_dir =? current)%nat; [done|].
    destruct (TIFFSetDirectory env tiff tn_dir); [done|]. by injection Hbuild as <-. }
  apply bind_fail in Hbuild as [Hbuild|([] & s3 & _ & Hbuild)].
  { right. left. rewrite add_associated_image_run in Hbuild.
    destruct (associated_image_readable env cur); [done|].
    by injection Hbuild as <-. }
  apply bind_fail in Hbuild as [Hbuild|([] & s4 & _ & Hbuild)].
  { unfold g_ptr_array_sort in Hbuild.
    apply bind_fail in Hbuild as [Hbuild|(pd & s4 & _ & Hbuild)]; [|done].
    unfold g_ptr_array_pdata, bind, get_heap in Hbuild.
    by destruct (heap s3 !! array) as [[]|]. }
  apply bind_fail in Hbuild as [Hbuild|(pd & s5 & _ & Hbuild)].
  { unfold g_ptr_array_pdata, bind, get_heap in Hbuild.
    by destruct (heap s4 !! array) as [[]|]. }
  apply bind_fail in Hbuild as [Hbuild|(top & s6 & _ & Hbuild)].
  { by destruct (pdata_index _ _). }
  right. right. unfold _openslide_tifflike_init_properties_and_hash in Hbuild.
  destruct (level_hashable env tl (dir (tiffl top))); [done|].
  by injection Hbuild as <-.
Qed.

End OpenErrors.

(** ** What a failed [optra_open] leaves on the slide handle *)

Lemma first_error_not_hash (env : environment) (dirs : list directory) :
  ∀ current e, first_error env current dirs = Some e →
               e ≠ ErrPropertiesAndHash.
Proof.
  induction dirs as [|d dirs IH]; intros current e; [done|]. simpl.
  destruct (directory_error env current d) as [e'|] eqn:Herr; [|apply IH].
  intros [= <-]. unfold directory_error, level_error in Herr.
  repeat case_match; by simplify_eq.
Qed.

Lemma passed_directories_all (env : environment) (dirs : list directory) :
  ∀ current, first_error env current dirs = None →
             passed_directories env current dirs = dirs.
Proof.
  induction dirs as [|d dirs IH]; intros current; [done|]. simpl.
  destruct (directory_error env current d); [done|].
  intros Hnone. by rewrite IH.
Qed.

Lemma first_error_is_Some (env : environment) (dirs : list directory) :
  ∀ current i d,
  dirs !! i = Some d →
  is_Some (directory_error env (current + i)%nat d) →
  is_Some (first_error env current dirs).
Proof.
  induction dirs as [|d0 dirs IH]; intros current i d Hi Herr; [done|].
  simpl. destruct i as [|i]; simpl in Hi.
  - injection Hi as ->. rewrite Nat.add_0_r in Herr.
    destruct Herr as [e ->]. by eexists.
  - destruct (directory_error env current d0); [by eexists|].
    apply (IH (S current) i d Hi).
    by replace (S current + i)%nat with (current + S i)%nat by lia.
Qed.

Section FailedOpen.

Context (env : environment).

Lemma add_level_osr (array : loc) (current : tdir_t) (contents : directory)
  (st st' : state) (r : result unit) :
  add_level env array current contents st = (r, st') → osr st' = osr st.
Proof.
  unfold add_level, bind at 1, of_option.
  destruct (dir_compression contents) as [compression|]; [|by intros [= <- <-]].
  cbn [ret]. destruct (TIFFIsCODECConfigured env compression); simpl;
    [|by intros [= <- <-]].
  unfold bind at 1. rewrite alloc_run.
  unfold bind at 1, on_failure, _openslide_tiff_level_init.
  destruct (level_geometry env current contents) as [g|].
  - cbn [ret]. unfold bind at 1, _openslide_grid_create_simple.
    rewrite alloc_run. unfold g_ptr_array_add, bind at 1, g_ptr_array_pdata,
      bind at 1, get_heap.
    match goal with |- context [?hp !! array] => destruct (hp !! array) as [[]|] end;
      try by intros [= <- <-].
    cbn [ret]. destruct (_ <? _); by intros [= <- <-].
  - cbn [fail]. rewrite free_run. cbn [heap upd_heap].
    rewrite lookup_insert_eq. by intros [= <- <-].
Qed.

Lemma walk_directory_osr (array : loc) (current : tdir_t)
  (contents : directory) (tn_dir : tdir_t) (st st' : state)
  (r : result tdir_t) :
  walk_directory env array current contents tn_dir st = (r, st') →
  osr_properties (osr st') = osr_properties (osr st) ∧
  osr_associated_images (osr st') =
    match r with
    | Ok _ => registered_images current [contents]
                (osr_associated_images (osr st))
    | _ => osr_associated_images (osr st)
    end.
Proof.
  assert (Hadd : ∀ tn_dir' : tdir_t,
    (do! add_level env array current contents in ret tn_dir') st = (r, st') →
    osr_properties (osr st') = osr_properties (osr st) ∧
    osr_associated_images (osr st') = osr_associated_images (osr st)).
  { intros tn_dir' Hrun. unfold bind in Hrun.
    destruct (add_level env array current contents st) as [r1 s1] eqn:Hadd.
    apply add_level_osr in Hadd.
    destruct r1 as [[]|e|]; injection Hrun as <- <-; by rewrite Hadd. }
  assert (Hadd' : ∀ tn_dir' : tdir_t,
    (do! add_level env array current contents in ret tn_dir') st = (r, st') →
    osr_properties (osr st') = osr_properties (osr st) ∧
    osr_associated_images (osr st') =
      match r with
      | Ok _ => osr_associated_images (osr st)
      | _ => osr_associated_images (osr st)
      end).
  { intros tn_dir' Hrun. destruct (Hadd tn_dir' Hrun) as [? ?].
    split; [done|]. by destruct r. }
  clear Hadd.
  unfold walk_directory, bind at 1, classify_directory. simpl.
  unfold associated_name.
  destruct (dir_tiled contents); simpl in *; [|by intros [= <- <-]].
  destruct (current =? 0)%nat; simpl in *; [by apply Hadd'|].
  destruct (dir_subfiletype contents) as [subfiletype|]; [|by intros [= <- <-]].
  destruct (Z.land subfiletype FILETYPE_REDUCEDIMAGE =? 0); simpl in *.
  - unfold bind at 1, of_option.
    destruct (dir_image_desc contents) as [name|]; [|by intros [= <- <-]].
    cbn [ret]. unfold bind at 1. rewrite add_associated_image_run.
    destruct (associated_image_readable env current); by intros [= <- <-].
  - unfold bind at 1, of_option.
    destruct (dir_imwidth contents) as [imwidth|]; [|by intros [= <- <-]].
    cbn [ret]. unfold bind at 1.
    destruct (dir_imheight contents) as [imheight|]; [|by intros [= <- <-]].
    cbn [ret].
    destruct ((imwidth >? MIN_THUMBNAIL_DIM) && (imheight >? MIN_THUMBNAIL_DIM));
      by apply Hadd'.
Qed.

Lemma walk_osr (array : loc) (rest : list directory) :
  ∀ (pdata : list level) (current : tdir_t) (contents : directory)
    (tn_dir : tdir_t) (st st' : state) (r : result (tdir_t * tdir_t)),
  walk env array current contents rest tn_dir st = (r, st') →
  heap st !! array = Some (ObjPtrArray pdata) →
  r ≠ Undefined →
  osr_properties (osr st') = osr_properties (osr st) ∧
  osr_associated_images (osr st') =
    registered_images current
      (passed_directories env current (contents :: rest))
      (osr_associated_images (osr st)).
Proof.
  induction rest as [|next rest IH];
    intros pdata current contents tn_dir st st' r Hrun Harr Hr;
    destruct (walk_directory_result env array pdata current contents tn_dir st
                Harr) as (r1 & s1 & Hrun1 & Hr1);
    destruct (walk_directory_osr _ _ _ _ _ _ _ Hrun1) as [Hprops Himages];
    simpl in Hrun; unfold bind in Hrun; rewrite Hrun1 in Hrun;
    destruct r1 as [tn_dir'|e|]; simpl.
  - destruct Hr1 as [-> _]. by injection Hrun as <- <-.
  - rewrite Hr1. by injection Hrun as <- <-.
  - by injection Hrun as <- <-.
  - destruct Hr1 as (Herr & pdata' & Harr' & _). rewrite Herr.
    destruct (IH _ _ _ _ _ _ _ Hrun Harr' Hr) as [Hprops2 Himages2].
    split; [congruence|]. by rewrite Himages2, Himages.
  - rewrite Hr1. by injection Hrun as <- <-.
  - by injection Hrun as <- <-.
Qed.

(** A failed [optra_open] is a failed build followed by the code under
    [FAIL], which leaves the slide handle alone. *)
Lemma optra_open_fail_inv (filename : string) (tl : _openslide_tifflike)
  (st st' : state) (e : gerror) :
  optra_open env filename tl st = (Fail e, st') →
  ∃ (sb s1 : state) (array : loc),
    osr sb = osr st ∧
    heap sb !! array = Some (ObjPtrArray []) ∧
    build_levels env array (TIFFOpen env filename) tl sb = (Fail e, s1) ∧
    osr st' = osr s1.
Proof.
  intros Hrun.
  destruct (optra_open_to_build env filename tl st)
    as (sb & array & tcp & co & po & Ha & Ht & Hne & _ & Hosr & Heq).
  rewrite Heq in Hrun. clear Heq.
  apply bind_fail in Hrun as [Hfail|([] & s1 & _ & Hrun)].
  2: { exfalso.
       apply bind_fail in Hrun as [Hrun|(pdata & s2 & _ & Hrun)].
       { unfold g_ptr_array_pdata, bind, get_heap in Hrun.
         by destruct (heap s1 !! array) as [[]|]. }
       apply bind_fail in Hrun as [Hrun|(levels & s3 & _ & Hrun)].
       { unfold g_ptr_array_free in Hrun.
         apply bind_fail in Hrun as [Hrun|(pd & s3 & _ & Hrun)]; [|done].
         unfold g_ptr_array_pdata, bind, get_heap in Hrun.
         by destruct (heap s2 !! array) as [[]|]. }
       apply bind_fail in Hrun as [Hrun|(dp & s4 & _ & Hrun)].
       { by rewrite alloc_run in Hrun. }
       apply bind_fail in Hrun as [Hrun|(o & s5 & _ & Hrun)]; [done|].
       apply bind_fail in Hrun as [Hrun|([] & s6 & _ & Hrun)].
       { unfold g_assert in Hrun. by destruct (bool_decide _). }
       apply bind_fail in Hrun as [Hrun|([] & s7 & _ & Hrun)].
       { unfold g_assert in Hrun. by destruct (bool_decide _). }
       apply bind_fail in Hrun as [Hrun|([] & s8 & _ & Hrun)]; [done|].
       unfold _openslide_cached_tiff_put in Hrun.
       destruct (TIFFOpen env filename); [|done].
       unfold bind, get_heap in Hrun.
       by destruct (heap s8 !! tcp) as [[]|]. }
  unfold on_failure in Hfail.
  destruct (build_levels env array (TIFFOpen env filename) tl sb)
    as [[[]|e'|] s1] eqn:Hbuild; [done| |done].
  pose proof (build_levels_spec env _ _ _ _ _ _ _ Hbuild (walk_inv_start _ _ Ha))
    as [[pdata Hinv] _].
  destruct (FAIL_run _ _ _ _ (TIFFOpen env filename) s1 _ _ _ Hinv Ht Hne)
    as (s2 & Hcleanup & Hosr2 & _).
  rewrite Hcleanup in Hfail. injection Hfail as -> <-.
  by exists sb, s1, array.
Qed.

(** The slide handle after a failed build. *)
Lemma build_levels_fail_osr (filename : string) (tl : _openslide_tifflike)
  (array : loc) (sb s1 : state) (e : gerror) :
  build_levels env array (TIFFOpen env filename) tl sb = (Fail e, s1) →
  heap sb !! array = Some (ObjPtrArray []) →
  early_error env filename tl = Some e ∧ osr s1 = osr sb ∨
  ∃ tiff xml root,
    TIFFOpen env filename = Some tiff ∧
    tifflike_buffer tl 0%nat TIFFTAG_XMLPACKET = Some xml ∧
    xmlReadMemory env xml = Some root ∧
    node_name root = XML_ROOT_TAG ∧
    osr_properties (osr s1)
      = scaninfo_properties env root (osr_properties (osr sb)) ∧
    osr_associated_images (osr s1)
      = match e with
        | ErrPropertiesAndHash =>
            <["thumbnail" :=
                {| ai_dir := last_candidate 0%nat (tiff_dirs tiff) 0%nat |}]>
              (registered_images 0%nat (tiff_dirs tiff)
                 (osr_associated_images (osr sb)))
        | _ =>
            registered_images 0%nat
              (passed_directories env 0%nat (tiff_dirs tiff))
              (osr_associated_images (osr sb))
        end.
Proof.
  intros Hbuild Ha. unfold early_error. unfold build_levels in Hbuild.
  apply bind_fail in Hbuild as [Hbuild|(tiff & s & [Hopen ->]%of_option_ok & Hbuild)].
  { destruct (TIFFOpen env filename); [done|]. injection Hbuild as <- <-. by left. }
  rewrite Hopen.
  apply bind_fail in Hbuild as [Hbuild|(xml & s & [Hxml ->]%of_option_ok & Hbuild)].
  { unfold _openslide_tifflike_get_buffer in Hbuild.
    destruct (tifflike_buffer tl 0%nat TIFFTAG_XMLPACKET); [done|].
    injection Hbuild as <- <-. by left. }
  unfold _openslide_tifflike_get_buffer in Hxml. rewrite Hxml.
  apply bind_fail in Hbuild as [Hbuild|([] & s & Hparse & Hbuild)].
  { rewrite parse_initial_xml_run in Hbuild.
    destruct (xmlReadMemory env xml) as [root|];
      [|injection Hbuild as <- <-; by left].
    destruct (String.eqb (node_name root) XML_ROOT_TAG); [done|].
    injection Hbuild as <- <-. by left. }
  rewrite parse_initial_xml_run in Hparse.
  destruct (xmlReadMemory env xml) as [root|] eqn:Hroot; [|done].
  destruct (String.eqb (node_name root) XML_ROOT_TAG) eqn:Hname; [|done].
  apply String.eqb_eq in Hname. injection Hparse as <-.
  right. exists tiff, xml, root.
  split; [done|]. split; [done|]. split; [done|]. split; [done|].
  set (sp := upd_osr (with_properties (scaninfo_properties env root)) sb) in *.
  destruct (walk env array 0%nat (tiff_first tiff) (tiff_next tiff) 0%nat sp)
    as [rw sw] eqn:Hwalk.
  destruct (walk_result env array (tiff_next tiff) [] 0%nat (tiff_first tiff)
              0%nat sp Ha) as (rw' & sw' & Hwalk' & Hrw).
  rewrite Hwalk in Hwalk'. injection Hwalk' as <- <-.
  fold (tiff_dirs tiff) in Hrw.
  pose proof (walk_spec env (heap sp) array _ _ _ _ _ _ _ _ Hwalk
                (walk_inv_start _ _ Ha)) as [_ Hspec].
  assert (Hosr : rw ≠ Undefined →
    osr_properties (osr sw) = osr_properties (osr sp) ∧
    osr_associated_images (osr sw) =
      registered_images 0%nat (passed_directories env 0%nat (tiff_dirs tiff))
        (osr_associated_images (osr sp))).
  { intros Hdef. exact (walk_osr array _ _ _ _ _ _ _ _ Hwalk Ha Hdef). }
  apply bind_fail in Hbuild as [Hbuild|([tn_dir current] & s & Hwalk' & Hbuild)].
  { rewrite Hwalk in Hbuild. injection Hbuild as -> ->.
    destruct (Hosr ltac:(done)) as [Hprops Himages].
    split; [done|]. rewrite Himages.
    pose proof (first_error_not_hash _ _ _ _ Hrw). by destruct e. }
  rewrite Hwalk in Hwalk'. injection Hwalk' as -> <-.
  destruct (Hosr ltac:(done)) as [Hprops Himages]. clear Hosr.
  rewrite (passed_directories_all _ _ _ Hrw) in Himages.
  destruct Hspec as (_ & Htn & _).
  apply bind_fail in Hbuild as [Hbuild|(cur & s2 & Hset & Hbuild)].
  { unfold _openslide_tiff_set_dir in Hbuild.
    destruct (tn_dir =? current)%nat; [done|].
    destruct (TIFFSetDirectory env tiff tn_dir); [done|].
    injection Hbuild as <- <-.
    by rewrite (passed_directories_all _ _ _ Hrw). }
  assert (cur = tn_dir ∧ s2 = sw) as [-> ->].
  { unfold _openslide_tiff_set_dir in Hset.
    destruct (Nat.eqb_spec tn_dir current) as [->|_]; [by injection Hset as <- <-|].
    destruct (TIFFSetDirectory env tiff tn_dir); [by injection Hset as <- <-|done]. }
  apply bind_fail in Hbuild as [Hbuild|([] & s3 & Hthumb & Hbuild)].
  { rewrite add_associated_image_run in Hbuild.
    destruct (associated_image_readable env tn_dir); [done|].
    injection Hbuild as <- <-.
    by rewrite (passed_directories_all _ _ _ Hrw). }
  rewrite add_associated_image_run in Hthumb.
  destruct (associated_image_readable env tn_dir); [|done].
  injection Hthumb as <-.
  apply bind_fail in Hbuild as [Hbuild|([] & s4 & Hsort & Hbuild)].
  { unfold g_ptr_array_sort in Hbuild.
    apply bind_fail in Hbuild as [Hbuild|(pd & s4 & _ & Hbuild)]; [|done].
    unfold g_ptr_array_pdata, bind, get_heap in Hbuild.
    match type of Hbuild with
    | context [?hp !! array] => by destruct (hp !! array) as [[]|]
    end. }
  assert (Hs4 : osr s4 = with_associated_images
                  (insert "thumbnail" {| ai_dir := tn_dir |}) (osr sw)).
  { unfold g_ptr_array_sort in Hsort.
    apply bind_ok in Hsort as (pd & s & Hpd & Hsort).
    unfold g_ptr_array_pdata, bind, get_heap in Hpd. simpl in Hpd.
    destruct (heap sw !! array) as [[]|]; try done.
    injection Hpd as <- <-. by injection Hsort as <-. }
  apply bind_fail in Hbuild as [Hbuild|(pd & s5 & Hpd & Hbuild)].
  { unfold g_ptr_array_pdata, bind, get_heap in Hbuild.
    by destruct (heap s4 !! array) as [[]|]. }
  assert (s5 = s4) as ->.
  { unfold g_ptr_array_pdata, bind, get_heap in Hpd.
    destruct (heap s4 !! array) as [[]|]; try done. by injection Hpd. }
  apply bind_fail in Hbuild as [Hbuild|(top & s6 & Htop & Hbuild)].
  { by destruct (pdata_index _ _). }
  assert (s6 = s4) as ->.
  { destruct (pdata_index _ _); [by injection Htop|done]. }
  unfold _openslide_tifflike_init_properties_and_hash in Hbuild.
  destruct (level_hashable env tl (dir (tiffl top))); [done|].
  injection Hbuild as <- <-. rewrite Hs4. simpl.
  split; [done|]. by rewrite Himages, Htn.
Qed.

Lemma unsupported_level_directory_error (i : tdir_t) (d : directory) (c : Z) :
  is_level_directory i d = true →
  dir_compression d = Some c →
  TIFFIsCODECConfigured env c = false →
  is_Some (directory_error env i d).
Proof.
  unfold is_level_directory, directory_error, level_error.
  intros Hlevel -> ->. destruct (dir_tiled d); [|done]. simpl in *.
  destruct (i =? 0)%nat; simpl in *; [by eexists|].
  destruct (dir_subfiletype d) as [subfiletype|]; [|done].
  destruct (Z.land subfiletype FILETYPE_REDUCEDIMAGE =? 0); [done|].
  destruct (dir_imwidth d); [|by eexists].
  destruct (dir_imheight d); by eexists.
Qed.

(** C2 (amended).  When [optra_open] fails, the heap is what it was before
    the call: every level and grid, the level array and the TIFF handle cache
    allocated on the way are released.  Levels, level count, private data,
    ops and cache of the slide handle and the fingerprint input are
    unchanged.  The slide handle is otherwise as before only when the failure
    comes before the directory walk.  When it comes later, the properties are
    those before the call overlaid with the properties of the XML packet, and
    the associated images are those before the call overlaid with the images
    of the directories the walk got through, and with the thumbnail when it
    is the fingerprint that failed.  And a level directory (tiled, and the
    first or flagged as a reduced image) whose compression the decoder is not
    configured for makes [optra_open] fail, with no level installed. *)
Theorem optra_open_failure_releases (filename : string)
  (tl : _openslide_tifflike) (st : state) :
  (∀ e st',
     optra_open env filename tl st = (Fail e, st') →
     heap st' = heap st ∧
     osr_levels (osr st') = osr_levels (osr st) ∧
     osr_level_count (osr st') = osr_level_count (osr st) ∧
     osr_data (osr st') = osr_data (osr st) ∧
     osr_ops (osr st') = osr_ops (osr st) ∧
     osr_cache (osr st') = osr_cache (osr st) ∧
     quickhash1 st' = quickhash1 st ∧
     (early_error env filename tl = Some e ∧ osr st' = osr st ∨
      early_error env filename tl = None ∧
      ∃ tiff xml root,
        TIFFOpen env filename = Some tiff ∧
        tifflike_buffer tl 0%nat TIFFTAG_XMLPACKET = Some xml ∧
        xmlReadMemory env xml = Some root ∧
        node_name root = XML_ROOT_TAG ∧
        osr_properties (osr st')
          = scaninfo_properties env root (osr_properties (osr st)) ∧
        osr_associated_images (osr st')
          = match e with
            | ErrPropertiesAndHash =>
                <["thumbnail" :=
                    {| ai_dir := last_candidate 0%nat (tiff_dirs tiff) 0%nat |}]>
                  (registered_images 0%nat (tiff_dirs tiff)
                     (osr_associated_images (osr st)))
            | _ =>
                registered_images 0%nat
                  (passed_directories env 0%nat (tiff_dirs tiff))
                  (osr_associated_images (osr st))
            end)) ∧
  (∀ tiff i d c,
     TIFFOpen env filename = Some tiff →
     Z.of_nat (length (tiff_dirs tiff)) < 2 ^ 32 →
     tiff_dirs tiff !! i = Some d →
     is_level_directory i d = true →
     dir_compression d = Some c →
     TIFFIsCODECConfigured env c = false →
     ∃ e st',
       optra_open env filename tl st = (Fail e, st') ∧
       osr_levels (osr st') = osr_levels (osr st) ∧
       osr_level_count (osr st') = osr_level_count (osr st)).
Proof.
  assert (HA : ∀ e st',
    optra_open env filename tl st = (Fail e, st') →
    heap st' = heap st ∧
    osr_levels (osr st') = osr_levels (osr st) ∧
    osr_level_count (osr st') = osr_level_count (osr st) ∧
    osr_data (osr st') = osr_data (osr st) ∧
    osr_ops (osr st') = osr_ops (osr st) ∧
    osr_cache (osr st') = osr_cache (osr st) ∧
    quickhash1 st' = quickhash1 st).
  { intros e st' Hrun. apply optra_open_spec in Hrun
      as (Hheap & (Hl & Hlc & Hd & Ho & Hc) & Hq & _).
    by repeat split. }
  split.
  - intros e st' Hrun.
    destruct (HA e st' Hrun) as (? & ? & ? & ? & ? & ? & ?).
    do 7 (split; [done|]).
    destruct (optra_open_fail_inv _ _ _ _ _ Hrun)
      as (sb & s1 & array & Hsb & Ha & Hbuild & Hs1).
    destruct (build_levels_fail_osr _ _ _ _ _ _ Hbuild Ha)
      as [[Hearly Hosr]|(tiff & xml & root & Hopen & Hxml & Hroot & Hname
                         & Hprops & Himages)].
    + left. split; [done|]. by rewrite Hs1, Hosr.
    + right. split.
      { unfold early_error. rewrite Hopen, Hxml, Hroot, Hname.
        by rewrite String.eqb_refl. }
      exists tiff, xml, root. rewrite Hs1, <- Hsb. by repeat split.
  - intros tiff i d c Hopen Hlen Hi Hlevel Hcomp Hcodec.
    assert (∃ e st', optra_open env filename tl st = (Fail e, st'))
      as (e & st' & Hrun).
    { destruct (early_error env filename tl) as [e0|] eqn:Hearly.
      { eexists _, _. by apply optra_open_early_run. }
      destruct (first_error_is_Some env (tiff_dirs tiff) 0%nat i d Hi)
        as [e1 Hfirst].
      { by apply (unsupported_level_directory_error i d c). }
      pose proof (optra_open_walk_failure env filename tl tiff e1 st
                    Hearly Hopen Hlen Hfirst) as Hfst.
      destruct (optra_open env filename tl st) as [r s]. simpl in Hfst.
      subst r. by eexists _, _. }
    exists e, st'. split; [done|].
    by destruct (HA e st' Hrun) as (_ & ? & ? & _).
Qed.

End FailedOpen.

(** ** [make-tables.c] *)

Lemma table_indices_elem (i : Z) : 0 ≤ i < 256 → i ∈ table_indices.
Proof.
  intros Hi. apply list_elem_of_fmap. exists (Z.to_nat i).
  split; [lia|]. apply elem_of_seq. lia.
Qed.

Lemma for_loop_is_Some (body : Z → option string) (n : nat) :
  ∀ i, (∀ k, i ≤ k < i + Z.of_nat n → is_Some (body k)) →
       is_Some (make_tables.for_loop n i body).
Proof.
  induction n as [|n IH]; intros i Hbody; [by eexists|].
  simpl. destruct (Hbody i) as [text ->]; [lia|]. simpl.
  destruct (IH (i + 1)) as [rest ->]; [|by eexists].
  intros k Hk. apply Hbody. lia.
Qed.

Lemma tables_check :
  forallb (fun i =>
    match make_tables.R_Cr i, make_tables.B_Cb i with
    | Some r, Some b =>
        (Z.abs (1000 * r - 1402 * (i - 128)) <=? 500) &&
        (Z.abs (1000 * b - 1772 * (i - 128)) <=? 500) &&
        forallb (fun j =>
          match make_tables.G_CbCr i j with
          | Some g =>
              Z.abs (100000 * g - (- 34414 * (i - 128) - 71414 * (j - 128)))
                <=? 50000
          | None => false
          end) table_indices
    | _, _ => false
    end) table_indices = true.
Proof. vm_compute. reflexivity. Qed.

(** X22.  Every entry of the three tables is defined (the conversion to
    [int] is in range) and is an integer nearest to the real coefficient:
    at most one half away from 1.402 (i - 128), from
    -0.34414 (i - 128) - 0.71414 (j - 128), and from 1.772 (i - 128). *)
Theorem make_ycbcr_tables_entries_nearest (i j : Z) :
  0 ≤ i < 256 → 0 ≤ j < 256 →
  ∃ r g b,
    make_tables.R_Cr i = Some r ∧
    make_tables.G_CbCr i j = Some g ∧
    make_tables.B_Cb i = Some b ∧
    Z.abs (1000 * r - 1402 * (i - 128)) ≤ 500 ∧
    Z.abs (100000 * g - (- 34414 * (i - 128) - 71414 * (j - 128))) ≤ 50000 ∧
    Z.abs (1000 * b - 1772 * (i - 128)) ≤ 500.
Proof.
  intros Hi%table_indices_elem Hj%table_indices_elem.
  pose proof tables_check as Hall.
  rewrite forallb_forall in Hall.
  apply list_elem_of_In, Hall in Hi.
  destruct (make_tables.R_Cr i) as [r|]; [|done].
  destruct (make_tables.B_Cb i) as [b|]; [|done].
  apply andb_prop in Hi as [[Hr Hb]%andb_prop Hg].
  rewrite forallb_forall in Hg. apply list_elem_of_In, Hg in Hj.
  destruct (make_tables.G_CbCr i j) as [g|]; [|done].
  exists r, g, b. repeat split; lia.
Qed.

Lemma mbind_is_Some {A B} (m : option A) (f : A → option B) :
  is_Some m → (∀ a, is_Some (f a)) → is_Some (m ≫= f).
Proof. intros [a ->] Hf. apply Hf. Qed.

Lemma make_ycbcr_tables_defined : is_Some make_tables.make_ycbcr_tables.
Proof.
  pose proof tables_check as Hall. rewrite forallb_forall in Hall.
  assert (Hentry : ∀ i, 0 ≤ i < 0 + Z.of_nat 256 →
    is_Some (make_tables.R_Cr i) ∧ is_Some (make_tables.B_Cb i) ∧
    ∀ j, 0 ≤ j < 0 + Z.of_nat 256 → is_Some (make_tables.G_CbCr i j)).
  { intros i Hi. assert (Hin : i ∈ table_indices) by (apply table_indices_elem; lia).
    apply list_elem_of_In, Hall in Hin.
    destruct (make_tables.R_Cr i) as [r|]; [|done].
    destruct (make_tables.B_Cb i) as [b|]; [|done].
    apply andb_prop in Hin as [_ Hg]. rewrite forallb_forall in Hg.
    split; [by eexists|]. split; [by eexists|]. intros j Hj.
    assert (Hjn : j ∈ table_indices) by (apply table_indices_elem; lia).
    apply list_elem_of_In, Hg in Hjn.
    by destruct (make_tables.G_CbCr i j); [eexists|]. }
  clear Hall. unfold make_tables.make_ycbcr_tables.
  apply mbind_is_Some.
  { apply for_loop_is_Some. intros k Hk. cbv beta.
    apply mbind_is_Some; [by apply Hentry|]. intros v. by eexists. }
  intros r. apply mbind_is_Some.
  { apply for_loop_is_Some. intros k Hk. cbv beta.
    apply mbind_is_Some; [|intros row; by eexists].
    apply for_loop_is_Some. intros j Hj. cbv beta.
    apply mbind_is_Some; [by apply Hentry|]. intros v. by eexists. }
  intros g. apply mbind_is_Some.
  { apply for_loop_is_Some. intros k Hk. cbv beta.
    apply mbind_is_Some; [by apply Hentry|]. intros v. by eexists. }
  intros b. by eexists.
Qed.

Lemma fail_outcome (message : string) :
  make_tables.status (make_tables.fail message) = 1 ∧
  make_tables.written (make_tables.fail message) = None ∧
  make_tables.stderr (make_tables.fail message) ≠ EmptyString.
Proof.
  split; [reflexivity|]. split; [reflexivity|].
  unfold make_tables.fail, make_tables.stderr, make_tables.newline.
  by destruct message.
Qed.

(** X23.  [main] with a non-empty argument vector returns 0 exactly when it
    was given one argument and the file could be created; it then has
    written the header followed by the three tables to that file and nothing
    to [stderr].  Otherwise it exits with status 1, has written a message to
    [stderr] and no file. *)
Theorem make_tables_main_outcome (fopen_w : string → bool)
  (argv : list string) :
  argv ≠ [] →
  ∃ o,
    make_tables.main fopen_w argv = Some o ∧
    (make_tables.status o = 0 ↔
     ∃ program outfile, argv = [program; outfile] ∧ fopen_w outfile = true) ∧
    (make_tables.status o = 0 →
     make_tables.stderr o = EmptyString ∧
     ∃ program outfile tables,
       argv = [program; outfile] ∧
       make_tables.make_ycbcr_tables = Some tables ∧
       make_tables.written o
         = Some (outfile, make_tables.header +:+ tables)) ∧
    (make_tables.status o ≠ 0 →
     make_tables.status o = 1 ∧ make_tables.written o = None ∧
     make_tables.stderr o ≠ EmptyString).
Proof.
  intros Hargv.
  assert (Hfail : ∀ message,
    (∀ program outfile, argv = [program; outfile] → fopen_w outfile = false) →
    make_tables.main fopen_w argv = Some (make_tables.fail message) →
    ∃ o,
      make_tables.main fopen_w argv = Some o ∧
      (make_tables.status o = 0 ↔
       ∃ program outfile, argv = [program; outfile] ∧ fopen_w outfile = true) ∧
      (make_tables.status o = 0 →
       make_tables.stderr o = EmptyString ∧
       ∃ program outfile tables,
         argv = [program; outfile] ∧
         make_tables.make_ycbcr_tables = Some tables ∧
         make_tables.written o
           = Some (outfile, make_tables.header +:+ tables)) ∧
      (make_tables.status o ≠ 0 →
       make_tables.status o = 1 ∧ make_tables.written o = None ∧
       make_tables.stderr o ≠ EmptyString)).
  { intros message Hnot Hrun. exists (make_tables.fail message).
    destruct (fail_outcome message) as (Hs & Hw & He).
    split; [exact Hrun|]. rewrite Hs. split; [split|split].
    - intros [=].
    - intros (program & outfile & Heq & Hopen).
      rewrite (Hnot program outfile Heq) in Hopen. discriminate Hopen.
    - intros [=].
    - intros _. split; [reflexivity|]. split; [exact Hw|exact He]. }
  destruct argv as [|program [|outfile [|third rest]]].
  - by destruct Hargv.
  - apply (Hfail ("Usage: " +:+ program +:+ " <outfile>")); [|reflexivity].
    intros ? ? [=].
  - destruct (fopen_w outfile) eqn:Hopen.
    + destruct make_ycbcr_tables_defined as [tables Htables].
      exists {| make_tables.status := 0; make_tables.stderr := EmptyString;
                make_tables.written :=
                  Some (outfile, make_tables.header +:+ tables) |}.
      split.
      { unfold make_tables.main. rewrite Hopen, Htables. reflexivity. }
      cbn [make_tables.status make_tables.stderr make_tables.written].
      split; [split|split].
      * intros _. exists program, outfile. split; [reflexivity|exact Hopen].
      * intros _. reflexivity.
      * intros _. split; [reflexivity|]. exists program, outfile, tables.
        split; [reflexivity|]. split; [exact Htables|reflexivity].
      * intros Hne. by destruct Hne.
    + apply (Hfail ("Couldn't create " +:+ outfile)).
      * intros ? ? [= <- <-]. exact Hopen.
      * unfold make_tables.main. rewrite Hopen. reflexivity.
  - apply (Hfail ("Usage: " +:+ program +:+ " <outfile>")); [|reflexivity].
    intros ? ? [=].
Qed.

Lemma make_ycbcr_tables_entries_nearest_witness :
  ∃ r g b,
    make_tables.R_Cr 253 = Some r ∧
    make_tables.G_CbCr 253 7 = Some g ∧
    make_tables.B_Cb 253 = Some b ∧
    Z.abs (1000 * r - 1402 * (253 - 128)) ≤ 500 ∧
    Z.abs (100000 * g - (- 34414 * (253 - 128) - 71414 * (7 - 128))) ≤ 50000 ∧
    Z.abs (1000 * b - 1772 * (253 - 128)) ≤ 500.
Proof. apply (make_ycbcr_tables_entries_nearest 253 7); lia. Defined.

Lemma make_tables_main_outcome_witness :
  ∃ o,
    make_tables.main (fun path => String.eqb path "tables.c")
      ["make-tables"; "tables.c"] = Some o ∧
    (make_tables.status o = 0 ↔
     ∃ program outfile,
       ["make-tables"; "tables.c"] = [program; outfile] ∧
       String.eqb outfile "tables.c" = true) ∧
    (make_tables.status o = 0 →
     make_tables.stderr o = EmptyString ∧
     ∃ program outfile tables,
       ["make-tables"; "tables.c"] = [program; outfile] ∧
       make_tables.make_ycbcr_tables = Some tables ∧
       make_tables.written o
         = Some (outfile, make_tables.header +:+ tables)) ∧
    (make_tables.status o ≠ 0 →
     make_tables.status o = 1 ∧ make_tables.written o = None ∧
     make_tables.stderr o ≠ EmptyString).
Proof.
  apply (make_tables_main_outcome (fun path => String.eqb path "tables.c")
           ["make-tables"; "tables.c"]).
  discriminate.
Defined.

(** ** The further properties on the samples *)

(** The unsupported code 99 in directories the walk passes over (one in
    strips, one without a subfile type) does not stop the build: it succeeds
    with two levels. *)
Example optra_open_passes_over_unsupported :
  let run := optra_open (with_file sample_env "passed-over.tif" sample_passed_over)
               "passed-over.tif" (sample_tifflike sample_packet) fresh_state in
  fst run = Ok tt ∧
  osr_level_count (osr (snd run)) = 2 ∧
  is_level_directory 1%nat (plain_directory 1000 750 99) = false.
Proof. vm_compute. done. Qed.

Lemma optra_open_failure_releases_witness :
  let st' := snd (optra_open sample_env "label-unsupported.tif"
                    (sample_tifflike sample_packet) fresh_state) in
  (heap st' = heap fresh_state ∧
   osr_levels (osr st') = osr_levels (osr fresh_state) ∧
   osr_level_count (osr st') = osr_level_count (osr fresh_state) ∧
   osr_data (osr st') = osr_data (osr fresh_state) ∧
   osr_ops (osr st') = osr_ops (osr fresh_state) ∧
   osr_cache (osr st') = osr_cache (osr fresh_state) ∧
   quickhash1 st' = quickhash1 fresh_state ∧
   (early_error sample_env "label-unsupported.tif"
      (sample_tifflike sample_packet) = Some (ErrUnsupportedCompression 99) ∧
    osr st' = osr fresh_state ∨
    early_error sample_env "label-unsupported.tif"
      (sample_tifflike sample_packet) = None ∧
    ∃ tiff xml root,
      TIFFOpen sample_env "label-unsupported.tif" = Some tiff ∧
      tifflike_buffer (sample_tifflike sample_packet) 0%nat TIFFTAG_XMLPACKET
        = Some xml ∧
      xmlReadMemory sample_env xml = Some root ∧
      node_name root = XML_ROOT_TAG ∧
      osr_properties (osr st')
        = scaninfo_properties sample_env root
            (osr_properties (osr fresh_state)) ∧
      osr_associated_images (osr st')
        = registered_images 0%nat
            (passed_directories sample_env 0%nat (tiff_dirs tiff))
            (osr_associated_images (osr fresh_state)))) ∧
  ∃ e st'',
    optra_open sample_env "label-unsupported.tif"
      (sample_tifflike sample_packet) fresh_state = (Fail e, st'') ∧
    osr_levels (osr st'') = osr_levels (osr fresh_state) ∧
    osr_level_count (osr st'') = osr_level_count (osr fresh_state).
Proof.
  intros st'.
  destruct (optra_open_failure_releases sample_env "label-unsupported.tif"
              (sample_tifflike sample_packet) fresh_state) as [Hfails Hcode].
  split.
  - apply (Hfails (ErrUnsupportedCompression 99) st').
    vm_compute. reflexivity.
  - apply (Hcode sample_label_then_unsupported 2%nat
             {| dir_tiled := true;
                dir_subfiletype := Some FILETYPE_REDUCEDIMAGE;
                dir_image_desc := None;
                dir_imwidth := Some 1000; dir_imheight := Some 750;
                dir_compression := Some 99 |} 99); reflexivity.
Defined.

Lemma optra_open_early_failure_witness :
  optra_open sample_env "missing.tif" (sample_tifflike sample_packet)
    fresh_state = (Fail ErrTiffOpen, fresh_state).
Proof.
  apply (optra_open_early_failure sample_env "missing.tif"
           (sample_tifflike sample_packet) fresh_state ErrTiffOpen).
  reflexivity.
Defined.

Lemma optra_open_decodes_nothing_witness :
  let st' := snd (optra_open sample_env "slide.tif"
                    (sample_tifflike sample_packet) fresh_state) in
  cr st' = cr fresh_state ∧ decoded st' = decoded fresh_state ∧
  osr_cache (osr st') = osr_cache (osr fresh_state).
Proof.
  intros st'.
  apply (optra_open_decodes_nothing sample_env "slide.tif"
           (sample_tifflike sample_packet) fresh_state st' (Ok tt)).
  - vm_compute. reflexivity.
  - discriminate.
Defined.

Lemma optra_open_first_bad_directory_witness :
  fst (optra_open sample_env "label-unsupported.tif"
         (sample_tifflike sample_packet) fresh_state)
  = Fail (ErrUnsupportedCompression 99).
Proof.
  apply (optra_open_first_bad_directory sample_env "label-unsupported.tif"
           (sample_tifflike sample_packet) sample_label_then_unsupported
           (ErrUnsupportedCompression 99) fresh_state); reflexivity.
Defined.

Lemma optra_open_failure_cause_witness :
  early_error sample_env "label-unsupported.tif"
    (sample_tifflike sample_packet) = Some (ErrUnsupportedCompression 99) ∨
  ∃ tiff,
    TIFFOpen sample_env "label-unsupported.tif" = Some tiff ∧
    (first_error sample_env 0%nat (tiff_dirs tiff)
       = Some (ErrUnsupportedCompression 99) ∨
     first_error sample_env 0%nat (tiff_dirs tiff) = None ∧
     (ErrUnsupportedCompression 99 = ErrSetDir ∨
      ErrUnsupportedCompression 99 = ErrAssociatedImage ∨
      ErrUnsupportedCompression 99 = ErrPropertiesAndHash)).
Proof.
  apply (optra_open_failure_cause sample_env "label-unsupported.tif"
           (sample_tifflike sample_packet) fresh_state
           (snd (optra_open sample_env "label-unsupported.tif"
                   (sample_tifflike sample_packet) fresh_state))).
  vm_compute. reflexivity.
Defined.

Lemma optra_open_levels_from_directories_witness :
  let st' := snd (optra_open sample_env "slide.tif"
                    (sample_tifflike sample_packet) fresh_state) in
  ∃ tiff built levels,
    TIFFOpen sample_env "slide.tif" = Some tiff ∧
    Forall2 (level_of_directory sample_env) built
      (level_directories 0%nat (tiff_dirs tiff)) ∧
    osr_levels (osr st') = Some levels ∧
    levels ≡ₚ built ∧
    osr_level_count (osr st')
      = to_int32 (Z.of_nat (length (level_directories 0%nat (tiff_dirs tiff)))).
Proof.
  intros st'.
  apply (optra_open_levels_from_directories sample_env "slide.tif"
           (sample_tifflike sample_packet) fresh_state st').
  vm_compute. reflexivity.
Defined.

Lemma optra_open_registers_images_witness :
  let st' := snd (optra_open sample_env "slide.tif"
                    (sample_tifflike sample_packet) fresh_state) in
  ∃ tiff,
    TIFFOpen sample_env "slide.tif" = Some tiff ∧
    osr_associated_images (osr st')
      = <["thumbnail" :=
            {| ai_dir := last_candidate 0%nat (tiff_dirs tiff) 0%nat |}]>
          (registered_images 0%nat (tiff_dirs tiff)
             (osr_associated_images (osr fresh_state))).
Proof.
  intros st'.
  apply (optra_open_registers_images sample_env "slide.tif"
           (sample_tifflike sample_packet) fresh_state st').
  vm_compute. reflexivity.
Defined.


Lemma destroy_twice_undefined_witness :
  let st := snd (optra_open sample_env "slide.tif"
                   (sample_tifflike sample_packet) fresh_state) in
  fst (destroy 1%positive (snd (destroy 1%positive st))) = Undefined.
Proof.
  intros st.
  apply (destroy_twice_undefined 1%positive st (snd (destroy 1%positive st))).
  vm_compute. reflexivity.
Defined.


Lemma paint_region_returns_handle_witness :
  let st := snd (optra_open sample_env "slide.tif"
                   (sample_tifflike sample_packet) fresh_state) in
  let st' := snd (paint_region sample_env sample_visible_tiles 1 100 50
                    sample_level 1000 200 st) in
  osr_data (osr st') = Some {| data_ptr := 13%positive; tc := 2%positive |} ∧
  heap st' !! grid sample_level = Some (ObjGrid 16 12 256 256) ∧
  ∃ pooled',
    heap st' !! 2%positive = Some (ObjTiffcache "slide.tif" 0 pooled').
Proof.
  intros st.
  apply (paint_region_returns_handle sample_env sample_visible_tiles 1 100 50
           sample_level 1000 200 st
           {| data_ptr := 13%positive; tc := 2%positive |} "slide.tif"
           0%nat 1%nat 16 12 256 256); vm_compute; reflexivity.
Defined.


